(** * Solis / Ginlong inverter service: a shallow embedding and its properties

    The development embeds the two source files of the integration,

    - [custom_components/solis/ginlong_api.py]: the schema table
      [INVERTER_DATA], the measurement container [GinlongData] and the portal
      client [GinlongAPI] (login, logout, inverter list, per inverter fetch,
      extraction and post-processing);
    - [custom_components/solis/service.py]: [ServiceSubscriber] and
      [InverterService] (login bookkeeping, subscription table, dispatch with
      the energy-today rule, the update cycle and its re-scheduling, and
      discovery).

    Python objects are modelled as records, dictionaries as association lists
    in insertion order, exceptions as an explicit [Raise] result that keeps
    the state reached when the exception left the function, and the outside
    world (portal answers and the wall clock) as oracles read through a step
    counter. *)

From Stdlib Require Import ZArith List String Ascii Bool Lia Floats Permutation.
Import ListNotations.

Set Warnings "-register-all".

Local Open Scope string_scope.
Local Open Scope list_scope.
Local Open Scope Z_scope.

(** ** Python values, exceptions and the built-ins the code calls *)

Module Py.

(** The exception classes that the modelled code can raise or catch. *)
Inductive exn : Type :=
| KeyError
| TypeError
| ValueError
| AttributeError
| OverflowError.

Definition exn_eqb (a b : exn) : bool :=
  match a, b with
  | KeyError, KeyError | TypeError, TypeError | ValueError, ValueError
  | AttributeError, AttributeError | OverflowError, OverflowError => true
  | _, _ => false
  end.

(** The outcome of a pure Python expression: a value or a raised exception. *)
Inductive result (A : Type) : Type :=
| Ok (a : A)
| Raise (e : exn).
Arguments Ok {A} a.
Arguments Raise {A} e.

Definition rbind {A B : Type} (r : result A) (k : A -> result B) : result B :=
  match r with
  | Ok a => k a
  | Raise e => Raise e
  end.

(** A decoded JSON document, as [resp.json()] hands it to the code: [None],
    [bool], [int], [float], [str], [list] and [dict] with string keys. *)
Inductive json : Type :=
| JNull
| JBool (b : bool)
| JInt (z : Z)
| JFloat (f : float)
| JStr (s : string)
| JList (l : list json)
| JDict (d : list (string * json)).

(** The values a measurement set holds: the results of [str(..)], [int(..)]
    and [float(..)], and the literal [0] of the energy-today rule. *)
Inductive value : Type :=
| VStr (s : string)
| VInt (z : Z)
| VFloat (f : float).

(** The three classes the schema table names as [type_]. *)
Inductive pytype : Type := TStr | TInt | TFloat.

Definition is_float (t : pytype) : bool :=
  match t with TFloat => true | _ => false end.

(** *** Dictionaries

    A [dict] with string keys is the list of its items in insertion order.
    The list stands for a dictionary when its keys are pairwise distinct;
    [dict_set] and [dict_pop] keep it so. *)

Definition dict (V : Type) : Type := list (string * V).

Fixpoint dict_get {V : Type} (d : dict V) (k : string) : option V :=
  match d with
  | [] => None
  | (k', v) :: rest => if String.eqb k' k then Some v else dict_get rest k
  end.

Definition dict_contains {V : Type} (d : dict V) (k : string) : bool :=
  match dict_get d k with Some _ => true | None => false end.

(** [d[k] = v]: an existing key keeps its position, a new key goes last. *)
Fixpoint dict_set {V : Type} (d : dict V) (k : string) (v : V) : dict V :=
  match d with
  | [] => [(k, v)]
  | (k', v') :: rest =>
      if String.eqb k' k then (k', v) :: rest else (k', v') :: dict_set rest k v
  end.

(** [d.pop(k)] as the code uses it, for the dictionary that is left. *)
Fixpoint dict_pop {V : Type} (d : dict V) (k : string) : dict V :=
  match d with
  | [] => []
  | (k', v') :: rest =>
      if String.eqb k' k then rest else (k', v') :: dict_pop rest k
  end.

Definition dict_keys {V : Type} (d : dict V) : list string := map fst d.

Definition well_formed {V : Type} (d : dict V) : Prop := NoDup (dict_keys d).

(** *** Numbers

    Python compares [int] and [float] by their exact mathematical value. *)

Definition float_eq_Z (f : float) (z : Z) : bool :=
  match Prim2SF f with
  | S754_zero _ => z =? 0
  | S754_finite s m e =>
      let a := if s then Zneg m else Zpos m in
      if 0 <=? e then a * 2 ^ e =? z else a =? z * 2 ^ (- e)
  | _ => false
  end.

(** [a == b] on measurement values. *)
Definition py_eq (a b : value) : bool :=
  match a, b with
  | VStr x, VStr y => String.eqb x y
  | VInt x, VInt y => x =? y
  | VFloat x, VFloat y => PrimFloat.eqb x y
  | VInt x, VFloat y => float_eq_Z y x
  | VFloat x, VInt y => float_eq_Z x y
  | _, _ => false
  end.

(** [j == z] for a decoded JSON value and an [int]; [True == 1] holds. *)
Definition json_eq_int (j : json) (z : Z) : bool :=
  match j with
  | JBool b => (if b then 1 else 0) =? z
  | JInt x => x =? z
  | JFloat f => float_eq_Z f z
  | _ => false
  end.

(** [j == s] for a decoded JSON value and a [str]. *)
Definition json_eq_str (j : json) (s : string) : bool :=
  match j with
  | JStr x => String.eqb x s
  | _ => false
  end.

(** [float(z)] of an [int]: the nearest double, ties to even;
    [OverflowError] when that is not finite. *)
Definition float_of_Z (z : Z) : result float :=
  let f := SF2Prim (binary_normalize prec emax z 0 false) in
  if PrimFloat.is_infinity f then Raise OverflowError else Ok f.

(** [int(f)] of a [float]: truncation towards zero. *)
Definition int_of_float (f : float) : result Z :=
  match Prim2SF f with
  | S754_nan => Raise ValueError
  | S754_infinity _ => Raise OverflowError
  | S754_zero _ => Ok 0
  | S754_finite s m e =>
      let a := if 0 <=? e then Zpos m * 2 ^ e else Zpos m / 2 ^ (- e) in
      Ok (if s then - a else a)
  end.

(** The part of the built-ins that parses and prints decimal text.  It is a
    parameter of the development: every theorem holds whatever these
    functions compute. *)
Record Builtins : Type := {
(** [str(x)] for an [x] that is not a [str] *)
  str_of_json : json -> string;
(** [int(s)] for a [str] *)
  int_of_string : string -> result Z;
(** [float(s)] for a [str] *)
  float_of_string : string -> result float;
(** [round(x, ndigits)] for a [float] and an [int] *)
  round_float : float -> Z -> result float;
(** [round(x, None)] for a [float] *)
  round_to_int : float -> result Z
}.

Section Conversions.
Context (py : Builtins).

(** [str(raw)] *)
Definition py_str (raw : json) : result string :=
    match raw with
    | JStr s => Ok s
    | _ => Ok (str_of_json py raw)
    end.

(** [int(raw)] *)
Definition py_int (raw : json) : result Z :=
    match raw with
    | JBool b => Ok (if b then 1 else 0)
    | JInt z => Ok z
    | JFloat f => int_of_float f
    | JStr s => int_of_string py s
    | JNull | JList _ | JDict _ => Raise TypeError
    end.

(** [float(raw)] *)
Definition py_float (raw : json) : result float :=
    match raw with
    | JBool b => Ok (if b then 1%float else 0%float)
    | JInt z => float_of_Z z
    | JFloat f => Ok f
    | JStr s => float_of_string py s
    | JNull | JList _ | JDict _ => Raise TypeError
    end.

(** [type_(raw)] *)
Definition construct (type_ : pytype) (raw : json) : result value :=
    match type_ with
    | TStr => rbind (py_str raw) (fun s => Ok (VStr s))
    | TInt => rbind (py_int raw) (fun z => Ok (VInt z))
    | TFloat => rbind (py_float raw) (fun f => Ok (VFloat f))
    end.

(** [round(v, precision)], for the [float] that [float(raw)] returned. *)
Definition py_round (v : value) (precision : option Z) : result value :=
    match v, precision with
    | VFloat f, Some n => rbind (round_float py f n) (fun r => Ok (VFloat r))
    | VFloat f, None => rbind (round_to_int py f) (fun z => Ok (VInt z))
    | VInt z, _ => Ok (VInt z)
    | VStr _, _ => Raise TypeError
    end.

(** [float(v)] of a stored measurement value. *)
Definition value_to_float (v : value) : result float :=
    match v with
    | VStr s => float_of_string py s
    | VInt z => float_of_Z z
    | VFloat f => Ok f
    end.
End Conversions.

(** *** Access to decoded JSON *)

(** [j[k]] with a string [k]: a missing key of a [dict] is a [KeyError];
    every other JSON value refuses a string subscript with a [TypeError]. *)
Definition subscript (j : json) (k : string) : result json :=
  match j with
  | JDict d => match dict_get d k with
               | Some v => Ok v
               | None => Raise KeyError
               end
  | _ => Raise TypeError
  end.

(** [j.get(k)]: [None] for a missing key; only a [dict] has the method. *)
Definition get (j : json) (k : string) : result json :=
  match j with
  | JDict d => match dict_get d k with
               | Some v => Ok v
               | None => Ok JNull
               end
  | _ => Raise AttributeError
  end.

Fixpoint chars (s : string) : list json :=
  match s with
  | EmptyString => []
  | String c rest => JStr (String c EmptyString) :: chars rest
  end.

(** The items [for x in j] visits: the elements of a list, the keys of a
    dict, the characters of a string; other values are not iterable. *)
Definition iterate (j : json) : result (list json) :=
  match j with
  | JList l => Ok l
  | JDict d => Ok (map (fun kv => JStr (fst kv)) d)
  | JStr s => Ok (chars s)
  | _ => Raise TypeError
  end.

End Py.
Import Py.

(** ** The text built-ins of CPython, on ASCII text

    An instance of [Builtins], to run the model on concrete inputs.  It
    follows CPython on text made of ASCII characters: the grammar of
    [int(s)] and [float(s)] (surrounding white space, sign, digits grouped
    by single underscores, fraction, exponent, [inf] and [nan]), correct
    rounding to the nearest double, [round] on the exact decimal value, and
    [repr] as the shortest text that reads back as the same double.  The
    properties below hold for every [Builtins]; this one runs the examples. *)

Module CPython.

Definition code (c : ascii) : Z := Z.of_nat (nat_of_ascii c).

(** White space that [int] and [float] skip at both ends. *)
Definition is_space (c : ascii) : bool :=
  let n := code c in
  ((9 <=? n) && (n <=? 13)) || ((28 <=? n) && (n <=? 32)).

Definition digit (c : ascii) : option Z :=
  let n := code c in
  if (48 <=? n) && (n <=? 57) then Some (n - 48) else None.

Fixpoint lstrip (cs : list ascii) : list ascii :=
  match cs with
  | c :: rest => if is_space c then lstrip rest else cs
  | [] => []
  end.

Definition strip (cs : list ascii) : list ascii :=
  rev (lstrip (rev (lstrip cs))).

(** The digits that follow: their value, their number and what is left.
    An underscore is read when it stands between two digits. *)
Fixpoint more_digits (cs : list ascii) (value : Z) (count : Z)
  : Z * Z * list ascii :=
  match cs with
  | c :: rest =>
      match digit c with
      | Some d => more_digits rest (10 * value + d) (count + 1)
      | None =>
          if (code c =? 95) then
            match rest with
            | c' :: rest' =>
                match digit c' with
                | Some d => more_digits rest' (10 * value + d) (count + 1)
                | None => (value, count, cs)
                end
            | [] => (value, count, cs)
            end
          else (value, count, cs)
      end
  | [] => (value, count, [])
  end.

(** A run of at least one digit. *)
Definition digits (cs : list ascii) : option (Z * Z * list ascii) :=
  match cs with
  | c :: rest =>
      match digit c with
      | Some d => Some (more_digits rest d 1)
      | None => None
      end
  | [] => None
  end.

(** An optional sign: whether it is a minus, and what is left. *)
Definition sign (cs : list ascii) : bool * list ascii :=
  match cs with
  | c :: rest =>
      if code c =? 45 then (true, rest)
      else if code c =? 43 then (false, rest)
      else (false, cs)
  | [] => (false, [])
  end.

(** [int(s)] *)
Definition int_of_string (s : string) : result Z :=
  let (negative, cs) := sign (strip (list_ascii_of_string s)) in
  match digits cs with
  | Some (value, _, []) => Ok (if negative then - value else value)
  | _ => Raise ValueError
  end.

(** The double nearest to [n / d], ties to even, for [0 <= n] and [0 < d]:
    the quotient is taken with more than 64 bits, and one more bit records
    whether anything is left. *)
Definition float_of_ratio (negative : bool) (n d : Z) : float :=
  if n =? 0 then (if negative then (-0)%float else 0%float)
  else
    let k := Z.max 0 (64 + Z.log2 d - Z.log2 n) in
    let q := (n * 2 ^ k) / d in
    let sticky := if (n * 2 ^ k) mod d =? 0 then 0 else 1 in
    let m := 2 * q + sticky in
    SF2Prim (binary_normalize prec emax (if negative then - m else m)
               (- k - 1) false).

(** The double nearest to [m * 10 ^ e]. *)
Definition float_of_decimal (negative : bool) (m e : Z) : float :=
  if 0 <=? e then float_of_ratio negative (m * 10 ^ e) 1
  else float_of_ratio negative m (10 ^ (- e)).

Definition lower (c : ascii) : ascii :=
  let n := code c in
  if (65 <=? n) && (n <=? 90) then ascii_of_nat (Z.to_nat (n + 32)) else c.

Definition is_word (word : string) (cs : list ascii) : bool :=
  String.eqb (string_of_list_ascii (map lower cs)) word.

(** An optional exponent: its value, and what is left; [None] when the
    letter is there and no number follows. *)
Definition exponent (cs : list ascii) : option (Z * list ascii) :=
  match cs with
  | c :: rest =>
      if (code c =? 101) || (code c =? 69) then
        let (negative, rest) := sign rest in
        match digits rest with
        | Some (value, _, rest) =>
            Some (if negative then - value else value, rest)
        | None => None
        end
      else Some (0, cs)
  | [] => Some (0, [])
  end.

(** A decimal number: mantissa, power of ten, and what is left. *)
Definition decimal (cs : list ascii) : option (Z * Z * list ascii) :=
  let '(whole, seen, rest) :=
    match digits cs with
    | Some (value, _, rest) => (value, true, rest)
    | None => (0, false, cs)
    end in
  let '(mantissa, scale, seen, rest) :=
    match rest with
    | c :: rest' =>
        if code c =? 46 then
          match digits rest' with
          | Some (value, count, rest'') =>
              (whole * 10 ^ count + value, count, true, rest'')
          | None => (whole, 0, seen, rest')
          end
        else (whole, 0, seen, rest)
    | [] => (whole, 0, seen, [])
    end in
  if seen then
    match exponent rest with
    | Some (e, rest) => Some (mantissa, e - scale, rest)
    | None => None
    end
  else None.

(** [float(s)] *)
Definition float_of_string (s : string) : result float :=
  let (negative, cs) := sign (strip (list_ascii_of_string s)) in
  if is_word "inf" cs || is_word "infinity" cs then
    Ok (if negative then neg_infinity else infinity)
  else if is_word "nan" cs then Ok nan
  else
    match decimal cs with
    | Some (m, e, []) => Ok (float_of_decimal negative m e)
    | _ => Raise ValueError
    end.

(** [n / d] rounded to the nearest integer, ties to even. *)
Definition round_half_even (n d : Z) : Z :=
  let q := n / d in
  match 2 * (n mod d) ?= d with
  | Lt => q
  | Gt => q + 1
  | Eq => if Z.even q then q else q + 1
  end.

(** [round(x, ndigits)]: the exact value of [x] is rounded to [ndigits]
    decimals, and the result read back as a double. *)
Definition round_float (x : float) (ndigits : Z) : result float :=
  match Prim2SF x with
  | S754_finite s m e =>
      let n := Zpos m * 2 ^ Z.max e 0 in
      let d := 2 ^ Z.max (- e) 0 in
      let r := if 0 <=? ndigits then round_half_even (n * 10 ^ ndigits) d
               else round_half_even n (d * 10 ^ (- ndigits)) in
      let y := float_of_decimal s r (- ndigits) in
      if PrimFloat.is_infinity y then Raise OverflowError else Ok y
  | _ => Ok x
  end.

(** [round(x)] *)
Definition round_to_int (x : float) : result Z :=
  match Prim2SF x with
  | S754_nan => Raise ValueError
  | S754_infinity _ => Raise OverflowError
  | S754_zero _ => Ok 0
  | S754_finite s m e =>
      let r := round_half_even (Zpos m * 2 ^ Z.max e 0) (2 ^ Z.max (- e) 0) in
      Ok (if s then - r else r)
  end.

(** The decimal digits of a natural number, the most significant first. *)
Fixpoint digits_of (fuel : nat) (n : Z) (acc : list ascii) : list ascii :=
  match fuel with
  | O => acc
  | S fuel =>
      let acc := ascii_of_nat (Z.to_nat (48 + n mod 10)) :: acc in
      if n / 10 =? 0 then acc else digits_of fuel (n / 10) acc
  end.

Definition decimal_digits (n : Z) : list ascii :=
  digits_of (S (Z.to_nat (Z.log2 n))) n [].

(** [str(z)] *)
Definition str_of_Z (z : Z) : string :=
  string_of_list_ascii
    ((if z <? 0 then ["-"%char] else []) ++ decimal_digits (Z.abs z)).

(** The largest [k] with [10 ^ k <= n / d], searched upwards from an
    estimate that is not above it. *)
Definition reaches (n d k : Z) : bool :=
  if 0 <=? k then 10 ^ k * d <=? n else d <=? n * 10 ^ (- k).

Fixpoint magnitude_from (fuel : nat) (n d k : Z) : Z :=
  match fuel with
  | O => k
  | S fuel => if reaches n d (k + 1) then magnitude_from fuel n d (k + 1) else k
  end.

Definition magnitude (n d : Z) : Z :=
  magnitude_from 8 n d (((Z.log2 n - Z.log2 d - 1) * 30103) / 100000 - 1).

(** The shortest decimal that reads back as [x = n / d]: it is looked for
    among the decimals of 1, 2, ... 17 digits next to the value, the nearer
    one first. *)
Fixpoint shortest (steps : nat) (p : Z) (x : float) (n d k : Z) : Z * Z :=
  let scale := k - p + 1 in
  let n' := if 0 <=? scale then n else n * 10 ^ (- scale) in
  let d' := if 0 <=? scale then d * 10 ^ scale else d in
  let lo := n' / d' in
  let hi := lo + 1 in
  let back c := PrimFloat.eqb (float_of_decimal false c scale) x in
  let nearer := round_half_even n' d' in
  let other := if nearer =? lo then hi else lo in
  if back nearer then (nearer, scale)
  else if back other then (other, scale)
  else
    match steps with
    | O => (nearer, scale)
    | S steps => shortest steps (p + 1) x n d k
    end.

Fixpoint strip_zeros (fuel : nat) (m e : Z) : Z * Z :=
  match fuel with
  | O => (m, e)
  | S fuel => if (m mod 10 =? 0) && negb (m =? 0)
              then strip_zeros fuel (m / 10) (e + 1) else (m, e)
  end.

Definition zeros (n : Z) : list ascii := repeat "0"%char (Z.to_nat n).

(** [repr(x)] of a positive finite double. *)
Definition repr_positive (x : float) (m : positive) (e : Z) : list ascii :=
  let n := Zpos m * 2 ^ Z.max e 0 in
  let d := 2 ^ Z.max (- e) 0 in
  let '(c, scale) := shortest 17 1 x n d (magnitude n d) in
  let '(c, scale) := strip_zeros 20 c scale in
  let ds := decimal_digits c in
  let len := Z.of_nat (List.length ds) in
  let decpt := len + scale in
  if (-4 <? decpt) && (decpt <=? 16) then
    if decpt <=? 0 then "0"%char :: "."%char :: zeros (- decpt) ++ ds
    else if len <=? decpt then ds ++ zeros (decpt - len) ++ ["."%char; "0"%char]
    else firstn (Z.to_nat decpt) ds ++ "."%char :: skipn (Z.to_nat decpt) ds
  else
    let power := decpt - 1 in
    let shown := decimal_digits (Z.abs power) in
    firstn 1 ds
    ++ (if 1 <? len then "."%char :: skipn 1 ds else [])
    ++ "e"%char :: (if power <? 0 then "-"%char else "+"%char)
    :: (if Z.abs power <? 10 then "0"%char :: shown else shown).

(** [repr(x)] of a [float] *)
Definition repr_float (x : float) : string :=
  match Prim2SF x with
  | S754_nan => "nan"
  | S754_infinity s => if s then "-inf" else "inf"
  | S754_zero s => if s then "-0.0" else "0.0"
  | S754_finite s m e =>
      string_of_list_ascii
        ((if s then ["-"%char] else [])
         ++ repr_positive (PrimFloat.abs x) m e)
  end.

Definition quote : ascii := ascii_of_nat 39.
Definition double_quote : ascii := ascii_of_nat 34.
Definition backslash : ascii := ascii_of_nat 92.

Definition hex_digit (n : Z) : ascii :=
  ascii_of_nat (Z.to_nat (if n <? 10 then 48 + n else 87 + n)).

(** One character of a [str] inside [repr], between the quotes [q]. *)
Definition escape (q : ascii) (c : ascii) : list ascii :=
  let n := code c in
  if Ascii.eqb c q || Ascii.eqb c backslash then [backslash; c]
  else if n =? 9 then [backslash; "t"%char]
  else if n =? 10 then [backslash; "n"%char]
  else if n =? 13 then [backslash; "r"%char]
  else if (n <? 32) || (n =? 127) then
    [backslash; "x"%char; hex_digit (n / 16); hex_digit (n mod 16)]
  else [c].

(** [repr(s)] of a [str]: in double quotes when the text has a single
    quote and no double quote, in single quotes otherwise. *)
Definition repr_str (s : string) : string :=
  let cs := list_ascii_of_string s in
  let q := if existsb (Ascii.eqb quote) cs
              && negb (existsb (Ascii.eqb double_quote) cs)
           then double_quote else quote in
  string_of_list_ascii (q :: flat_map (escape q) cs ++ [q]).

Definition join (parts : list string) : string := String.concat ", " parts.

(** [repr(x)] of a decoded JSON value *)
Fixpoint repr (j : json) : string :=
  match j with
  | JNull => "None"
  | JBool b => if b then "True" else "False"
  | JInt z => str_of_Z z
  | JFloat f => repr_float f
  | JStr s => repr_str s
  | JList l => "[" ++ join (map repr l) ++ "]"
  | JDict d =>
      "{" ++ join (map (fun kv => repr_str (fst kv) ++ ": " ++ repr (snd kv)) d)
      ++ "}"
  end%string.

(** [str(x)]: the text itself for a [str], [repr(x)] otherwise. *)
Definition str_of_json (j : json) : string :=
  match j with
  | JStr s => s
  | _ => repr j
  end.

Definition builtins : Builtins :=
  {| Py.str_of_json := str_of_json;
     Py.int_of_string := int_of_string;
     Py.float_of_string := float_of_string;
     Py.round_float := round_float;
     Py.round_to_int := round_to_int |}.

End CPython.

Notation "'let?' x ':=' c 'in' k" := (rbind c (fun x => k))
  (at level 10, x name, c at level 100, k at level 200).

(** ** Statements that change an object: a state and exception monad

    A method body is a function from the state of the objects it can reach
    to an outcome and the state it leaves, also when it raises: an assignment
    made before an exception stays made. *)

Definition M (S A : Type) : Type := S -> result A * S.

Definition ret {S A : Type} (a : A) : M S A := fun s => (Ok a, s).

Definition raise {S A : Type} (e : exn) : M S A := fun s => (Raise e, s).

Definition bind {S A B : Type} (m : M S A) (k : A -> M S B) : M S B :=
  fun s =>
    match m s with
    | (Ok a, s') => k a s'
    | (Raise e, s') => (Raise e, s')
    end.

Definition lift {S A : Type} (r : result A) : M S A := fun s => (r, s).

Definition gets {S A : Type} (f : S -> A) : M S A := fun s => (Ok (f s), s).

Definition modify {S : Type} (f : S -> S) : M S unit := fun s => (Ok tt, f s).

(** [try: body except E: handler], for the classes [catches] accepts. *)
Definition try_except {S A : Type}
  (body : M S A) (catches : exn -> bool) (handler : M S A) : M S A :=
  fun s =>
    match body s with
    | (Raise e, s') => if catches e then handler s' else (Raise e, s')
    | done => done
    end.

(** A method of an object held in a field of the current one. *)
Definition zoom {S T A : Type}
  (field : S -> T) (update : T -> S -> S) (m : M T A) : M S A :=
  fun s => let (r, t) := m (field s) in (r, update t s).

Declare Scope monad_scope.
Delimit Scope monad_scope with monad.
Notation "x <- c ;; k" := (bind c (fun x => k))
  (at level 61, c at next level, right associativity) : monad_scope.
Notation "c ;; k" := (bind c (fun _ => k))
  (at level 61, right associativity) : monad_scope.
Local Open Scope monad_scope.

(** [for x in l: body] *)
Fixpoint for_each {S A : Type} (l : list A) (body : A -> M S unit) : M S unit :=
  match l with
  | [] => ret tt
  | x :: rest => body x ;; for_each rest body
  end.

(** [for x in l: body], with a local variable the body reassigns. *)
Fixpoint for_fold {S A B : Type}
  (l : list A) (acc : B) (body : B -> A -> M S B) : M S B :=
  match l with
  | [] => ret acc
  | x :: rest => acc' <- body acc x ;; for_fold rest acc' body
  end.

(** ** The attribute names of [ginlong_const]

    Modelled from the spec: the module [ginlong_const], which gives each
    attribute constant its string, is not among the sources.  The spec names
    the strings ["state"] and ["serial"]; the others are taken to be the
    constant's name in lower case.  The development uses only that the
    strings differ from one another. *)

Definition INVERTER_SERIAL : string := "serial".
Definition INVERTER_PLANT_ID : string := "plant_id".
Definition INVERTER_LAT : string := "lat".
Definition INVERTER_LON : string := "lon".
Definition INVERTER_ADDRESS : string := "address".
Definition INVERTER_DEVICE_ID : string := "device_id".
Definition INVERTER_DATALOGGER_SERIAL : string := "datalogger_serial".
Definition INVERTER_TIMESTAMP_ONLINE : string := "timestamp_online".
Definition INVERTER_TIMESTAMP_UPDATE : string := "timestamp_update".
Definition INVERTER_STATE : string := "state".
Definition INVERTER_TEMPERATURE : string := "temperature".
Definition INVERTER_POWER_LIMIT : string := "power_limit".
Definition INVERTER_POWER_STATE : string := "power_state".
Definition INVERTER_ACPOWER : string := "acpower".
Definition INVERTER_ACFREQUENCY : string := "acfrequency".
Definition INVERTER_ENERGY_LAST_MONTH : string := "energy_last_month".
Definition INVERTER_ENERGY_TODAY : string := "energy_today".
Definition INVERTER_ENERGY_THIS_MONTH : string := "energy_this_month".
Definition INVERTER_ENERGY_THIS_YEAR : string := "energy_this_year".
Definition INVERTER_ENERGY_TOTAL_LIFE : string := "energy_total_life".
Definition STRING1_VOLTAGE : string := "string1_voltage".
Definition STRING2_VOLTAGE : string := "string2_voltage".
Definition STRING3_VOLTAGE : string := "string3_voltage".
Definition STRING4_VOLTAGE : string := "string4_voltage".
Definition STRING1_CURRENT : string := "string1_current".
Definition STRING2_CURRENT : string := "string2_current".
Definition STRING3_CURRENT : string := "string3_current".
Definition STRING4_CURRENT : string := "string4_current".
Definition STRING1_POWER : string := "string1_power".
Definition STRING2_POWER : string := "string2_power".
Definition STRING3_POWER : string := "string3_power".
Definition STRING4_POWER : string := "string4_power".
Definition PHASE1_VOLTAGE : string := "phase1_voltage".
Definition PHASE2_VOLTAGE : string := "phase2_voltage".
Definition PHASE3_VOLTAGE : string := "phase3_voltage".
Definition PHASE1_CURRENT : string := "phase1_current".
Definition PHASE2_CURRENT : string := "phase2_current".
Definition PHASE3_CURRENT : string := "phase3_current".
Definition BAT_REMAINING_CAPACITY : string := "bat_remaining_capacity".
Definition BAT_TOTAL_ENERGY_CHARGED : string := "bat_total_energy_charged".
Definition BAT_TOTAL_ENERGY_DISCHARGED : string := "bat_total_energy_discharged".
Definition BAT_DAILY_ENERGY_CHARGED : string := "bat_daily_energy_charged".
Definition BAT_DAILY_ENERGY_DISCHARGED : string := "bat_daily_energy_discharged".
Definition GRID_DAILY_ON_GRID_ENERGY : string := "grid_daily_on_grid_energy".
Definition GRID_DAILY_ENERGY_PURCHASED : string := "grid_daily_energy_purchased".
Definition GRID_DAILY_ENERGY_USED : string := "grid_daily_energy_used".
Definition GRID_MONTHLY_ENERGY_PURCHASED : string := "grid_monthly_energy_purchased".
Definition GRID_MONTHLY_ENERGY_USED : string := "grid_monthly_energy_used".
Definition GRID_YEARLY_ENERGY_PURCHASED : string := "grid_yearly_energy_purchased".
Definition GRID_YEARLY_ENERGY_USED : string := "grid_yearly_energy_used".
Definition GRID_TOTAL_ON_GRID_ENERGY : string := "grid_total_on_grid_energy".
Definition GRID_TOTAL_CONSUMPTION_ENERGY : string := "grid_total_consumption_energy".
Definition GRID_TOTAL_POWER : string := "grid_total_power".
Definition GRID_TOTAL_CONSUMPTION_POWER : string := "grid_total_consumption_power".
Definition GRID_TOTAL_ENERGY_USED : string := "grid_total_energy_used".

(** ** [ginlong_api.py]: the schema table *)

(** [VALUE_RECORD] and [VALUE_ELEMENT]: the suffix that selects
    [_get_value_from_record] or [_get_value]. *)
Inductive payload_type : Type := VALUE_RECORD | VALUE_ELEMENT.

(** One row: [[raw key, type, decimal precision]]. *)
Definition field_spec : Type := (string * pytype * option Z)%type.

(** [{payload subset key: [payload type, {key type, decimal precision}]}],
    in the order of the dictionary literal. *)
Definition INVERTER_DATA : dict (payload_type * dict field_spec) :=
  [ ("none", (VALUE_ELEMENT,
      [ (INVERTER_SERIAL, ("sn", TStr, None));
        (INVERTER_PLANT_ID, ("plantId", TStr, None));
        (INVERTER_LAT, ("lat", TFloat, Some 7));
        (INVERTER_LON, ("lon", TFloat, Some 7));
        (INVERTER_ADDRESS, ("address", TStr, None));
        (INVERTER_DEVICE_ID, ("deviceId", TStr, None));
        (INVERTER_DATALOGGER_SERIAL, ("dataloggerSn", TStr, None));
        (INVERTER_TIMESTAMP_ONLINE, ("receiveTimestamps", TInt, None));
        (INVERTER_TIMESTAMP_UPDATE, ("updateDate", TInt, None));
        (INVERTER_STATE, ("state", TInt, None)) ]));
    ("realTimeDataImp", (VALUE_RECORD,
      [ (INVERTER_TEMPERATURE, ("1df", TFloat, Some 1)) ]));
    ("realTimeDataOther", (VALUE_RECORD,
      [ (INVERTER_POWER_LIMIT, ("1rv", TFloat, Some 2)) ]));
    ("realTimeDataState", (VALUE_RECORD,
      [ (INVERTER_POWER_STATE, ("1fd", TInt, None)) ]));
    ("realTimeDataPower", (VALUE_RECORD,
      [ (INVERTER_ACPOWER, ("1ao", TFloat, Some 2));
        (INVERTER_ACFREQUENCY, ("1ar", TFloat, Some 2));
        (INVERTER_ENERGY_LAST_MONTH, ("1ru", TFloat, Some 2));
        (INVERTER_ENERGY_TODAY, ("1bd", TFloat, Some 2));
        (INVERTER_ENERGY_THIS_MONTH, ("1be", TFloat, Some 2));
        (INVERTER_ENERGY_THIS_YEAR, ("1bf", TFloat, Some 2));
        (INVERTER_ENERGY_TOTAL_LIFE, ("1bc", TFloat, Some 2));
        (STRING1_VOLTAGE, ("1a", TFloat, Some 2));
        (STRING2_VOLTAGE, ("1b", TFloat, Some 2));
        (STRING3_VOLTAGE, ("1c", TFloat, Some 2));
        (STRING4_VOLTAGE, ("1d", TFloat, Some 2));
        (STRING1_CURRENT, ("1j", TFloat, Some 2));
        (STRING2_CURRENT, ("1k", TFloat, Some 2));
        (STRING3_CURRENT, ("1l", TFloat, Some 2));
        (STRING4_CURRENT, ("1m", TFloat, Some 2));
        (STRING1_POWER, ("1s", TFloat, Some 2));
        (STRING2_POWER, ("1t", TFloat, Some 2));
        (STRING3_POWER, ("1u", TFloat, Some 2));
        (STRING4_POWER, ("1v", TFloat, Some 2));
        (PHASE1_VOLTAGE, ("1af", TFloat, Some 2));
        (PHASE2_VOLTAGE, ("1ag", TFloat, Some 2));
        (PHASE3_VOLTAGE, ("1ah", TFloat, Some 2));
        (PHASE1_CURRENT, ("1ai", TFloat, Some 2));
        (PHASE2_CURRENT, ("1aj", TFloat, Some 2));
        (PHASE3_CURRENT, ("1ak", TFloat, Some 2)) ]));
    ("dataJSON", (VALUE_ELEMENT,
      [ (BAT_REMAINING_CAPACITY, ("1cv", TFloat, Some 2));
        (BAT_TOTAL_ENERGY_CHARGED, ("1cx", TFloat, Some 2));
        (BAT_TOTAL_ENERGY_DISCHARGED, ("1cy", TFloat, Some 2));
        (BAT_DAILY_ENERGY_CHARGED, ("1cz", TFloat, Some 2));
        (BAT_DAILY_ENERGY_DISCHARGED, ("1da", TFloat, Some 2));
        (GRID_DAILY_ON_GRID_ENERGY, ("1bw", TFloat, Some 2));
        (GRID_DAILY_ENERGY_PURCHASED, ("1bx", TFloat, Some 2));
        (GRID_DAILY_ENERGY_USED, ("1co", TFloat, Some 2));
        (GRID_MONTHLY_ENERGY_PURCHASED, ("1bz", TFloat, Some 2));
        (GRID_MONTHLY_ENERGY_USED, ("1cp", TFloat, Some 2));
        (GRID_YEARLY_ENERGY_PURCHASED, ("1cb", TFloat, Some 2));
        (GRID_YEARLY_ENERGY_USED, ("1cq", TFloat, Some 2));
        (GRID_TOTAL_ON_GRID_ENERGY, ("1bu", TFloat, Some 2));
        (GRID_TOTAL_CONSUMPTION_ENERGY, ("1cn", TFloat, Some 2));
        (GRID_TOTAL_POWER, ("1bq", TFloat, Some 2));
        (GRID_TOTAL_CONSUMPTION_POWER, ("1cj", TFloat, Some 2));
        (GRID_TOTAL_ENERGY_USED, ("1bv", TFloat, Some 2)) ])) ].

(** ** [ginlong_api.py]: [GinlongData] *)

(** The object keeps the dictionary it was built from. *)
Record GinlongData : Type := { get_inverter_data : dict value }.

(** [l.remove(x)]: drops the first [x]; [ValueError] when there is none. *)
Fixpoint list_remove (x : string) (l : list string) : result (list string) :=
  match l with
  | [] => Raise ValueError
  | y :: rest =>
      if String.eqb y x then Ok rest
      else let? rest' := list_remove x rest in Ok (y :: rest')
  end.

(** [GinlongData.keys]: the keys of all measurements, state moved first. *)
Definition keys (data : GinlongData) : result (list string) :=
  let available_measurements := dict_keys (get_inverter_data data) in
  let? available_measurements := list_remove INVERTER_STATE available_measurements in
  Ok (INVERTER_STATE :: available_measurements).

(** [GinlongData.__getattr__]: what [getattr(data, name)] gives for the name
    of a measurement.  Python calls [__getattr__] when the normal lookup of
    [name] finds nothing, so this is [getattr] for every name other than
    those of the members of the class ([keys], [get_inverter_data], [_data]
    and the like), which no attribute constant is. *)
Definition __getattr__ (data : GinlongData) (name : string) : result value :=
  match dict_get (get_inverter_data data) name with
  | Some v => Ok v
  | None => Raise AttributeError
  end.

(** ** [ginlong_api.py]: extraction *)

Section Extraction.
Context (py : Builtins).

(** [GinlongAPI._get_value]: retrieve [key] from [data] as [type_]. *)
Definition _get_value
  (data : json) (key : string) (type_ : pytype) (precision : option Z)
  : result (option value) :=
  let? data_raw := get data key in
  match data_raw with
  | JNull => Ok None
  | _ =>
      let? result := construct py type_ data_raw in
      let? result := (if is_float type_ then py_round py result precision
                      else Ok result) in
      Ok (Some result)
  end.

(** The loop of [GinlongAPI._get_value_from_record] over the records that
    are left, [result] being the local variable of that name. *)
Fixpoint scan_records
  (records : list json) (key : string) (type_ : pytype) (precision : option Z)
  (result : option value) : Py.result (option value) :=
  match records with
  | [] => Ok result
  | record :: rest =>
      let? key_value := get record "key" in
      if json_eq_str key_value key then
        let? data_raw := get record "value" in
        match data_raw with
        | JNull => scan_records rest key type_ precision result
        | _ =>
            let? r := construct py type_ data_raw in
            let? r := (if is_float type_ then py_round py r precision
                       else Ok r) in
            scan_records rest key type_ precision (Some r)
        end
      else scan_records rest key type_ precision result
  end.

(** [GinlongAPI._get_value_from_record] *)
Definition _get_value_from_record
  (data : json) (key : string) (type_ : pytype) (precision : option Z)
  : result (option value) :=
  let? records := iterate data in
  scan_records records key type_ precision None.

(** [getattr(self, '_get_value' + INVERTER_DATA[subkey][0])] *)
Definition getter (kind : payload_type)
  : json -> string -> pytype -> option Z -> result (option value) :=
  match kind with
  | VALUE_RECORD => _get_value_from_record
  | VALUE_ELEMENT => _get_value
  end.

(** [payload['result']['deviceWapper']], and its [subkey] part unless the
    subset key is ['none']. *)
Definition subset (payload : json) (subkey : string) : result json :=
  let? r := subscript payload "result" in
  let? jsondata := subscript r "deviceWapper" in
  if String.eqb subkey "none" then Ok jsondata else subscript jsondata subkey.

(** The body of the inner loop of [_collect_inverter_data]: one attribute of
    the subset, stored in [self._data] unless the value is [None]. *)
Definition collect_attribute
  (jsondata : json) (kind : payload_type) (row : string * field_spec)
  : M (dict value) unit :=
  let '(dictkey, (key, type_, precision)) := row in
  value <- lift (getter kind jsondata key type_ precision) ;;
  match value with
  | Some v => modify (fun _data => dict_set _data dictkey v)
  | None => ret tt
  end.

(** The body of the outer loop: one payload subset. *)
Definition collect_subset
  (payload : json) (entry : string * (payload_type * dict field_spec))
  : M (dict value) unit :=
  let '(subkey, (kind, attributes)) := entry in
  jsondata <- lift (subset payload subkey) ;;
  for_each attributes (collect_attribute jsondata kind).

(** [GinlongAPI._collect_inverter_data], on [self._data]. *)
Definition _collect_inverter_data (payload : json) : M (dict value) unit :=
  for_each INVERTER_DATA (collect_subset payload).

(** ** [ginlong_api.py]: post-processing *)

(** The first loop of [_purge_if_unused]: [false] when it returns early,
    on an element that differs from [value] or is missing. *)
Fixpoint all_unused
  (_data : dict value) (value : Py.value) (elements : list string) : bool :=
  match elements with
  | [] => true
  | element :: rest =>
      match dict_get _data element with
      | Some v => if negb (py_eq v value) then false
                  else all_unused _data value rest
      | None => false
      end
  end.

(** [self._data.pop(element)] *)
Definition pop (element : string) : M (dict value) unit :=
  fun _data =>
    match dict_get _data element with
    | Some _ => (Ok tt, dict_pop _data element)
    | None => (Raise KeyError, _data)
    end.

(** [GinlongAPI._purge_if_unused] *)
Definition _purge_if_unused (value : Py.value) (elements : list string)
  : M (dict Py.value) unit :=
  _data <- gets (fun d => d) ;;
  if all_unused _data value elements then for_each elements pop else ret tt.

(** [if k in self._data: self._data[k] = float(self._data[k])/1000] *)
Definition fix_timestamp (k : string) : M (dict value) unit :=
  _data <- gets (fun d => d) ;;
  match dict_get _data k with
  | Some v =>
      f <- lift (value_to_float py v) ;;
      modify (fun _data => dict_set _data k (VFloat (f / 1000)%float))
  | None => ret tt
  end.

(** [GinlongAPI._post_process], on [self._data]. *)
Definition _post_process : M (dict value) unit :=
  _data <- gets (fun d => d) ;;
  match _data with
  | [] => ret tt
  | _ =>
      fix_timestamp INVERTER_TIMESTAMP_ONLINE ;;
      fix_timestamp INVERTER_TIMESTAMP_UPDATE ;;
      _purge_if_unused (VFloat 0%float) [PHASE1_CURRENT; PHASE1_VOLTAGE] ;;
      _purge_if_unused (VFloat 0%float) [PHASE2_CURRENT; PHASE2_VOLTAGE] ;;
      _purge_if_unused (VFloat 0%float) [PHASE3_CURRENT; PHASE3_VOLTAGE]
  end.

End Extraction.

(** ** [ginlong_api.py]: [GinlongAPI] *)

(** The inverter list is a dictionary whose keys are what the portal sent as
    ['sn']: any JSON value that can be hashed. *)
Definition hashable (j : json) : bool :=
  match j with
  | JList _ | JDict _ => false
  | _ => true
  end.

(** Equality of two dictionary keys.  A NaN key is found again by identity,
    which the model renders as NaN being equal to NaN here. *)
Definition key_eq (a b : json) : bool :=
  match a, b with
  | JNull, JNull => true
  | JStr x, JStr y => String.eqb x y
  | JBool x, _ => json_eq_int b (if x then 1 else 0)
  | JInt x, _ => json_eq_int b x
  | JFloat x, JBool y => float_eq_Z x (if y then 1 else 0)
  | JFloat x, JInt y => float_eq_Z x y
  | JFloat x, JFloat y =>
      PrimFloat.eqb x y || (PrimFloat.is_nan x && PrimFloat.is_nan y)
  | _, _ => false
  end.

Definition directory : Type := list (json * json).

Fixpoint dir_get (d : directory) (k : json) : option json :=
  match d with
  | [] => None
  | (k', v) :: rest => if key_eq k' k then Some v else dir_get rest k
  end.

Fixpoint dir_set (d : directory) (k v : json) : directory :=
  match d with
  | [] => [(k, v)]
  | (k', v') :: rest =>
      if key_eq k' k then (k', v) :: rest else (k', v') :: dir_set rest k v
  end.

(** The three calls the client makes, with the parameter that varies. *)
Inductive request : Type :=
| validateLogin
| inverterListAjax (plantId : Z)
| goDetailAjax (deviceId : json).

(** What one call meets: an answer with its status and decoded body; an
    [asyncio.TimeoutError] or [ClientError], which [_get_data] and
    [_post_data] catch; or an exception of another class (a body that is no
    JSON raises [ValueError]), which they let through. *)
Inductive http_outcome : Type :=
| Response (status : Z) (body : json)
| Failed
| Uncaught (e : exn).

(** The [result] dictionary of [_get_data] and [_post_data]: its [SUCCESS]
    entry, and its [CONTENT] entry when the call set one. *)
Record http_result : Type := { SUCCESS : bool; CONTENT : option json }.

Record GinlongAPI : Type := {
  (** [self._config.plantid] *)
  plantid : Z;
  (** [self._session is not None] *)
  _session : bool;
  _data : dict value;
  _online : bool;
  _inverter_list : option directory;
  (** the portal: its answer to the n-th call, by the call made *)
  portal : nat -> request -> http_outcome;
  (** ghost: the calls made so far, oldest first *)
  sent : list request;
  (** ghost: the [fetch_inverter_data] calls that returned, oldest first,
      each with whether it returned data *)
  fetched : list (json * bool)
}.

Definition set_session (b : bool) (a : GinlongAPI) : GinlongAPI :=
  {| plantid := plantid a; _session := b; _data := _data a;
     _online := _online a; _inverter_list := _inverter_list a;
     portal := portal a; sent := sent a; fetched := fetched a |}.

Definition set_data (d : dict value) (a : GinlongAPI) : GinlongAPI :=
  {| plantid := plantid a; _session := _session a; _data := d;
     _online := _online a; _inverter_list := _inverter_list a;
     portal := portal a; sent := sent a; fetched := fetched a |}.

Definition set_online (b : bool) (a : GinlongAPI) : GinlongAPI :=
  {| plantid := plantid a; _session := _session a; _data := _data a;
     _online := b; _inverter_list := _inverter_list a;
     portal := portal a; sent := sent a; fetched := fetched a |}.

Definition set_inverter_list (l : option directory) (a : GinlongAPI)
  : GinlongAPI :=
  {| plantid := plantid a; _session := _session a; _data := _data a;
     _online := _online a; _inverter_list := l;
     portal := portal a; sent := sent a; fetched := fetched a |}.

Definition record_sent (rq : request) (a : GinlongAPI) : GinlongAPI :=
  {| plantid := plantid a; _session := _session a; _data := _data a;
     _online := _online a; _inverter_list := _inverter_list a;
     portal := portal a; sent := sent a ++ [rq]; fetched := fetched a |}.

Definition record_fetched (serial : json) (got : bool) (a : GinlongAPI)
  : GinlongAPI :=
  {| plantid := plantid a; _session := _session a; _data := _data a;
     _online := _online a; _inverter_list := _inverter_list a;
     portal := portal a; sent := sent a;
     fetched := fetched a ++ [(serial, got)] |}.

(** [GinlongAPI.is_online] and [GinlongAPI.inverters] *)
Definition is_online (a : GinlongAPI) : bool := _online a.
Definition inverters (a : GinlongAPI) : option directory := _inverter_list a.

(** [await self._session.get(..)] or [.post(..)] with [await resp.json()]. *)
Definition call (rq : request) : M GinlongAPI http_outcome :=
  fun a => (Ok (portal a (List.length (sent a)) rq), record_sent rq a).

(** The common body of [_get_data] and [_post_data]. *)
Definition exchange (rq : request) : M GinlongAPI http_result :=
  session <- gets _session ;;
  if negb session then ret {| SUCCESS := false; CONTENT := None |}
  else
    resp <- call rq ;;
    match resp with
    | Response status body =>
        ret {| SUCCESS := status =? 200; CONTENT := Some body |}
    | Failed => ret {| SUCCESS := false; CONTENT := None |}
    | Uncaught e => raise e
    end.

(** [GinlongAPI._get_data]: http-get data from the url. *)
Definition _get_data (rq : request) : M GinlongAPI http_result := exchange rq.

(** [GinlongAPI._post_data]: http-post data to the url. *)
Definition _post_data (rq : request) : M GinlongAPI http_result := exchange rq.

(** [result[CONTENT]] *)
Definition content (result : http_result) : M GinlongAPI json :=
  match CONTENT result with
  | Some j => ret j
  | None => raise KeyError
  end.

(** The body of the loop of [fetch_inverter_list]. *)
Definition add_device (device_ids : directory) (record : json)
  : result directory :=
  let? serial := get record "sn" in
  let? device_id := get record "deviceId" in
  if hashable serial then Ok (dir_set device_ids serial device_id)
  else Raise TypeError.

Fixpoint add_devices (device_ids : directory) (records : list json)
  : result directory :=
  match records with
  | [] => Ok device_ids
  | record :: rest =>
      let? device_ids := add_device device_ids record in
      add_devices device_ids rest
  end.

(** [GinlongAPI.fetch_inverter_list]: { inverter serial : device_id } *)
Definition fetch_inverter_list (plant_id : Z)
  : M GinlongAPI (option directory) :=
  result <- _get_data (inverterListAjax plant_id) ;;
  if SUCCESS result then
    result_json <- content result ;;
    r <- lift (subscript result_json "result") ;;
    r <- lift (subscript r "paginationAjax") ;;
    r <- lift (subscript r "data") ;;
    records <- lift (iterate r) ;;
    device_ids <- lift (add_devices [] records) ;;
    ret (Some device_ids)
  else
    modify (set_online false) ;;
    ret None.

(** [GinlongAPI.login] *)
Definition login : M GinlongAPI bool :=
  modify (set_session true) ;;
  modify (set_inverter_list None) ;;
  result <- _post_data validateLogin ;;
  (if SUCCESS result then
     result_json <- content result ;;
     try_except
       (r <- lift (subscript result_json "result") ;;
        accept <- lift (get r "isAccept") ;;
        if json_eq_int accept 1 then
          modify (set_online true) ;;
          plant_id <- gets plantid ;;
          l <- fetch_inverter_list plant_id ;;
          modify (set_inverter_list l)
        else ret tt)
       (exn_eqb KeyError)
       (modify (set_online false))
   else modify (set_online false)) ;;
  gets _online.

(** [GinlongAPI.logout] *)
Definition logout : M GinlongAPI unit :=
  modify (set_session false) ;;
  modify (set_online false) ;;
  modify (set_inverter_list None).

(** [GinlongAPI._get_inverter_details]: the payload, [JNull] for [None]. *)
Definition _get_inverter_details (device_id : json) : M GinlongAPI json :=
  result <- _get_data (goDetailAjax device_id) ;;
  if SUCCESS result then content result else ret JNull.

Section Fetch.
Context (py : Builtins).

(** The statements of [fetch_inverter_data]. *)
Definition fetch_inverter_data_body (inverter_serial : json)
  : M GinlongAPI (option GinlongData) :=
  modify (set_data []) ;;
  online <- gets is_online ;;
  if online then
    l <- gets _inverter_list ;;
    match l with
    | Some inverter_list =>
        if negb (hashable inverter_serial) then raise TypeError
        else
          match dir_get inverter_list inverter_serial with
          | Some device_id =>
              payload <- _get_inverter_details device_id ;;
              match payload with
              | JNull => ret None
              | _ =>
                  zoom _data set_data (_collect_inverter_data py payload) ;;
                  zoom _data set_data (_post_process py) ;;
                  d <- gets _data ;;
                  ret (Some {| get_inverter_data := d |})
              end
          | None => ret None
          end
    | None => ret None
    end
  else ret None.

(** [GinlongAPI.fetch_inverter_data]: the data of one inverter, or [None];
    a call that returns is noted in the ghost field [fetched]. *)
Definition fetch_inverter_data (inverter_serial : json)
  : M GinlongAPI (option GinlongData) :=
  r <- fetch_inverter_data_body inverter_serial ;;
  modify (record_fetched inverter_serial
            (match r with Some _ => true | None => false end)) ;;
  ret r.

End Fetch.

(** ** [service.py] *)

(** [SCHEDULE_OK], [SCHEDULE_NOK]: the minutes until the next update. *)
Definition SCHEDULE_OK : Z := 2.
Definition SCHEDULE_NOK : Z := 1.

(** A [datetime] is the number of microseconds since a local midnight, a
    [timedelta] a number of microseconds. *)
Definition datetime : Type := Z.
Definition minutes (n : Z) : Z := n * 60000000.
Definition hours (n : Z) : Z := n * 3600000000.
Definition hour (t : datetime) : Z := (t / 3600000000) mod 24.

(** [HRS_BETWEEN_LOGIN]: do not log in every time. *)
Definition HRS_BETWEEN_LOGIN : Z := hours 2.

Definition datetime_eqb (a b : option datetime) : bool :=
  match a, b with
  | Some x, Some y => x =? y
  | None, None => true
  | _, _ => false
  end.

(** A [ServiceSubscriber].  [do_update] is abstract in the source: here it
    is any decision that the subscriber takes from the calls of [do_update]
    it has seen, and it does not raise. *)
Record ServiceSubscriber : Type := {
  _measured : option datetime;
  do_update : list (value * option datetime) -> value -> option datetime -> bool;
  (** ghost: the calls of [do_update], oldest first *)
  updates : list (value * option datetime);
  (** ghost: the calls of [data_updated], oldest first *)
  delivered : list (value * option datetime)
}.

(** [ServiceSubscriber.data_updated] *)
Definition data_updated
  (value : Py.value) (last_updated : option datetime)
  (self : ServiceSubscriber) : ServiceSubscriber :=
  let called := delivered self ++ [(value, last_updated)] in
  if negb (datetime_eqb (_measured self) last_updated) then
    let accepted := do_update self (updates self) value last_updated in
    {| _measured := if accepted then last_updated else _measured self;
       do_update := do_update self;
       updates := updates self ++ [(value, last_updated)];
       delivered := called |}
  else
    {| _measured := _measured self; do_update := do_update self;
       updates := updates self; delivered := called |}.

(** [ServiceSubscriber.measured] *)
Definition measured (self : ServiceSubscriber) : option datetime :=
  _measured self.

(** An [InverterService].  Subscribers are objects that the subscription
    table refers to: [objects] gives the object behind each reference. *)
Record InverterService : Type := {
  _last_updated : option datetime;
  _logintime : option datetime;
  _subscriptions : dict (dict nat);
  _api : GinlongAPI;
  objects : nat -> ServiceSubscriber;
  (** [datetime.now()]: the n-th reading of the clock *)
  clock : nat -> datetime;
  (** the readings taken so far *)
  clock_reads : nat;
  (** ghost: the [minute] of each [schedule_update] call, oldest first *)
  scheduled : list Z
}.

Definition set_last_updated (t : option datetime) (s : InverterService)
  : InverterService :=
  {| _last_updated := t; _logintime := _logintime s;
     _subscriptions := _subscriptions s; _api := _api s;
     objects := objects s; clock := clock s; clock_reads := clock_reads s;
     scheduled := scheduled s |}.

Definition set_logintime (t : option datetime) (s : InverterService)
  : InverterService :=
  {| _last_updated := _last_updated s; _logintime := t;
     _subscriptions := _subscriptions s; _api := _api s;
     objects := objects s; clock := clock s; clock_reads := clock_reads s;
     scheduled := scheduled s |}.

Definition set_subscriptions (t : dict (dict nat)) (s : InverterService)
  : InverterService :=
  {| _last_updated := _last_updated s; _logintime := _logintime s;
     _subscriptions := t; _api := _api s;
     objects := objects s; clock := clock s; clock_reads := clock_reads s;
     scheduled := scheduled s |}.

Definition set_api (a : GinlongAPI) (s : InverterService) : InverterService :=
  {| _last_updated := _last_updated s; _logintime := _logintime s;
     _subscriptions := _subscriptions s; _api := a;
     objects := objects s; clock := clock s; clock_reads := clock_reads s;
     scheduled := scheduled s |}.

Definition set_object (ref : nat) (o : ServiceSubscriber) (s : InverterService)
  : InverterService :=
  {| _last_updated := _last_updated s; _logintime := _logintime s;
     _subscriptions := _subscriptions s; _api := _api s;
     objects := fun r => if Nat.eqb r ref then o else objects s r;
     clock := clock s; clock_reads := clock_reads s;
     scheduled := scheduled s |}.

Definition tick (s : InverterService) : InverterService :=
  {| _last_updated := _last_updated s; _logintime := _logintime s;
     _subscriptions := _subscriptions s; _api := _api s;
     objects := objects s; clock := clock s; clock_reads := S (clock_reads s);
     scheduled := scheduled s |}.

Definition record_scheduled (minute : Z) (s : InverterService)
  : InverterService :=
  {| _last_updated := _last_updated s; _logintime := _logintime s;
     _subscriptions := _subscriptions s; _api := _api s;
     objects := objects s; clock := clock s; clock_reads := clock_reads s;
     scheduled := scheduled s ++ [minute] |}.

(** [datetime.now()] *)
Definition now : M InverterService datetime :=
  fun s => (Ok (clock s (clock_reads s)), tick s).

(** [subscriber.data_updated(value, last_updated)] on the object behind
    the reference. *)
Definition notify (ref : nat) (value : Py.value) (last_updated : option datetime)
  : M InverterService unit :=
  modify (fun s => set_object ref (data_updated value last_updated (objects s ref)) s).

(** [self._subscriptions[serial]] for the serial of a measurement set: a
    value that is no string is the key of no entry. *)
Definition subscriptions_of (table : dict (dict nat)) (serial : value)
  : option (dict nat) :=
  match serial with
  | VStr s => dict_get table s
  | _ => None
  end.

(** [self._subscriptions[serial][attribute]] *)
Definition subscriber_of (serial : value) (attribute : string)
  : M InverterService nat :=
  table <- gets _subscriptions ;;
  match subscriptions_of table serial with
  | Some mine =>
      match dict_get mine attribute with
      | Some ref => ret ref
      | None => raise KeyError
      end
  | None => raise KeyError
  end.

(** [InverterService.subscribe] *)
Definition subscribe (subscriber : nat) (serial attribute : string)
  : M InverterService unit :=
  table <- gets _subscriptions ;;
  (if negb (dict_contains table serial)
   then modify (fun s => set_subscriptions (dict_set (_subscriptions s) serial []) s)
   else ret tt) ;;
  table <- gets _subscriptions ;;
  match dict_get table serial with
  | Some mine =>
      modify (set_subscriptions (dict_set table serial (dict_set mine attribute subscriber)))
  | None => raise KeyError
  end.

(** [InverterService._logout] *)
Definition _logout : M InverterService unit :=
  zoom _api set_api logout ;;
  modify (set_logintime None).

(** [InverterService._login] *)
Definition _login : M InverterService bool :=
  online <- gets (fun s => is_online (_api s)) ;;
  (if negb online then
     ok <- zoom _api set_api login ;;
     if ok then
       t <- now ;;
       modify (set_logintime (Some t))
     else ret tt
   else ret tt) ;;
  gets (fun s => is_online (_api s)).

(** [InverterService.schedule_update]: the request for the next tick. *)
Definition schedule_update (minute : Z) : M InverterService unit :=
  modify (record_scheduled minute).

(** The block of [update_devices] under
    [if attribute == INVERTER_ENERGY_TODAY]: the value to deliver. *)
Definition energy_today_value
  (data : GinlongData) (serial value : Py.value) : M InverterService Py.value :=
  t <- now ;;
  let is_am := hour t <? 12 in
  state <- lift (__getattr__ data INVERTER_STATE) ;;
  if py_eq state (VInt 2) && is_am then ret (VInt 0)
  else
    state <- lift (__getattr__ data INVERTER_STATE) ;;
    if py_eq state (VInt 1) && is_am then
      ref <- subscriber_of serial INVERTER_STATE ;;
      last_updated_state <- gets (fun s => measured (objects s ref)) ;;
      match last_updated_state with
      | Some m =>
          t' <- now ;;
          if m + minutes 10 <? t' then ret (VInt 0) else ret value
      | None => ret value
      end
    else ret value.

(** The body of the loop of [update_devices]. *)
Definition update_attribute
  (data : GinlongData) (serial : value) (attribute : string)
  : M InverterService unit :=
  table <- gets _subscriptions ;;
  match subscriptions_of table serial with
  | None => raise KeyError
  | Some mine =>
      if dict_contains mine attribute then
        value <- lift (__getattr__ data attribute) ;;
        value <- (if String.eqb attribute INVERTER_ENERGY_TODAY
                  then energy_today_value data serial value
                  else ret value) ;;
        ref <- subscriber_of serial attribute ;;
        last_updated <- gets _last_updated ;;
        notify ref value last_updated
      else ret tt
  end.

(** [InverterService.update_devices]: update all registered sensors. *)
Definition update_devices (data : GinlongData) : M InverterService unit :=
  serial <- lift (__getattr__ data INVERTER_SERIAL) ;;
  table <- gets _subscriptions ;;
  match subscriptions_of table serial with
  | None => ret tt
  | Some _ =>
      attributes <- lift (keys data) ;;
      for_each attributes (update_attribute data serial)
  end.

(** How a block of statements ends: with a [return], or at its last line. *)
Inductive flow (A : Type) : Type :=
| Returns (a : A)
| Continues (a : A).
Arguments Returns {A} a.
Arguments Continues {A} a.

Section Cycle.
Context (py : Builtins).

(** The body of the loop of [async_update]; it yields the new [update]. *)
Definition update_inverter (update : Z) (inverter_serial : json)
  : M InverterService Z :=
  data <- zoom _api set_api (fetch_inverter_data py inverter_serial) ;;
  match data with
  | Some data =>
      t <- now ;;
      modify (set_last_updated (Some t)) ;;
      update_devices data ;;
      ret SCHEDULE_OK
  | None =>
      _logout ;;
      ret SCHEDULE_NOK
  end.

(** [async_update] down to the line before [schedule_update]. *)
Definition fetch_all : M InverterService (flow Z) :=
  let update := SCHEDULE_NOK in
  logged_in <- _login ;;
  if logged_in then
    inverters <- gets (fun s => inverters (_api s)) ;;
    match inverters with
    | None => ret (Returns update)
    | Some inverters =>
        update <- for_fold (map fst inverters) update update_inverter ;;
        ret (Continues update)
    end
  else ret (Continues update).

(** [InverterService.async_update]: update the data from the portal. *)
Definition async_update : M InverterService Z :=
  reached <- fetch_all ;;
  match reached with
  | Returns update => ret update
  | Continues update =>
      schedule_update update ;;
      logintime <- gets _logintime ;;
      match logintime with
      | Some t =>
          t' <- now ;;
          if t + HRS_BETWEEN_LOGIN <? t' then _logout else ret tt
      | None => ret tt
      end ;;
      ret update
  end.

End Cycle.

(** [InverterService.status] and [InverterService.last_updated] *)
Definition status (s : InverterService) : string :=
  if is_online (_api s) then "Online" else "Offline".
Definition last_updated (s : InverterService) : option datetime :=
  _last_updated s.

(** ** Initial states, and a portal to run the client against *)

(** A subscriber as [ServiceSubscriber.__init__] leaves it, but for the
    time of the last accepted update; its [do_update] gives one answer. *)
Definition sensor (accepts : bool) (last : option datetime)
  : ServiceSubscriber :=
  {| _measured := last; do_update := fun _ _ _ => accepts;
     updates := []; delivered := [] |}.

(** [GinlongAPI.__init__], for plant 1 at a portal. *)
Definition GinlongAPI__init__ (answers : nat -> request -> http_outcome)
  : GinlongAPI :=
  {| plantid := 1; _session := false; _data := []; _online := false;
     _inverter_list := None; portal := answers; sent := []; fetched := [] |}.

Definition unreachable : nat -> request -> http_outcome := fun _ _ => Failed.

(** [InverterService.__init__], around a client and a clock. *)
Definition InverterService__init__
  (a : GinlongAPI) (time : nat -> datetime) : InverterService :=
  {| _last_updated := None; _logintime := None; _subscriptions := [];
     _api := a; objects := fun _ => sensor true None;
     clock := time; clock_reads := 0; scheduled := [] |}.

(** The answer to a login that the portal accepts. *)
Definition accepted : json := JDict [("result", JDict [("isAccept", JInt 1)])].

(** The answer that lists the inverters of the plant. *)
Definition device (serial : string) (device_id : Z) : json :=
  JDict [("sn", JStr serial); ("deviceId", JInt device_id)].

Definition listing (devices : list json) : json :=
  JDict [("result", JDict [("paginationAjax", JDict [("data", JList devices)])])].

(** The details of one inverter: the fields of its [deviceWapper], and the
    five subsets with no record in them. *)
Definition details (fields : dict json) : json :=
  JDict [("result", JDict [("deviceWapper", JDict
    (fields ++
     [ ("realTimeDataImp", JList []); ("realTimeDataOther", JList []);
       ("realTimeDataState", JList []); ("realTimeDataPower", JList []);
       ("dataJSON", JDict []) ]))])].

(** A portal that accepts the login, lists [devices] and answers the
    request for the details of a device by [payload]. *)
Definition plant_portal (devices : list json) (payload : json -> http_outcome)
  : nat -> request -> http_outcome :=
  fun _ rq =>
    match rq with
    | validateLogin => Response 200 accepted
    | inverterListAjax _ => Response 200 (listing devices)
    | goDetailAjax device_id => payload device_id
    end.

Definition midnight : nat -> datetime := fun _ => 0.

(** * Properties *)

Arguments set_session _ _ /.
Arguments set_data _ _ /.
Arguments set_online _ _ /.
Arguments set_inverter_list _ _ /.
Arguments record_sent _ _ /.
Arguments record_fetched _ _ _ /.
Arguments set_last_updated _ _ /.
Arguments set_logintime _ _ /.
Arguments set_subscriptions _ _ /.
Arguments set_api _ _ /.
Arguments set_object _ _ _ /.
Arguments tick _ /.
Arguments record_scheduled _ _ /.

(** ** Dictionaries *)

Section DictFacts.
Context {V : Type}.
Implicit Types (d : dict V) (k : string) (v : V).

Lemma dict_get_none_iff d k : dict_get d k = None <-> ~ In k (dict_keys d).
Proof.
  induction d as [|[k' v'] d IH]; simpl.
  - tauto.
  - destruct (String.eqb_spec k' k) as [->|Hne].
    + split; [discriminate | intros H; exfalso; apply H; now left].
    + rewrite IH. split; [intros H [E|E]; auto | intros H E; apply H; now right].
Qed.

Lemma dict_get_some_in d k v : dict_get d k = Some v -> In k (dict_keys d).
Proof.
  intros H. destruct (in_dec string_dec k (dict_keys d)) as [i|n]; [exact i|].
  apply dict_get_none_iff in n. congruence.
Qed.

Lemma dict_get_set_same d k v : dict_get (dict_set d k v) k = Some v.
Proof.
  induction d as [|[k' v'] d IH]; simpl.
  - now rewrite String.eqb_refl.
  - destruct (String.eqb_spec k' k) as [->|Hne]; simpl.
    + now rewrite String.eqb_refl.
    + destruct (String.eqb_spec k' k); [contradiction | exact IH].
Qed.

Lemma dict_get_set_other d k k' v :
  k' <> k -> dict_get (dict_set d k v) k' = dict_get d k'.
Proof.
  intros Hne. induction d as [|[k0 v0] d IH]; simpl.
  - destruct (String.eqb_spec k k'); [congruence | reflexivity].
  - destruct (String.eqb_spec k0 k) as [->|Hne0]; simpl.
    + destruct (String.eqb_spec k k'); [congruence | reflexivity].
    + destruct (String.eqb_spec k0 k'); [reflexivity | exact IH].
Qed.

Lemma dict_keys_set_present d k v :
  In k (dict_keys d) -> dict_keys (dict_set d k v) = dict_keys d.
Proof.
  induction d as [|[k0 v0] d IH]; simpl; [tauto|].
  intros H. destruct (String.eqb_spec k0 k) as [->|Hne]; simpl; [reflexivity|].
  f_equal. apply IH. destruct H; [contradiction | assumption].
Qed.

Lemma dict_keys_set_absent d k v :
  ~ In k (dict_keys d) -> dict_keys (dict_set d k v) = dict_keys d ++ [k].
Proof.
  induction d as [|[k0 v0] d IH]; simpl; [reflexivity|].
  intros H. destruct (String.eqb_spec k0 k) as [->|Hne]; simpl.
  - exfalso. apply H. now left.
  - f_equal. apply IH. intros E. apply H. now right.
Qed.

Lemma well_formed_set d k v : well_formed d -> well_formed (dict_set d k v).
Proof.
  unfold well_formed. intros H.
  destruct (in_dec string_dec k (dict_keys d)) as [i|n].
  - now rewrite dict_keys_set_present.
  - rewrite dict_keys_set_absent by assumption.
    apply NoDup_app; [exact H | repeat constructor; simpl; tauto |].
    intros x Hx [<-|[]]. contradiction.
Qed.

Lemma dict_get_pop_other d k k' :
  k' <> k -> dict_get (dict_pop d k) k' = dict_get d k'.
Proof.
  intros Hne. induction d as [|[k0 v0] d IH]; simpl; [reflexivity|].
  destruct (String.eqb_spec k0 k) as [->|Hne0]; simpl.
  - destruct (String.eqb_spec k k'); [congruence | reflexivity].
  - destruct (String.eqb_spec k0 k'); [reflexivity | exact IH].
Qed.

Lemma dict_keys_pop_incl d k x : In x (dict_keys (dict_pop d k)) -> In x (dict_keys d).
Proof.
  induction d as [|[k0 v0] d IH]; simpl; [tauto|].
  destruct (String.eqb_spec k0 k) as [->|Hne]; simpl; [tauto|].
  intros [E|E]; [now left | right; now apply IH].
Qed.

Lemma well_formed_pop d k : well_formed d -> well_formed (dict_pop d k).
Proof.
  unfold well_formed. induction d as [|[k0 v0] d IH]; simpl; [trivial|].
  intros H. inversion H as [|? ? Hn Hd]; subst.
  destruct (String.eqb_spec k0 k) as [->|Hne]; simpl; [exact Hd|].
  constructor; [|now apply IH].
  intros E. apply Hn. eapply dict_keys_pop_incl; eassumption.
Qed.

Lemma dict_get_pop_same d k : well_formed d -> dict_get (dict_pop d k) k = None.
Proof.
  unfold well_formed. induction d as [|[k0 v0] d IH]; simpl; [trivial|].
  intros H. inversion H as [|? ? Hn Hd]; subst.
  destruct (String.eqb_spec k0 k) as [->|Hne]; simpl.
  - now apply dict_get_none_iff.
  - destruct (String.eqb_spec k0 k); [contradiction | now apply IH].
Qed.

End DictFacts.

(** ** The monad *)

Lemma bind_ok {S A B : Type} (m : M S A) (k : A -> M S B) s a s' :
  m s = (Ok a, s') -> bind m k s = k a s'.
Proof. unfold bind. now intros ->. Qed.

Lemma bind_raise {S A B : Type} (m : M S A) (k : A -> M S B) s e s' :
  m s = (Raise e, s') -> bind m k s = (Raise e, s').
Proof. unfold bind. now intros ->. Qed.

(** A loop raises when the body raises on one of its elements whatever the
    state it is run in. *)
Lemma for_each_raises {S A : Type} (l : list A) (body : A -> M S unit) x :
  In x l ->
  (forall s, exists e s', body x s = (Raise e, s')) ->
  forall s, exists e s', for_each l body s = (Raise e, s').
Proof.
  intros Hin Hx. induction l as [|y l IH]; [destruct Hin|].
  intros s. simpl. unfold bind at 1.
  destruct (body y s) as [[[]|e] s1] eqn:E.
  - destruct Hin as [->|Hin].
    + destruct (Hx s) as (e & s' & E'). congruence.
    + apply IH. exact Hin.
  - eauto.
Qed.

(** ** [GinlongData.keys] *)

Lemma list_remove_spec (x : string) (l : list string) :
  In x l -> NoDup l ->
  list_remove x l = Ok (filter (fun y => negb (String.eqb y x)) l).
Proof.
  induction l as [|y l IH]; simpl; [tauto|].
  intros Hin Hnd. inversion Hnd as [|? ? Hn Hd]; subst.
  destruct (String.eqb_spec y x) as [->|Hne]; simpl.
  - f_equal. symmetry. rewrite (proj2 (filter_ext_in_iff _ (fun _ => true) l)).
    + clear. induction l; simpl; congruence.
    + intros a Ha. destruct (String.eqb_spec a x); [congruence | reflexivity].
  - destruct Hin as [E|Hin]; [congruence|]. now rewrite IH.
Qed.

Lemma list_remove_absent (x : string) (l : list string) :
  ~ In x l -> list_remove x l = Raise ValueError.
Proof.
  induction l as [|y l IH]; simpl; [reflexivity|].
  intros H. destruct (String.eqb_spec y x) as [->|Hne]; [tauto|].
  rewrite IH; [reflexivity | tauto].
Qed.

(** C5.  For every measurement set that contains the "state" attribute,
    [keys()] returns a list whose first element is "state" and in which
    every other attribute of the set occurs exactly once, after it: the rest
    of the list has no duplicate, does not repeat "state", and holds exactly
    the other keys of the set (in the order of the set). *)
Theorem keys_state_first (data : GinlongData) :
  well_formed (get_inverter_data data) ->
  In INVERTER_STATE (dict_keys (get_inverter_data data)) ->
  exists rest,
    keys data = Ok (INVERTER_STATE :: rest) /\
    rest = filter (fun k => negb (String.eqb k INVERTER_STATE))
             (dict_keys (get_inverter_data data)) /\
    NoDup rest /\
    ~ In INVERTER_STATE rest /\
    (forall k, k <> INVERTER_STATE ->
       (In k rest <-> In k (dict_keys (get_inverter_data data)))).
Proof.
  intros Hwf Hin. unfold keys.
  rewrite (list_remove_spec _ _ Hin Hwf). simpl.
  eexists. split; [reflexivity|]. split; [reflexivity|].
  split; [now apply NoDup_filter|].
  split.
  - rewrite filter_In. intros [_ H]. now rewrite String.eqb_refl in H.
  - intros k Hk. rewrite filter_In. split; [tauto|].
    intros H. split; [exact H|].
    destruct (String.eqb_spec k INVERTER_STATE); [contradiction | reflexivity].
Qed.

Definition sample_set : GinlongData :=
  {| get_inverter_data :=
       [ (INVERTER_SERIAL, VStr "S1");
         (INVERTER_STATE, VInt 1);
         (INVERTER_ENERGY_TODAY, VFloat 12.5) ] |}.

Lemma sample_set_well_formed : well_formed (get_inverter_data sample_set).
Proof.
  unfold well_formed. simpl.
  repeat constructor; simpl; intuition discriminate.
Qed.

Lemma keys_state_first_witness :
  exists rest,
    keys sample_set = Ok (INVERTER_STATE :: rest) /\
    rest = filter (fun k => negb (String.eqb k INVERTER_STATE))
             (dict_keys (get_inverter_data sample_set)) /\
    NoDup rest /\
    ~ In INVERTER_STATE rest /\
    (forall k, k <> INVERTER_STATE ->
       (In k rest <-> In k (dict_keys (get_inverter_data sample_set)))).
Proof.
  apply (keys_state_first sample_set).
  - exact sample_set_well_formed.
  - simpl. right. left. reflexivity.
Defined.

(** Without "state", [keys()] raises. *)
Lemma keys_without_state (data : GinlongData) :
  ~ In INVERTER_STATE (dict_keys (get_inverter_data data)) ->
  keys data = Raise ValueError.
Proof. intros H. unfold keys. now rewrite list_remove_absent. Qed.

(** ** Post-processing *)

Section PostProcess.
Context (py : Builtins).

Lemma fix_timestamp_absent k d :
  dict_get d k = None -> fix_timestamp py k d = (Ok tt, d).
Proof. intros H. unfold fix_timestamp, bind, gets. now rewrite H. Qed.

Lemma fix_timestamp_present k d x f :
  dict_get d k = Some x -> value_to_float py x = Ok f ->
  fix_timestamp py k d = (Ok tt, dict_set d k (VFloat (f / 1000)%float)).
Proof.
  intros H Hf. unfold fix_timestamp, bind, gets, lift, modify.
  now rewrite H, Hf.
Qed.

Lemma fix_timestamp_raises k d x e :
  dict_get d k = Some x -> value_to_float py x = Raise e ->
  fix_timestamp py k d = (Raise e, d).
Proof.
  intros H Hf. unfold fix_timestamp, bind, gets, lift, modify.
  now rewrite H, Hf.
Qed.

(** What [fix_timestamp k] leaves, when it returns. *)
Lemma fix_timestamp_returns k d d' :
  fix_timestamp py k d = (Ok tt, d') ->
  (forall k', k' <> k -> dict_get d' k' = dict_get d k') /\
  (well_formed d -> well_formed d') /\
  match dict_get d k with
  | Some x => exists f, value_to_float py x = Ok f /\
                        dict_get d' k = Some (VFloat (f / 1000)%float)
  | None => dict_get d' k = None
  end.
Proof.
  intros H. destruct (dict_get d k) as [x|] eqn:E.
  - destruct (value_to_float py x) as [f|e] eqn:Ef.
    + rewrite (fix_timestamp_present _ _ _ _ E Ef) in H.
      injection H as <-. split; [|split].
      * intros k' Hne. now apply dict_get_set_other.
      * apply well_formed_set.
      * exists f. split; [reflexivity | apply dict_get_set_same].
    + rewrite (fix_timestamp_raises _ _ _ _ E Ef) in H. discriminate.
  - rewrite (fix_timestamp_absent _ _ E) in H. injection H as <-.
    split; [|split]; auto.
Qed.

(** The effect of pruning one phase: both attributes go when both are there
    and equal the value, nothing changes otherwise. *)
Lemma _purge_if_unused_pair value c v d :
  c <> v ->
  _purge_if_unused value [c; v] d =
    (Ok tt, if all_unused d value [c; v] then dict_pop (dict_pop d c) v else d).
Proof.
  intros Hne. unfold _purge_if_unused, bind at 1, gets.
  destruct (all_unused d value [c; v]) eqn:E; [|reflexivity].
  simpl in E.
  destruct (dict_get d c) as [x|] eqn:Ec; [|discriminate].
  destruct (negb (py_eq x value)); [discriminate|].
  destruct (dict_get d v) as [y|] eqn:Ev; [|discriminate].
  simpl. unfold bind, pop, ret. rewrite Ec.
  rewrite dict_get_pop_other by congruence. now rewrite Ev.
Qed.

End PostProcess.

(** An attribute that is present with a value equal to [0.0]. *)
Definition is_zero (x : option value) : Prop :=
  exists v, x = Some v /\ py_eq v (VFloat 0%float) = true.

Lemma all_unused_pair_iff d c v :
  all_unused d (VFloat 0%float) [c; v] = true <->
  is_zero (dict_get d c) /\ is_zero (dict_get d v).
Proof.
  unfold is_zero. simpl.
  destruct (dict_get d c) as [x|]; destruct (dict_get d v) as [y|];
    try destruct (py_eq x (VFloat 0%float)) eqn:Ex;
    try destruct (py_eq y (VFloat 0%float)) eqn:Ey; simpl;
    split; try discriminate; try (intros _; split; eauto; fail);
    intros [(a & Ha & Ha') (b & Hb & Hb')]; congruence.
Qed.

(** The current and voltage attribute of each AC phase. *)
Definition phase_groups : list (string * string) :=
  [ (PHASE1_CURRENT, PHASE1_VOLTAGE);
    (PHASE2_CURRENT, PHASE2_VOLTAGE);
    (PHASE3_CURRENT, PHASE3_VOLTAGE) ].

Definition timestamps : list string :=
  [ INVERTER_TIMESTAMP_ONLINE; INVERTER_TIMESTAMP_UPDATE ].

(** [float(..)] accepts each timestamp that the set holds. *)
Definition timestamps_convert (py : Builtins) (d : dict value) : Prop :=
  forall k x, In k timestamps -> dict_get d k = Some x ->
  exists f, value_to_float py x = Ok f.

(** What the pruning of one phase leaves. *)
Definition prune (d : dict value) (c v : string) : dict value :=
  if all_unused d (VFloat 0%float) [c; v] then dict_pop (dict_pop d c) v else d.

Lemma prune_other d c v k :
  k <> c -> k <> v -> dict_get (prune d c v) k = dict_get d k.
Proof.
  intros H1 H2. unfold prune. destruct (all_unused _ _ _); [|reflexivity].
  now rewrite !dict_get_pop_other.
Qed.

(** Strips the pruning steps that do not concern the attribute looked up. *)
Ltac skip_prune :=
  repeat match goal with
         | |- context [dict_get (prune ?x ?c ?v) ?k] =>
             rewrite (prune_other x c v k) by discriminate
         end.

Lemma prune_well_formed d c v : well_formed d -> well_formed (prune d c v).
Proof.
  intros H. unfold prune. destruct (all_unused _ _ _); [|exact H].
  now apply well_formed_pop, well_formed_pop.
Qed.

Lemma prune_unused d c v :
  well_formed d -> c <> v ->
  is_zero (dict_get d c) /\ is_zero (dict_get d v) ->
  dict_get (prune d c v) c = None /\ dict_get (prune d c v) v = None.
Proof.
  intros Hwf Hne Hz. unfold prune.
  rewrite (proj2 (all_unused_pair_iff d c v) Hz). split.
  - rewrite dict_get_pop_other by exact Hne. now apply dict_get_pop_same.
  - apply dict_get_pop_same. now apply well_formed_pop.
Qed.

Lemma prune_used d c v :
  ~ (is_zero (dict_get d c) /\ is_zero (dict_get d v)) -> prune d c v = d.
Proof.
  intros Hz. unfold prune.
  destruct (all_unused d (VFloat 0%float) [c; v]) eqn:E; [|reflexivity].
  apply all_unused_pair_iff in E. contradiction.
Qed.

Section PostProcessFacts.
Context (py : Builtins).

(** The guard [if self._data:] changes nothing: on an empty dictionary the
    guarded statements would do nothing either. *)
Lemma _post_process_unguarded d :
  _post_process py d =
    (fix_timestamp py INVERTER_TIMESTAMP_ONLINE ;;
     fix_timestamp py INVERTER_TIMESTAMP_UPDATE ;;
     _purge_if_unused (VFloat 0%float) [PHASE1_CURRENT; PHASE1_VOLTAGE] ;;
     _purge_if_unused (VFloat 0%float) [PHASE2_CURRENT; PHASE2_VOLTAGE] ;;
     _purge_if_unused (VFloat 0%float) [PHASE3_CURRENT; PHASE3_VOLTAGE]) d.
Proof. destruct d; reflexivity. Qed.

(** Post-processing, when both timestamp steps return. *)
Lemma _post_process_steps d d1 d2 :
  fix_timestamp py INVERTER_TIMESTAMP_ONLINE d = (Ok tt, d1) ->
  fix_timestamp py INVERTER_TIMESTAMP_UPDATE d1 = (Ok tt, d2) ->
  _post_process py d =
    (Ok tt,
     prune (prune (prune d2 PHASE1_CURRENT PHASE1_VOLTAGE)
                  PHASE2_CURRENT PHASE2_VOLTAGE)
           PHASE3_CURRENT PHASE3_VOLTAGE).
Proof.
  intros H1 H2. rewrite _post_process_unguarded.
  rewrite (bind_ok _ _ _ _ _ H1), (bind_ok _ _ _ _ _ H2).
  erewrite bind_ok by (apply _purge_if_unused_pair; discriminate).
  erewrite bind_ok by (apply _purge_if_unused_pair; discriminate).
  rewrite _purge_if_unused_pair by discriminate. reflexivity.
Qed.

(** A timestamp that [float(..)] rejects makes post-processing raise. *)
Lemma _post_process_raises d k x e :
  In k timestamps -> dict_get d k = Some x -> value_to_float py x = Raise e ->
  exists e' d', _post_process py d = (Raise e', d').
Proof.
  intros Hk Hx He. rewrite _post_process_unguarded.
  destruct (fix_timestamp py INVERTER_TIMESTAMP_ONLINE d) as [[[]|e1] d1] eqn:E1.
  - rewrite (bind_ok _ _ _ _ _ E1).
    destruct Hk as [<-|[<-|[]]].
    + rewrite (fix_timestamp_raises _ _ _ _ _ Hx He) in E1. discriminate.
    + destruct (fix_timestamp_returns _ _ _ _ E1) as (Hother & _ & _).
      rewrite <- (Hother INVERTER_TIMESTAMP_UPDATE) in Hx by discriminate.
      rewrite (bind_raise _ _ _ _ _ (fix_timestamp_raises _ _ _ _ _ Hx He)).
      eauto.
  - rewrite (bind_raise _ _ _ _ _ E1). eauto.
Qed.

(** When [float(..)] accepts the timestamps, both timestamp steps return. *)
Lemma timestamps_fixed d :
  timestamps_convert py d ->
  exists d1 d2,
    fix_timestamp py INVERTER_TIMESTAMP_ONLINE d = (Ok tt, d1) /\
    fix_timestamp py INVERTER_TIMESTAMP_UPDATE d1 = (Ok tt, d2).
Proof.
  intros Hc.
  assert (H1 : exists d1, fix_timestamp py INVERTER_TIMESTAMP_ONLINE d = (Ok tt, d1)).
  { destruct (dict_get d INVERTER_TIMESTAMP_ONLINE) as [x|] eqn:E.
    - destruct (Hc _ x (or_introl eq_refl) E) as (f & Hf).
      eexists. eapply fix_timestamp_present; eassumption.
    - eexists. now apply fix_timestamp_absent. }
  destruct H1 as (d1 & H1). exists d1.
  destruct (fix_timestamp_returns _ _ _ _ H1) as (Hother & _ & _).
  destruct (dict_get d1 INVERTER_TIMESTAMP_UPDATE) as [x|] eqn:E.
  - rewrite Hother in E by discriminate.
    destruct (Hc _ x (or_intror (or_introl eq_refl)) E) as (f & Hf).
    rewrite <- Hother in E by discriminate.
    eexists. split; [exact H1|]. eapply fix_timestamp_present; eassumption.
  - eexists. split; [exact H1|]. now apply fix_timestamp_absent.
Qed.

End PostProcessFacts.

(** C7, as the code has it.  For every measurement set whose timestamps
    [float(..)] accepts, post-processing returns, and for each of the three
    AC phase groups it has removed the phase's current and voltage
    attributes when both are present and both equal 0.0, and has left both
    as they are when either is absent or has another value.  The timestamp
    step comes first: when it raises, the pruning step is not reached. *)
Theorem phase_pruning (py : Builtins) (d : dict value) :
  well_formed d ->
  timestamps_convert py d ->
  exists d',
    _post_process py d = (Ok tt, d') /\
    forall c v, In (c, v) phase_groups ->
      (is_zero (dict_get d c) /\ is_zero (dict_get d v) ->
       dict_get d' c = None /\ dict_get d' v = None) /\
      (~ (is_zero (dict_get d c) /\ is_zero (dict_get d v)) ->
       dict_get d' c = dict_get d c /\ dict_get d' v = dict_get d v).
Proof.
  intros Hwf Hc.
  destruct (timestamps_fixed py d Hc) as (d1 & d2 & H1 & H2).
  eexists. split; [exact (_post_process_steps py d d1 d2 H1 H2)|].
  destruct (fix_timestamp_returns _ _ _ _ H1) as (O1 & W1 & _).
  destruct (fix_timestamp_returns _ _ _ _ H2) as (O2 & W2 & _).
  assert (Hwf2 : well_formed d2) by auto.
  assert (Hsame : forall k, k <> INVERTER_TIMESTAMP_ONLINE ->
                            k <> INVERTER_TIMESTAMP_UPDATE ->
                            dict_get d2 k = dict_get d k).
  { intros k Ha Hb. rewrite O2, O1 by assumption. reflexivity. }
  clear H1 H2 O1 O2 W1 W2 Hc Hwf.
  assert (Hw1 : well_formed (prune d2 PHASE1_CURRENT PHASE1_VOLTAGE))
    by now apply prune_well_formed.
  assert (Hw2 : well_formed (prune (prune d2 PHASE1_CURRENT PHASE1_VOLTAGE)
                                   PHASE2_CURRENT PHASE2_VOLTAGE))
    by now apply prune_well_formed.
  intros c v [E|[E|[E|[]]]]; injection E as <- <-;
    rewrite <- !(Hsame _) by discriminate.
  - (* phase 1: pruned first, untouched by the two later steps *)
    skip_prune.
    split; intros Hz.
    + now apply prune_unused.
    + now rewrite prune_used.
  - (* phase 2 *)
    skip_prune.
    rewrite <- (prune_other d2 PHASE1_CURRENT PHASE1_VOLTAGE PHASE2_CURRENT)
      by discriminate.
    rewrite <- (prune_other d2 PHASE1_CURRENT PHASE1_VOLTAGE PHASE2_VOLTAGE)
      by discriminate.
    split; intros Hz.
    + now apply prune_unused.
    + now rewrite prune_used.
  - (* phase 3 *)
    rewrite <- (prune_other d2 PHASE1_CURRENT PHASE1_VOLTAGE PHASE3_CURRENT)
      by discriminate.
    rewrite <- (prune_other d2 PHASE1_CURRENT PHASE1_VOLTAGE PHASE3_VOLTAGE)
      by discriminate.
    rewrite <- (prune_other (prune d2 PHASE1_CURRENT PHASE1_VOLTAGE)
                  PHASE2_CURRENT PHASE2_VOLTAGE PHASE3_CURRENT)
      by discriminate.
    rewrite <- (prune_other (prune d2 PHASE1_CURRENT PHASE1_VOLTAGE)
                  PHASE2_CURRENT PHASE2_VOLTAGE PHASE3_VOLTAGE)
      by discriminate.
    split; intros Hz.
    + now apply prune_unused.
    + now rewrite prune_used.
Qed.

(** Phase 1 draws no current under 5 V, phase 2 is reported as unused. *)
Definition phase_sample : dict value :=
  [ (INVERTER_TIMESTAMP_UPDATE, VInt 1700000000000);
    (PHASE1_CURRENT, VFloat 0%float); (PHASE1_VOLTAGE, VFloat 5%float);
    (PHASE2_CURRENT, VFloat 0%float); (PHASE2_VOLTAGE, VFloat 0%float) ].

Lemma phase_sample_well_formed : well_formed phase_sample.
Proof.
  unfold well_formed. simpl.
  repeat constructor; simpl; intuition discriminate.
Qed.

Lemma phase_sample_converts : timestamps_convert CPython.builtins phase_sample.
Proof.
  intros k x [<-|[<-|[]]] H; vm_compute in H; [discriminate H|].
  injection H as <-. eexists. reflexivity.
Qed.

Lemma phase_pruning_witness :
  exists d',
    _post_process CPython.builtins phase_sample = (Ok tt, d') /\
    dict_get d' PHASE2_CURRENT = None /\
    dict_get d' PHASE2_VOLTAGE = None /\
    dict_get d' PHASE1_CURRENT = Some (VFloat 0%float) /\
    dict_get d' PHASE1_VOLTAGE = Some (VFloat 5%float).
Proof.
  destruct (phase_pruning CPython.builtins phase_sample
              phase_sample_well_formed phase_sample_converts)
    as (d' & Hrun & Hphases).
  exists d'. split; [exact Hrun|].
  destruct (Hphases PHASE2_CURRENT PHASE2_VOLTAGE) as [Hgone _];
    [simpl; auto|].
  destruct Hgone as [-> ->];
    [split; eexists; split; reflexivity|].
  destruct (Hphases PHASE1_CURRENT PHASE1_VOLTAGE) as [_ Hkept];
    [simpl; auto|].
  destruct Hkept as [-> ->]; [|repeat split; reflexivity].
  intros [_ (v & Hv & Hzero)]. vm_compute in Hv. injection Hv as <-.
  vm_compute in Hzero. discriminate Hzero.
Defined.

(** Phase 2 is reported as unused, and the update timestamp is an integer
    too large for a double. *)
Definition late_sample : dict value :=
  [ (INVERTER_TIMESTAMP_UPDATE, VInt (10 ^ 400));
    (PHASE2_CURRENT, VFloat 0%float); (PHASE2_VOLTAGE, VFloat 0%float) ].

(** Both attributes of the unused phase are present and equal 0.0, and
    post-processing does not remove them: it raises [OverflowError] at its
    timestamp step and leaves the set as it was, whatever the text built-ins
    do. *)
Lemma unused_phase_kept :
  well_formed late_sample /\
  is_zero (dict_get late_sample PHASE2_CURRENT) /\
  is_zero (dict_get late_sample PHASE2_VOLTAGE) /\
  (forall py,
     _post_process py late_sample = (Raise OverflowError, late_sample)) /\
  ~ (exists py d',
       _post_process py late_sample = (Ok tt, d') /\
       dict_get d' PHASE2_CURRENT = None /\ dict_get d' PHASE2_VOLTAGE = None).
Proof.
  split.
  { unfold well_formed. simpl. repeat constructor; simpl; intuition discriminate. }
  split; [eexists; split; reflexivity|].
  split; [eexists; split; reflexivity|].
  split; [intros py; vm_compute; reflexivity|].
  intros (py & d' & H & _). vm_compute in H. discriminate H.
Qed.

(** C8, as the code has it.  For every measurement set whose timestamps
    [float(..)] accepts, post-processing replaces the "online" and the "last
    update" timestamp, each when it is present, by [float(value)/1000], and
    a set that lacks one still lacks it afterwards. *)
Theorem timestamp_fixup (py : Builtins) (d : dict value) :
  timestamps_convert py d ->
  exists d',
    _post_process py d = (Ok tt, d') /\
    forall k, In k timestamps ->
      match dict_get d k with
      | Some x => exists f, value_to_float py x = Ok f /\
                            dict_get d' k = Some (VFloat (f / 1000)%float)
      | None => dict_get d' k = None
      end.
Proof.
  intros Hc.
  destruct (timestamps_fixed py d Hc) as (d1 & d2 & H1 & H2).
  eexists. split; [exact (_post_process_steps py d d1 d2 H1 H2)|].
  destruct (fix_timestamp_returns _ _ _ _ H1) as (O1 & _ & T1).
  destruct (fix_timestamp_returns _ _ _ _ H2) as (O2 & _ & T2).
  intros k [<-|[<-|[]]]; skip_prune.
  - rewrite O2 by discriminate. exact T1.
  - rewrite O1 in T2 by discriminate. exact T2.
Qed.

(** The raw [updateDate = 1700000000000] becomes [1700000000.0]. *)
Lemma timestamp_fixup_example (py : Builtins) :
  _post_process py [(INVERTER_TIMESTAMP_UPDATE, VInt 1700000000000)]
  = (Ok tt, [(INVERTER_TIMESTAMP_UPDATE, VFloat 1700000000%float)]).
Proof. vm_compute. reflexivity. Qed.

(** An integer timestamp too large for a double: [float(10**400)] raises
    [OverflowError], and so does post-processing. *)
Lemma timestamp_overflow (py : Builtins) :
  _post_process py [(INVERTER_TIMESTAMP_UPDATE, VInt (10 ^ 400))]
  = (Raise OverflowError, [(INVERTER_TIMESTAMP_UPDATE, VInt (10 ^ 400))]).
Proof. vm_compute. reflexivity. Qed.

Definition timestamp_sample : dict value :=
  [ (INVERTER_TIMESTAMP_UPDATE, VInt 1700000000000) ].

Lemma timestamp_sample_converts :
  timestamps_convert CPython.builtins timestamp_sample.
Proof.
  intros k x [<-|[<-|[]]] H; vm_compute in H; [discriminate H|].
  injection H as <-. eexists. reflexivity.
Qed.

Lemma timestamp_fixup_witness :
  exists d',
    _post_process CPython.builtins timestamp_sample = (Ok tt, d') /\
    dict_get d' INVERTER_TIMESTAMP_UPDATE = Some (VFloat 1700000000%float) /\
    dict_get d' INVERTER_TIMESTAMP_ONLINE = None.
Proof.
  destruct (timestamp_fixup CPython.builtins timestamp_sample
              timestamp_sample_converts) as (d' & Hrun & Hfixed).
  exists d'. split; [exact Hrun|]. split.
  - destruct (Hfixed INVERTER_TIMESTAMP_UPDATE) as (f & Hf & ->);
      [simpl; auto|].
    vm_compute in Hf. injection Hf as <-. reflexivity.
  - apply (Hfixed INVERTER_TIMESTAMP_ONLINE). simpl. auto.
Defined.

(** No choice of the text built-ins makes post-processing return on a
    timestamp that is too large for a double. *)
Lemma timestamp_too_large :
  ~ (exists py d',
       _post_process py [(INVERTER_TIMESTAMP_UPDATE, VInt (10 ^ 400))]
       = (Ok tt, d')).
Proof. intros (py & d' & H). vm_compute in H. discriminate H. Qed.

(** ** Record-scan extraction *)

(** The record scan as the specification words it: the value of the last
    record whose key field equals the raw key, converted; no value when no
    record matches. *)
Definition record_has_key (key : string) (record : json) : bool :=
  match get record "key" with
  | Ok k => json_eq_str k key
  | Raise _ => false
  end.

Definition last_record_with_key (key : string) (records : list json)
  : option json :=
  match rev (filter (record_has_key key) records) with
  | [] => None
  | record :: _ => Some record
  end.

Section RecordScan.
Context (py : Builtins).

(** [type_(data_raw)], rounded when [type_ is float]. *)
Definition coerce (type_ : pytype) (precision : option Z) (data_raw : json)
  : result value :=
  let? r := construct py type_ data_raw in
  if is_float type_ then py_round py r precision else Ok r.

Definition record_scan_as_specified
  (records : list json) (key : string) (type_ : pytype) (precision : option Z)
  : result (option value) :=
  match last_record_with_key key records with
  | None => Ok None
  | Some record =>
      match get record "value" with
      | Ok JNull | Raise _ => Ok None
      | Ok data_raw => let? v := coerce type_ precision data_raw in Ok (Some v)
      end
  end.

(** The raw value a record contributes to the scan: the record has the key
    and its value field is there and not [null]. *)
Definition hit (key : string) (record : json) : option json :=
  if record_has_key key record then
    match get record "value" with
    | Ok JNull | Raise _ => None
    | Ok data_raw => Some data_raw
    end
  else None.

Fixpoint hits (key : string) (records : list json) : list json :=
  match records with
  | [] => []
  | record :: rest =>
      match hit key record with
      | Some data_raw => data_raw :: hits key rest
      | None => hits key rest
      end
  end.

Fixpoint coerce_all (type_ : pytype) (precision : option Z) (raws : list json)
  : result (list value) :=
  match raws with
  | [] => Ok []
  | data_raw :: rest =>
      let? v := coerce type_ precision data_raw in
      let? vs := coerce_all type_ precision rest in
      Ok (v :: vs)
  end.

Definition is_dict (j : json) : Prop := exists d, j = JDict d.

Definition last_or {A : Type} (vs : list A) (default : option A) : option A :=
  match rev vs with
  | [] => default
  | v :: _ => Some v
  end.

Lemma last_or_cons {A : Type} (v : A) (vs : list A) (default : option A) :
  last_or (v :: vs) default = last_or vs (Some v).
Proof.
  unfold last_or. simpl. destruct (rev vs) as [|w ws]; reflexivity.
Qed.

(** The scan converts every hit in turn and keeps the last result. *)
Lemma scan_records_spec records key type_ precision acc :
  Forall is_dict records ->
  scan_records py records key type_ precision acc =
    let? vs := coerce_all type_ precision (hits key records) in
    Ok (last_or vs acc).
Proof.
  intros H. revert acc. induction H as [|record rest [d ->] _ IH]; intros acc.
  - reflexivity.
  - simpl scan_records. simpl hits. unfold hit, record_has_key. simpl get.
    destruct (dict_get d "key") as [k|]; simpl rbind.
    + destruct (json_eq_str k key) eqn:Ek.
      * destruct (dict_get d "value") as [data_raw|]; simpl rbind.
        -- destruct data_raw; try (apply IH);
             simpl coerce_all; unfold coerce;
             (destruct (construct py type_ _) as [r|e]; simpl rbind; [|reflexivity]);
             (destruct (if is_float type_ then py_round py r precision else Ok r)
                as [r'|e]; simpl rbind; [|reflexivity]);
             rewrite IH;
             (destruct (coerce_all type_ precision (hits key rest)); simpl rbind;
              [now rewrite last_or_cons | reflexivity]).
        -- apply IH.
      * apply IH.
    + apply IH.
Qed.

End RecordScan.

(** C6, as the code has it.  For every list of records and every raw key:
    when the values of the records that carry the key convert, record-scan
    extraction returns the converted value of the last record that carries
    the key with a value that is not null (the scan goes on after a hit),
    and no value when there is no such record. *)
Theorem record_scan_last_value
  (py : Builtins) (records : list json) (key : string)
  (type_ : pytype) (precision : option Z) :
  Forall is_dict records ->
  (forall data_raw, In data_raw (hits key records) ->
     exists v, coerce py type_ precision data_raw = Ok v) ->
  match rev (hits key records) with
  | [] => _get_value_from_record py (JList records) key type_ precision = Ok None
  | data_raw :: _ =>
      exists v, coerce py type_ precision data_raw = Ok v /\
        _get_value_from_record py (JList records) key type_ precision
        = Ok (Some v)
  end.
Proof.
  intros Hd Hc. unfold _get_value_from_record. simpl iterate. simpl rbind.
  rewrite (scan_records_spec py _ _ _ _ _ Hd).
  assert (Hall : exists vs,
            coerce_all py type_ precision (hits key records) = Ok vs /\
            match rev (hits key records) with
            | [] => vs = []
            | data_raw :: _ =>
                exists v, coerce py type_ precision data_raw = Ok v /\
                          last_or vs None = Some v
            end).
  { clear Hd. induction (hits key records) as [|raw raws IH].
    - exists []. split; reflexivity.
    - destruct (Hc raw (or_introl eq_refl)) as (v & Hv).
      destruct IH as (vs & Hvs & Hlast); [intros; apply Hc; now right|].
      exists (v :: vs). simpl coerce_all. rewrite Hv, Hvs. split; [reflexivity|].
      simpl rev. destruct (rev raws) as [|r rs] eqn:Er; simpl.
      + subst vs. exists v. split; [exact Hv | reflexivity].
      + destruct Hlast as (w & Hw & Hl). exists w. split; [exact Hw|].
        rewrite last_or_cons. unfold last_or in *.
        destruct (rev vs); [discriminate | exact Hl]. }
  destruct Hall as (vs & -> & Hlast). simpl rbind.
  destruct (rev (hits key records)).
  - now subst vs.
  - destruct Hlast as (v & Hv & Hl). exists v. now rewrite Hl.
Qed.

(** The records of the specification's example. *)
Definition duplicate_records : list json :=
  [ JDict [("key", JStr "1fd"); ("value", JStr "1")];
    JDict [("key", JStr "1fd"); ("value", JStr "2")] ].

Lemma record_scan_last_value_witness :
  _get_value_from_record CPython.builtins (JList duplicate_records) "1fd"
    TInt None
  = Ok (Some (VInt 2)).
Proof.
  pose proof (record_scan_last_value CPython.builtins duplicate_records "1fd"
                TInt None) as H.
  destruct H as (v & Hv & Hscan).
  - repeat constructor; eexists; reflexivity.
  - intros data_raw [<-|[<-|[]]]; eexists; reflexivity.
  - vm_compute in Hv. injection Hv as <-. exact Hscan.
Defined.

(** A later record whose value is [null] does not count: the scan keeps the
    value of the record before it, where the wording of the specification
    gives no value. *)
Definition null_last_records : list json :=
  [ JDict [("key", JStr "1fd"); ("value", JStr "1")];
    JDict [("key", JStr "1fd"); ("value", JNull)] ].

Lemma record_scan_null_last :
  (forall py, record_scan_as_specified py null_last_records "1fd" TStr None
              = Ok None) /\
  ~ (exists py, _get_value_from_record py (JList null_last_records) "1fd"
                  TStr None
                = Ok None) /\
  _get_value_from_record CPython.builtins (JList null_last_records) "1fd"
    TStr None
  = Ok (Some (VStr "1")).
Proof.
  split; [intros py; reflexivity|].
  split; [intros [py H]; discriminate H | reflexivity].
Qed.

(** ** Extraction of a payload *)

(** A loop keeps what its turns keep on the elements it visits. *)
Lemma for_each_invariant_in {S A : Type} (R : S -> S -> Prop)
      (l : list A) (body : A -> M S unit) :
  (forall s, R s s) ->
  (forall s1 s2 s3, R s1 s2 -> R s2 s3 -> R s1 s3) ->
  (forall x, In x l -> forall s r s', body x s = (r, s') -> R s s') ->
  forall s r s', for_each l body s = (r, s') -> R s s'.
Proof.
  intros Hrefl Htrans. induction l as [|x l IH]; intros Hbody s r s' H.
  - injection H as <- <-. apply Hrefl.
  - cbn [for_each] in H. unfold bind in H.
    destruct (body x s) as [[[]|e] s1] eqn:E.
    + eapply Htrans; [eapply Hbody; [now left | exact E]|].
      eapply IH; [|exact H]. intros y Hy. apply Hbody. now right.
    + injection H as <- <-. eapply Hbody; [now left | exact E].
Qed.

Lemma dict_keys_set_in {V : Type} (d : dict V) k v x :
  In x (dict_keys (dict_set d k v)) -> In x (dict_keys d) \/ x = k.
Proof.
  destruct (in_dec string_dec k (dict_keys d)) as [Hin|Hout].
  - rewrite dict_keys_set_present by exact Hin. now left.
  - rewrite dict_keys_set_absent by exact Hout. rewrite in_app_iff.
    intros [H|[H|[]]]; [now left | now right].
Qed.

Section Aborts.
Context (py : Builtins).

Lemma collect_attribute_raises jsondata kind dictkey key type_ precision e :
  getter py kind jsondata key type_ precision = Raise e ->
  forall d, collect_attribute py jsondata kind (dictkey, (key, type_, precision)) d
            = (Raise e, d).
Proof.
  intros H d. unfold collect_attribute, bind, lift. now rewrite H.
Qed.

Lemma collect_subset_raises payload subkey kind attributes
      dictkey key type_ precision jsondata e :
  In (dictkey, (key, type_, precision)) attributes ->
  subset payload subkey = Ok jsondata ->
  getter py kind jsondata key type_ precision = Raise e ->
  forall d, exists e' d',
    collect_subset py payload (subkey, (kind, attributes)) d = (Raise e', d').
Proof.
  intros Hin Hs Hg d. unfold collect_subset, bind at 1, lift. rewrite Hs.
  eapply for_each_raises; [exact Hin|].
  intros s. exists e, s. now apply collect_attribute_raises.
Qed.

End Aborts.

Section FetchAborts.
Context (py : Builtins).

(** A raw value that is present and that [type_(..)] rejects makes the
    direct lookup raise. *)
Lemma _get_value_conversion_fails data key type_ precision data_raw e :
  get data key = Ok data_raw -> data_raw <> JNull ->
  construct py type_ data_raw = Raise e ->
  _get_value py data key type_ precision = Raise e.
Proof.
  intros Hg Hn Hc. unfold _get_value. rewrite Hg. simpl rbind.
  destruct data_raw; try contradiction; now rewrite Hc.
Qed.

Lemma _collect_inverter_data_raises payload subkey kind attributes
      dictkey key type_ precision jsondata e :
  In (subkey, (kind, attributes)) INVERTER_DATA ->
  In (dictkey, (key, type_, precision)) attributes ->
  subset payload subkey = Ok jsondata ->
  getter py kind jsondata key type_ precision = Raise e ->
  forall d, exists e' d', _collect_inverter_data py payload d = (Raise e', d').
Proof.
  intros Hs Ha Hj Hg. unfold _collect_inverter_data.
  eapply for_each_raises; [exact Hs|].
  intros d. eapply collect_subset_raises; eassumption.
Qed.

(** An extraction that raises makes the whole fetch raise. *)
Lemma fetch_inverter_data_raises payload a serial device_id inverter_list :
  (forall d, exists e' d', _collect_inverter_data py payload d = (Raise e', d')) ->
  is_online a = true ->
  _session a = true ->
  _inverter_list a = Some inverter_list ->
  hashable serial = true ->
  dir_get inverter_list serial = Some device_id ->
  portal a (List.length (sent a)) (goDetailAjax device_id) = Response 200 payload ->
  payload <> JNull ->
  exists e' a', fetch_inverter_data py serial a = (Raise e', a').
Proof.
  intros Hc Hon Hs Hl Hh Hd Hp Hn.
  destruct (Hc []) as (e' & d' & He).
  unfold fetch_inverter_data, fetch_inverter_data_body, bind, modify, gets,
    _get_inverter_details, _get_data, exchange, call, content, ret, bind, zoom,
    is_online in *.
  cbn -[_collect_inverter_data _post_process].
  rewrite Hon, Hl, Hh. cbn -[_collect_inverter_data _post_process].
  rewrite Hd, Hs. cbn -[_collect_inverter_data _post_process].
  rewrite Hp. cbn -[_collect_inverter_data _post_process].
  destruct payload; try contradiction;
    cbn -[_collect_inverter_data _post_process]; rewrite He; eauto.
Qed.

End FetchAborts.

(** A loop stops at the first turn that raises: the turns after it are not
    taken. *)
Lemma for_each_stops {S A : Type} (before after : list A) (x : A)
      (body : A -> M S unit) s s1 e s2 :
  for_each before body s = (Ok tt, s1) ->
  body x s1 = (Raise e, s2) ->
  for_each (before ++ x :: after) body s = (Raise e, s2).
Proof.
  revert s. induction before as [|y before IH]; intros s Hb Hx.
  - injection Hb as <-. cbn [app for_each]. unfold bind. now rewrite Hx.
  - cbn [app for_each] in *. unfold bind in *.
    destruct (body y s) as [[[]|e0] s0]; [|discriminate Hb].
    now apply IH.
Qed.

(** The attribute names that the rows of a subset and the subsets of a
    schema give. *)
Definition names_of_subsets
  (entries : dict (payload_type * dict field_spec)) : list string :=
  flat_map (fun entry => dict_keys (snd (snd entry))) entries.

(** What a stretch of extraction over the rows [names] leaves: it adds
    names of these rows only. *)
Definition extracted (names : list string) (d d' : dict value) : Prop :=
  forall name, In name (dict_keys d') -> In name (dict_keys d) \/ In name names.

Section Stops.
Context (py : Builtins).

Lemma collect_rows_extracted jsondata kind rows d r d' :
  for_each rows (collect_attribute py jsondata kind) d = (r, d') ->
  extracted (dict_keys rows) d d'.
Proof.
  apply (for_each_invariant_in (extracted (dict_keys rows))).
  - intros s name H. now left.
  - intros s1 s2 s3 H1 H2 name H.
    destruct (H2 name H) as [H'|H']; [now apply H1 | now right].
  - intros [dictkey [[key type_] precision]] Hin s r0 s'.
    unfold collect_attribute, bind, lift, modify, ret.
    destruct (getter py kind jsondata key type_ precision) as [[v|]|e0];
      intros H; injection H as <- <-; intros name Hn; try (now left).
    destruct (dict_keys_set_in _ _ _ _ Hn) as [H| ->]; [now left | right].
    unfold dict_keys. apply in_map_iff.
    now exists (dictkey, (key, type_, precision)).
Qed.

Lemma collect_subsets_extracted payload entries d r d' :
  for_each entries (collect_subset py payload) d = (r, d') ->
  extracted (names_of_subsets entries) d d'.
Proof.
  apply (for_each_invariant_in (extracted (names_of_subsets entries))).
  - intros s name H. now left.
  - intros s1 s2 s3 H1 H2 name H.
    destruct (H2 name H) as [H'|H']; [now apply H1 | now right].
  - intros [subkey [kind attributes]] Hin s r0 s'.
    unfold collect_subset, bind, lift.
    destruct (subset payload subkey) as [jsondata|e0];
      [|intros H; injection H as <- <-; intros name Hn; now left].
    intros H name Hn.
    destruct (collect_rows_extracted _ _ _ _ _ _ H name Hn) as [H'|H'];
      [now left | right].
    unfold names_of_subsets. apply in_flat_map.
    exists (subkey, (kind, attributes)). split; [exact Hin | exact H'].
Qed.

(** A fetch whose extraction raises: the error leaves the fetch, with what
    was collected, and the fetch is not counted as one that returned. *)
Lemma fetch_inverter_data_stops payload a serial device_id inverter_list e d2 :
  _collect_inverter_data py payload [] = (Raise e, d2) ->
  payload <> JNull ->
  is_online a = true ->
  _session a = true ->
  _inverter_list a = Some inverter_list ->
  hashable serial = true ->
  dir_get inverter_list serial = Some device_id ->
  portal a (List.length (sent a)) (goDetailAjax device_id) = Response 200 payload ->
  fetch_inverter_data py serial a
  = (Raise e,
     set_data d2 (record_sent (goDetailAjax device_id) (set_data [] a))).
Proof.
  intros He Hn Hon Hs Hl Hh Hd Hp.
  unfold fetch_inverter_data, fetch_inverter_data_body, bind, modify, gets,
    _get_inverter_details, _get_data, exchange, call, content, ret, bind, zoom,
    is_online in *.
  cbn -[_collect_inverter_data _post_process].
  rewrite Hon, Hl, Hh. cbn -[_collect_inverter_data _post_process].
  rewrite Hd, Hs. cbn -[_collect_inverter_data _post_process].
  rewrite Hp. cbn -[_collect_inverter_data _post_process].
  destruct payload; try contradiction;
    cbn -[_collect_inverter_data _post_process]; rewrite He; reflexivity.
Qed.

End Stops.

(** C2, as the code has it.  Extraction stops at the first attribute, in
    the order of the schema table, that cannot be extracted -- its raw value
    is present but [type_(..)] rejects it, or the lookup itself raises.  When
    the subsets before the attribute's subset and the rows before the
    attribute's row have been collected, giving the data [d2], and the getter
    of the attribute raises [e], then [_collect_inverter_data] raises that
    very [e] and leaves [d2]: the data hold, besides what they held, names of
    the earlier rows only, and the rows and subsets after the attribute are
    not read.  The [fetch_inverter_data] call that
    received the payload raises [e] as well, with [d2] collected, and returns
    no measurement set. *)
Theorem extraction_aborts_on_failure
  (py : Builtins) (payload : json)
  (before after : dict (payload_type * dict field_spec))
  (subkey : string) (kind : payload_type) (earlier later : dict field_spec)
  (dictkey key : string) (type_ : pytype) (precision : option Z)
  (jsondata : json) (e : exn) (d d1 d2 : dict value) :
  INVERTER_DATA
  = before
    ++ (subkey, (kind, earlier ++ (dictkey, (key, type_, precision)) :: later))
    :: after ->
  for_each before (collect_subset py payload) d = (Ok tt, d1) ->
  subset payload subkey = Ok jsondata ->
  for_each earlier (collect_attribute py jsondata kind) d1 = (Ok tt, d2) ->
  getter py kind jsondata key type_ precision = Raise e ->
  _collect_inverter_data py payload d = (Raise e, d2) /\
  (forall name, In name (dict_keys d2) ->
     In name (dict_keys d) \/
     In name (names_of_subsets before ++ dict_keys earlier)) /\
  (forall a serial device_id inverter_list,
     d = [] ->
     is_online a = true ->
     _session a = true ->
     _inverter_list a = Some inverter_list ->
     hashable serial = true ->
     dir_get inverter_list serial = Some device_id ->
     portal a (List.length (sent a)) (goDetailAjax device_id)
       = Response 200 payload ->
     fetch_inverter_data py serial a
     = (Raise e,
        set_data d2 (record_sent (goDetailAjax device_id) (set_data [] a)))).
Proof.
  intros Hschema Hbefore Hsubset Hearlier Hgetter.
  assert (Hrun : _collect_inverter_data py payload d = (Raise e, d2)).
  { unfold _collect_inverter_data. rewrite Hschema.
    apply (for_each_stops before after _ _ d d1 e d2 Hbefore).
    unfold collect_subset, bind at 1, lift. rewrite Hsubset.
    apply (for_each_stops earlier later _ _ d1 d2 e d2 Hearlier).
    unfold collect_attribute, bind, lift. now rewrite Hgetter. }
  split; [exact Hrun|]. split.
  - intros name Hn. rewrite in_app_iff.
    destruct (collect_rows_extracted py _ _ _ _ _ _ Hearlier name Hn) as [H|H];
      [|auto].
    destruct (collect_subsets_extracted py _ _ _ _ _ Hbefore name H); auto.
  - intros a serial device_id inverter_list -> Hon Hs Hl Hh Hd Hp.
    apply (fetch_inverter_data_stops py payload a serial device_id
             inverter_list e d2 Hrun); try assumption.
    intros ->. unfold subset in Hsubset. discriminate.
Qed.

(** The details of inverter S1 with a latitude that is no number. *)
Definition bad_latitude : json :=
  details [ ("sn", JStr "S1"); ("lat", JStr "north"); ("state", JStr "1") ].

(** A client that is online and knows inverter S1 as device 1. *)
Definition online_client (payload : json) : GinlongAPI :=
  {| plantid := 1; _session := true; _data := []; _online := true;
     _inverter_list := Some [(JStr "S1", JInt 1)];
     portal := plant_portal [device "S1" 1] (fun _ => Response 200 payload);
     sent := []; fetched := [] |}.

Lemma extraction_aborts_on_failure_witness :
  _collect_inverter_data CPython.builtins bad_latitude []
  = (Raise ValueError, [(INVERTER_SERIAL, VStr "S1")]) /\
  fetch_inverter_data CPython.builtins (JStr "S1") (online_client bad_latitude)
  = (Raise ValueError,
     set_data [(INVERTER_SERIAL, VStr "S1")]
       (record_sent (goDetailAjax (JInt 1))
          (set_data [] (online_client bad_latitude)))).
Proof.
  destruct (extraction_aborts_on_failure CPython.builtins bad_latitude
              []
              (tl INVERTER_DATA)
              "none" VALUE_ELEMENT
              [ (INVERTER_SERIAL, ("sn", TStr, None));
                (INVERTER_PLANT_ID, ("plantId", TStr, None)) ]
              [ (INVERTER_LON, ("lon", TFloat, Some 7));
                (INVERTER_ADDRESS, ("address", TStr, None));
                (INVERTER_DEVICE_ID, ("deviceId", TStr, None));
                (INVERTER_DATALOGGER_SERIAL, ("dataloggerSn", TStr, None));
                (INVERTER_TIMESTAMP_ONLINE, ("receiveTimestamps", TInt, None));
                (INVERTER_TIMESTAMP_UPDATE, ("updateDate", TInt, None));
                (INVERTER_STATE, ("state", TInt, None)) ]
              INVERTER_LAT "lat" TFloat (Some 7)
              (JDict
                 ([ ("sn", JStr "S1"); ("lat", JStr "north");
                    ("state", JStr "1") ] ++
                  [ ("realTimeDataImp", JList []);
                    ("realTimeDataOther", JList []);
                    ("realTimeDataState", JList []);
                    ("realTimeDataPower", JList []);
                    ("dataJSON", JDict []) ]))
              ValueError [] [] [(INVERTER_SERIAL, VStr "S1")])
    as (Hcollect & _ & Hfetch).
  - reflexivity.
  - reflexivity.
  - reflexivity.
  - vm_compute. reflexivity.
  - vm_compute. reflexivity.
  - split; [exact Hcollect|].
    apply (Hfetch (online_client bad_latitude) (JStr "S1") (JInt 1)
             [(JStr "S1", JInt 1)]); reflexivity.
Defined.

(** The bad latitude costs the whole set: extraction raises with the serial
    collected and the state not yet read, and the fetch raises. *)
Lemma bad_latitude_aborts :
  _collect_inverter_data CPython.builtins bad_latitude []
  = (Raise ValueError, [(INVERTER_SERIAL, VStr "S1")]) /\
  fst (fetch_inverter_data CPython.builtins (JStr "S1")
         (online_client bad_latitude))
  = Raise ValueError.
Proof. split; vm_compute; reflexivity. Qed.

(** With two bad values, the error of the first one leaves: a latitude that
    is a list ([TypeError]) hides a longitude that is no number. *)
Lemma first_failure_leaves :
  forall py,
    _collect_inverter_data py
      (details [ ("sn", JStr "S1"); ("lat", JList []); ("lon", JStr "east") ])
      []
    = (Raise TypeError, [(INVERTER_SERIAL, VStr "S1")]).
Proof. intros py. vm_compute. reflexivity. Qed.

(** ** The portal client *)

Ltac break_match :=
  match goal with
  | |- context [match ?x with _ => _ end] => destruct x eqn:?
  end.

Lemma exchange_spec rq a :
  exchange rq a =
    if negb (_session a) then (Ok {| SUCCESS := false; CONTENT := None |}, a)
    else match portal a (List.length (sent a)) rq with
         | Response status body =>
             (Ok {| SUCCESS := status =? 200; CONTENT := Some body |}, record_sent rq a)
         | Failed => (Ok {| SUCCESS := false; CONTENT := None |}, record_sent rq a)
         | Uncaught e => (Raise e, record_sent rq a)
         end.
Proof.
  unfold exchange, bind, gets, call, ret, raise.
  destruct (_session a); cbn; [|reflexivity].
  destruct (portal a _ rq); reflexivity.
Qed.

(** The decoded inverter list. *)
Definition device_ids_of (result_json : json) : result (option directory) :=
  let? r := subscript result_json "result" in
  let? r := subscript r "paginationAjax" in
  let? r := subscript r "data" in
  let? records := iterate r in
  let? device_ids := add_devices [] records in
  Ok (Some device_ids).

Lemma fetch_inverter_list_spec plant_id a :
  fetch_inverter_list plant_id a =
    if negb (_session a) then (Ok None, set_online false a)
    else
      let a1 := record_sent (inverterListAjax plant_id) a in
      match portal a (List.length (sent a)) (inverterListAjax plant_id) with
      | Response status body =>
          if status =? 200 then (device_ids_of body, a1)
          else (Ok None, set_online false a1)
      | Failed => (Ok None, set_online false a1)
      | Uncaught e => (Raise e, a1)
      end.
Proof.
  unfold fetch_inverter_list, _get_data, bind at 1. rewrite exchange_spec.
  destruct (_session a); cbn -[subscript iterate add_devices]; [|reflexivity].
  destruct (portal a _ _) as [status body| |e]; cbn -[subscript iterate add_devices];
    try reflexivity.
  destruct (status =? 200); cbn -[subscript iterate add_devices]; [|reflexivity].
  unfold device_ids_of, bind, lift, ret, rbind.
  repeat (break_match; try reflexivity).
Qed.

Lemma device_ids_of_some b o : device_ids_of b = Ok o -> exists l, o = Some l.
Proof.
  unfold device_ids_of, rbind.
  repeat (break_match; try (intros H; discriminate H)).
  intros H. injection H as <-. eauto.
Qed.

Lemma login_frame a r a' :
  login a = (r, a') ->
  fetched a' = fetched a /\ plantid a' = plantid a /\ portal a' = portal a /\
  (sent a' = sent a ++ [validateLogin] \/
   sent a' = (sent a ++ [validateLogin]) ++ [inverterListAjax (plantid a)]) /\
  (forall b, r = Ok b -> _online a' = b) /\
  (_online a = false -> r = Ok true -> exists l, _inverter_list a' = Some l).
Proof.
  unfold login, _post_data, content, try_except.
  unfold bind at 1. unfold modify at 1. unfold bind at 1. unfold modify at 1.
  unfold bind at 1. rewrite exchange_spec.
  cbn -[subscript get json_eq_int fetch_inverter_list].
  unfold bind, lift, gets, modify, ret, raise.
  destruct (portal a _ validateLogin) as [status body| |e];
    cbn -[subscript get json_eq_int fetch_inverter_list];
    [destruct (status =? 200);
     cbn -[subscript get json_eq_int fetch_inverter_list];
     [destruct (subscript body "result") as [r0|e0];
      cbn -[subscript get json_eq_int fetch_inverter_list];
      [destruct (get r0 "isAccept") as [acc|e1];
       cbn -[subscript get json_eq_int fetch_inverter_list];
       [destruct (json_eq_int acc 1);
        cbn -[subscript get json_eq_int fetch_inverter_list];
        [rewrite fetch_inverter_list_spec; cbn -[device_ids_of];
         destruct (portal a _ (inverterListAjax _)) as [st2 b2| |e2];
         cbn -[device_ids_of];
         [destruct (st2 =? 200); cbn -[device_ids_of];
          [destruct (device_ids_of b2) as [o|e3] eqn:Ed; cbn;
           [destruct (device_ids_of_some _ _ Ed) as (l & ->)
           |destruct e3; cbn] | ] | | destruct e2; cbn ]
        | ]
       | destruct e1; cbn ]
      | destruct e0; cbn ]
     | ]
    | | ].
  all: intros H; injection H as <- <-; cbn; repeat split; auto;
    try discriminate; try congruence; try (intros; congruence); eauto.
Qed.

Lemma logout_spec a :
  logout a = (Ok tt, set_inverter_list None (set_online false (set_session false a))).
Proof. reflexivity. Qed.

Section FetchFrame.
Context (py : Builtins).

Lemma fetch_inverter_data_offline k a :
  is_online a = false ->
  fetch_inverter_data py k a = (Ok None, record_fetched k false (set_data [] a)).
Proof.
  intros H. unfold fetch_inverter_data, fetch_inverter_data_body, bind, modify, gets, ret.
  cbn. unfold is_online in H. rewrite H. reflexivity.
Qed.

Lemma fetch_inverter_data_frame k a r a' :
  fetch_inverter_data py k a = (r, a') ->
  _online a' = _online a /\ _inverter_list a' = _inverter_list a /\
  _session a' = _session a /\ plantid a' = plantid a /\ portal a' = portal a /\
  fetched a' =
    fetched a ++ match r with
                 | Ok (Some _) => [(k, true)]
                 | Ok None => [(k, false)]
                 | Raise _ => []
                 end /\
  (forall data, r = Ok (Some data) -> _online a = true).
Proof.
  unfold fetch_inverter_data, fetch_inverter_data_body, _get_inverter_details,
    _get_data, content.
  unfold bind at 1. unfold bind at 1. unfold modify at 1. unfold bind at 1.
  unfold gets at 1. unfold is_online.
  cbn -[_collect_inverter_data _post_process exchange].
  destruct (_online a) eqn:Hon;
    cbn -[_collect_inverter_data _post_process exchange].
  2: { intros H; injection H as <- <-. cbn. rewrite app_nil_r || idtac.
       repeat split; auto; discriminate. }
  unfold bind at 1, gets at 1.
  cbn -[_collect_inverter_data _post_process exchange].
  destruct (_inverter_list a) as [l|] eqn:Hl;
    cbn -[_collect_inverter_data _post_process exchange].
  2: { intros H; injection H as <- <-. cbn. repeat split; auto. }
  destruct (hashable k); cbn -[_collect_inverter_data _post_process exchange].
  2: { intros H; injection H as <- <-. cbn. rewrite app_nil_r.
       repeat split; auto. }
  destruct (dir_get l k) as [device_id|];
    cbn -[_collect_inverter_data _post_process exchange].
  2: { intros H; injection H as <- <-. cbn. repeat split; auto. }
  unfold bind at 1. unfold bind at 1. rewrite exchange_spec.
  cbn -[_collect_inverter_data _post_process].
  destruct (_session a); cbn -[_collect_inverter_data _post_process].
  2: { intros H; injection H as <- <-. cbn. repeat split; auto. }
  destruct (portal a _ _) as [status body| |e];
    cbn -[_collect_inverter_data _post_process].
  2: { intros H; injection H as <- <-. cbn. repeat split; auto. }
  2: { intros H; injection H as <- <-. cbn. rewrite app_nil_r.
       repeat split; auto. }
  destruct (status =? 200); cbn -[_collect_inverter_data _post_process].
  2: { intros H; injection H as <- <-. cbn. repeat split; auto. }
  unfold bind, zoom, gets, modify, ret.
  destruct body; cbn -[_collect_inverter_data _post_process];
    try (intros H; injection H as <- <-; cbn; repeat split; auto; fail).
  all: match goal with
       | |- context [_collect_inverter_data py ?p ?d] =>
           destruct (_collect_inverter_data py p d) as [[[]|e1] d1]
       end; cbn -[_post_process];
       [ destruct (_post_process py d1) as [[[]|e2] d2]; cbn | ];
       intros H; injection H as <- <-; cbn; rewrite ?app_nil_r;
       repeat split; auto.
Qed.

End FetchFrame.

(** ** Frames *)

Lemma for_each_invariant {S A : Type} (R : S -> S -> Prop)
      (l : list A) (body : A -> M S unit) :
  (forall s, R s s) ->
  (forall s1 s2 s3, R s1 s2 -> R s2 s3 -> R s1 s3) ->
  (forall x s r s', body x s = (r, s') -> R s s') ->
  forall s r s', for_each l body s = (r, s') -> R s s'.
Proof.
  intros Hrefl Htrans Hbody. induction l as [|x l IH]; intros s r s'; simpl.
  - unfold ret. intros H. injection H as <- <-. apply Hrefl.
  - unfold bind. destruct (body x s) as [[[]|e] s1] eqn:E.
    + intros H. eapply Htrans; [eapply Hbody; exact E | eapply IH; exact H].
    + intros H. injection H as <- <-. eapply Hbody; exact E.
Qed.

(** What dispatch leaves alone: the client, the schedule, the login time,
    the update time, the subscription table and the clock itself. *)
Definition quiet (s s' : InverterService) : Prop :=
  _api s' = _api s /\ scheduled s' = scheduled s /\
  _logintime s' = _logintime s /\ _last_updated s' = _last_updated s /\
  _subscriptions s' = _subscriptions s /\ clock s' = clock s.

Lemma quiet_refl s : quiet s s.
Proof. unfold quiet. tauto. Qed.

Lemma quiet_trans s1 s2 s3 : quiet s1 s2 -> quiet s2 s3 -> quiet s1 s3.
Proof. unfold quiet. intuition congruence. Qed.

Lemma subscriber_of_spec serial attribute s :
  subscriber_of serial attribute s =
    (match subscriptions_of (_subscriptions s) serial with
     | Some mine => match dict_get mine attribute with
                    | Some ref => Ok ref
                    | None => Raise KeyError
                    end
     | None => Raise KeyError
     end, s).
Proof.
  unfold subscriber_of, bind, gets, ret, raise.
  destruct (subscriptions_of _ _) as [mine|]; [|reflexivity].
  destruct (dict_get mine attribute); reflexivity.
Qed.

Lemma energy_today_value_quiet data serial value s r s' :
  energy_today_value data serial value s = (r, s') -> quiet s s'.
Proof.
  unfold energy_today_value, bind, now, lift, gets, ret.
  cbn -[__getattr__ py_eq hour minutes subscriber_of].
  destruct (__getattr__ data INVERTER_STATE) as [st|e];
    cbn -[py_eq hour minutes subscriber_of].
  2: { intros H; injection H as <- <-. unfold quiet; cbn; tauto. }
  destruct (py_eq st (VInt 2) && _); cbn -[py_eq hour minutes subscriber_of].
  1: { intros H; injection H as <- <-. unfold quiet; cbn; tauto. }
  destruct (py_eq st (VInt 1) && _); cbn -[py_eq hour minutes subscriber_of].
  2: { intros H; injection H as <- <-. unfold quiet; cbn; tauto. }
  rewrite subscriber_of_spec. cbn -[hour minutes subscriptions_of].
  destruct (subscriptions_of _ _) as [mine|]; cbn -[hour minutes].
  2: { intros H; injection H as <- <-. unfold quiet; cbn; tauto. }
  destruct (dict_get mine INVERTER_STATE) as [ref|]; cbn -[hour minutes].
  2: { intros H; injection H as <- <-. unfold quiet; cbn; tauto. }
  destruct (measured _); cbn -[hour minutes].
  2: { intros H; injection H as <- <-. unfold quiet; cbn; tauto. }
  destruct (_ <? _); intros H; injection H as <- <-; unfold quiet; cbn; tauto.
Qed.

Lemma update_attribute_quiet data serial attribute s r s' :
  update_attribute data serial attribute s = (r, s') -> quiet s s'.
Proof.
  unfold update_attribute. unfold bind at 1, gets at 1.
  destruct (subscriptions_of _ _) as [mine|].
  2: { intros H; injection H as <- <-. apply quiet_refl. }
  destruct (dict_contains mine attribute).
  2: { intros H; injection H as <- <-. apply quiet_refl. }
  unfold bind at 1, lift at 1.
  destruct (__getattr__ data attribute) as [v|e].
  2: { intros H; injection H as <- <-. apply quiet_refl. }
  unfold bind at 1.
  destruct ((if String.eqb attribute INVERTER_ENERGY_TODAY
             then energy_today_value data serial v else ret v) s)
    as [[v'|e] s1] eqn:E.
  2: { intros H; injection H as <- <-.
       destruct (String.eqb attribute INVERTER_ENERGY_TODAY).
       - eapply energy_today_value_quiet; exact E.
       - discriminate E. }
  assert (Q1 : quiet s s1).
  { destruct (String.eqb attribute INVERTER_ENERGY_TODAY).
    - eapply energy_today_value_quiet; exact E.
    - injection E as _ <-. apply quiet_refl. }
  unfold bind at 1. rewrite subscriber_of_spec.
  destruct (match subscriptions_of _ _ with Some _ => _ | None => _ end) as [ref|e].
  2: { intros H; injection H as <- <-. exact Q1. }
  unfold bind, gets, notify, modify. intros H; injection H as <- <-.
  eapply quiet_trans; [exact Q1|]. unfold quiet; cbn; tauto.
Qed.

Lemma update_devices_quiet data s r s' :
  update_devices data s = (r, s') -> quiet s s'.
Proof.
  unfold update_devices. unfold bind at 1, lift at 1.
  destruct (__getattr__ data INVERTER_SERIAL) as [serial|e].
  2: { intros H; injection H as <- <-. apply quiet_refl. }
  unfold bind at 1, gets at 1.
  destruct (subscriptions_of _ _).
  2: { intros H; injection H as <- <-. apply quiet_refl. }
  unfold bind at 1, lift at 1.
  destruct (keys data) as [ks|e].
  2: { intros H; injection H as <- <-. apply quiet_refl. }
  apply for_each_invariant.
  - apply quiet_refl.
  - apply quiet_trans.
  - intros x s0 r0 s0'. apply update_attribute_quiet.
Qed.

Lemma _logout_spec s :
  _logout s =
    (Ok tt,
     set_logintime None
       (set_api (set_inverter_list None
                   (set_online false (set_session false (_api s)))) s)).
Proof. reflexivity. Qed.

Lemma _login_online s :
  is_online (_api s) = true -> _login s = (Ok true, s).
Proof.
  intros H. unfold _login, bind, gets, ret. rewrite H. cbn. now rewrite H.
Qed.

Lemma _login_frame s r s' :
  _login s = (r, s') ->
  scheduled s' = scheduled s /\ _subscriptions s' = _subscriptions s /\
  objects s' = objects s /\ clock s' = clock s /\
  _last_updated s' = _last_updated s /\
  fetched (_api s') = fetched (_api s) /\
  (forall b, r = Ok b -> _online (_api s') = b) /\
  (sent (_api s') = sent (_api s) \/
   sent (_api s') = sent (_api s) ++ [validateLogin] \/
   sent (_api s') = (sent (_api s) ++ [validateLogin])
                      ++ [inverterListAjax (plantid (_api s))]) /\
  (r = Ok true -> _online (_api s) = false ->
   exists l, _inverter_list (_api s') = Some l).
Proof.
  destruct (is_online (_api s)) eqn:Hon.
  - rewrite (_login_online s Hon). intros H; injection H as <- <-.
    unfold is_online in Hon. repeat split; auto; try congruence.
  - unfold _login. unfold bind at 1, gets at 1. rewrite Hon. cbn [negb].
    unfold bind at 1. unfold bind at 1. unfold zoom.
    destruct (login (_api s)) as [[b|e] a'] eqn:El.
    + destruct (login_frame _ _ _ El) as (F1 & F2 & F3 & F4 & F5 & F6).
      unfold is_online in Hon. specialize (F5 b eq_refl).
      assert (Hfin : exists s1,
                 (if b then t <- now ;; modify (set_logintime (Some t)) else ret tt)
                   (set_api a' s) = (Ok tt, s1) /\
                 _api s1 = a' /\ scheduled s1 = scheduled s /\
                 _subscriptions s1 = _subscriptions s /\ objects s1 = objects s /\
                 clock s1 = clock s /\ _last_updated s1 = _last_updated s).
      { destruct b; eexists; (split; [reflexivity|]); cbn; repeat split. }
      destruct Hfin as (s1 & -> & A1 & A2 & A3 & A4 & A5 & A6).
      unfold gets. intros H; injection H as <- <-.
      rewrite A1. unfold is_online.
      repeat split; auto.
      all: try congruence.
      all: try (destruct F4 as [-> | ->]; auto; fail).
      all: try (intros Hr Hoff; apply F6; [exact Hoff | congruence]).
    + destruct (login_frame _ _ _ El) as (F1 & F2 & F3 & F4 & F5 & F6).
      intros H; injection H as <- <-. cbn.
      repeat split; auto; try discriminate.
      all: try (destruct F4 as [-> | ->]; auto; fail).
Qed.

Section CycleFacts.
Context (py : Builtins).

Definition no_data (entry : json * bool) : Prop := snd entry = false.

(** One turn of the loop of [async_update]. *)
Lemma update_inverter_cases u k s r s' :
  update_inverter py u k s = (r, s') ->
  scheduled s' = scheduled s /\
  exists log,
    fetched (_api s') = fetched (_api s) ++ log /\
    ((log = [] /\ (exists e, r = Raise e) /\ _online (_api s) = true) \/
     (log = [(k, true)] /\ _online (_api s) = true /\
      _online (_api s') = true /\
      (r = Ok SCHEDULE_OK \/ exists e, r = Raise e)) \/
     (log = [(k, false)] /\ r = Ok SCHEDULE_NOK /\
      _online (_api s') = false /\ _logintime s' = None)).
Proof.
  unfold update_inverter. unfold bind at 1. unfold zoom.
  destruct (fetch_inverter_data py k (_api s)) as [[[data|]|e] a'] eqn:Ef.
  - destruct (fetch_inverter_data_frame py _ _ _ _ Ef)
      as (F1 & F2 & F3 & F4 & F5 & F6 & F7).
    specialize (F7 data eq_refl).
    unfold bind at 1, now at 1. unfold bind at 1, modify at 1. unfold bind.
    match goal with
    | |- context [update_devices data ?s0] =>
        destruct (update_devices data s0) as [[[]|e] s1] eqn:Eu;
        destruct (update_devices_quiet _ _ _ _ Eu) as (Q1 & Q2 & _)
    end;
      unfold ret; intros H; injection H as <- <-; cbn in Q1, Q2;
      rewrite Q1, Q2; (split; [reflexivity|]);
      exists [(k, true)]; (split; [exact F6|]); right; left;
      repeat split; eauto; congruence.
  - destruct (fetch_inverter_data_frame py _ _ _ _ Ef)
      as (F1 & F2 & F3 & F4 & F5 & F6 & F7).
    unfold bind. rewrite _logout_spec. unfold ret.
    intros H; injection H as <- <-. cbn. split; [reflexivity|].
    exists [(k, false)]. split; [exact F6|]. right; right. repeat split.
  - destruct (fetch_inverter_data_frame py _ _ _ _ Ef)
      as (F1 & F2 & F3 & F4 & F5 & F6 & F7).
    intros H; injection H as <- <-. cbn. split; [reflexivity|].
    exists []. split; [exact F6|]. left. repeat split; eauto.
    destruct (_online (_api s)) eqn:Hon; [reflexivity|].
    rewrite (fetch_inverter_data_offline py k _ Hon) in Ef. discriminate.
Qed.

(** In a turn that starts offline the fetch returns no data. *)
Lemma update_inverter_offline u k s r s' :
  _online (_api s) = false ->
  update_inverter py u k s = (r, s') ->
  r = Ok SCHEDULE_NOK /\ _online (_api s') = false /\
  scheduled s' = scheduled s /\
  fetched (_api s') = fetched (_api s) ++ [(k, false)].
Proof.
  intros Hoff H.
  destruct (update_inverter_cases _ _ _ _ _ H) as (Hs & log & Hl & [C|[C|C]]).
  - destruct C as (_ & _ & C). congruence.
  - destruct C as (_ & C & _). congruence.
  - destruct C as (-> & -> & C & _). auto.
Qed.

(** The loop of [async_update]: once a fetch has returned no data, every
    later one returns none, the loop ends with [SCHEDULE_NOK] and leaves the
    session offline. *)
Lemma cycle_loop ks : forall u s r s',
  for_fold ks u (update_inverter py) s = (r, s') ->
  scheduled s' = scheduled s /\
  exists log,
    fetched (_api s') = fetched (_api s) ++ log /\
    (forall u', r = Ok u' ->
       u' = u \/ u' = SCHEDULE_OK \/ u' = SCHEDULE_NOK) /\
    (_online (_api s) = false ->
       Forall no_data log /\
       r = Ok (match ks with [] => u | _ => SCHEDULE_NOK end) /\
       _online (_api s') = false) /\
    (forall before k after,
       log = before ++ (k, false) :: after ->
       Forall no_data after /\ r = Ok SCHEDULE_NOK /\
       _online (_api s') = false).
Proof.
  induction ks as [|k ks IH]; intros u s r s'; simpl.
  - unfold ret. intros H; injection H as <- <-. split; [reflexivity|].
    exists []. rewrite app_nil_r. split; [reflexivity|]. split; [|split].
    + intros u' Hu. left. congruence.
    + intros Hoff. split; [constructor | split; [reflexivity | exact Hoff]].
    + intros before k after Hd. destruct before; discriminate.
  - unfold bind. destruct (update_inverter py u k s) as [[u1|e] s1] eqn:E1.
    + intros H. destruct (IH _ _ _ _ H) as (Hs & log & Hl & Hu & Hoff & Hfail).
      destruct (update_inverter_cases _ _ _ _ _ E1)
        as (Hs1 & log1 & Hl1 & Hcases).
      split; [congruence|].
      exists (log1 ++ log). split; [rewrite Hl, Hl1; now rewrite app_assoc|].
      split; [|split].
      * intros u' Hu'. destruct (Hu _ Hu') as [Hx|[Hx|Hx]]; subst u'; auto.
        destruct Hcases as [C|[C|C]].
        -- destruct C as (_ & (e & C) & _). discriminate.
        -- destruct C as (_ & _ & _ & [C|(e & C)]); [|discriminate].
           injection C as ->. auto.
        -- destruct C as (_ & C & _). injection C as ->. auto.
      * intros Hoff0.
        destruct (update_inverter_offline _ _ _ _ _ Hoff0 E1)
          as (Hr & Hoff1 & _ & Hf).
        injection Hr as ->.
        destruct (Hoff Hoff1) as (Hall & Hr & Hoff2).
        assert (Hlog1 : log1 = [(k, false)]).
        { rewrite Hl1 in Hf. now apply app_inv_head in Hf. }
        subst log1.
        split; [constructor; [reflexivity | exact Hall]|].
        split; [|exact Hoff2].
        rewrite Hr. destruct ks; reflexivity.
      * intros before k0 after Hdec.
        destruct Hcases as [C|[C|C]].
        -- destruct C as (-> & _). simpl in Hdec. eapply Hfail; exact Hdec.
        -- destruct C as (-> & _). destruct before as [|b before'].
           ++ discriminate.
           ++ injection Hdec as _ Hdec. eapply Hfail; exact Hdec.
        -- destruct C as (-> & C & Hoff1 & _). injection C as ->.
           destruct (Hoff Hoff1) as (Hall & Hr & Hoff2).
           destruct before as [|b before'].
           ++ injection Hdec as _ <-. split; [exact Hall|].
              split; [|exact Hoff2].
              rewrite Hr. destruct ks; reflexivity.
           ++ injection Hdec as _ Hdec. eapply Hfail; exact Hdec.
    + intros H; injection H as <- <-.
      destruct (update_inverter_cases _ _ _ _ _ E1)
        as (Hs1 & log1 & Hl1 & Hcases).
      split; [exact Hs1|]. exists log1. split; [exact Hl1|].
      destruct Hcases as [C|[C|C]].
      * destruct C as (-> & _ & Hon). split; [|split].
        -- intros u' Hu'. discriminate.
        -- intros Hoff. congruence.
        -- intros before k0 after Hd. destruct before; discriminate.
      * destruct C as (-> & Hon & _). split; [|split].
        -- intros u' Hu'. discriminate.
        -- intros Hoff. congruence.
        -- intros before k0 after Hd.
           destruct before as [|? [|? ?]]; discriminate.
      * destruct C as (_ & C & _). discriminate.
Qed.

End CycleFacts.

(** ** The update cycle *)

Section UpdateCycle.
Context (py : Builtins).

(** [async_update] down to the line before [schedule_update]. *)
Lemma fetch_all_spec s r s' :
  fetch_all py s = (r, s') ->
  scheduled s' = scheduled s /\
  exists log,
    fetched (_api s') = fetched (_api s) ++ log /\
    (forall u, r = Ok (Continues u) -> u = SCHEDULE_OK \/ u = SCHEDULE_NOK) /\
    (forall u, r = Ok (Returns u) ->
       u = SCHEDULE_NOK /\ s' = s /\
       is_online (_api s) = true /\ inverters (_api s) = None) /\
    (forall before k after,
       log = before ++ (k, false) :: after ->
       Forall no_data after /\ r = Ok (Continues SCHEDULE_NOK) /\
       _online (_api s') = false).
Proof.
  unfold fetch_all. unfold bind at 1.
  destruct (_login s) as [[logged_in|e] s1] eqn:El.
  - destruct (_login_frame _ _ _ El)
      as (L1 & L2 & L3 & L4 & L5 & L6 & L7 & L8 & L9).
    destruct logged_in.
    + unfold bind at 1, gets at 1. unfold inverters at 1.
      destruct (_inverter_list (_api s1)) as [l|] eqn:Elist.
      * unfold bind.
        destruct (for_fold (map fst l) SCHEDULE_NOK (update_inverter py) s1)
          as [[u|e] s2] eqn:Eloop;
          destruct (cycle_loop py _ _ _ _ _ Eloop)
            as (C1 & log & C2 & C3 & C4 & C5);
          unfold ret; intros H; injection H as <- <-;
          (split; [congruence|]); exists log;
          (split; [congruence|]); (split; [|split]).
        -- intros u0 Hu. injection Hu as <-.
           destruct (C3 u eq_refl) as [-> | [-> | ->]]; auto.
        -- intros u0 Hu. discriminate.
        -- intros before k after Hd. destruct (C5 _ _ _ Hd) as (A & B & C).
           split; [exact A|]. split; [congruence | exact C].
        -- intros u0 Hu. discriminate.
        -- intros u0 Hu. discriminate.
        -- intros before k after Hd. destruct (C5 _ _ _ Hd) as (A & B & C).
           discriminate.
      * unfold ret. intros H; injection H as <- <-.
        split; [exact L1|]. exists []. rewrite app_nil_r.
        split; [exact L6|]. split; [|split].
        -- intros u Hu. discriminate.
        -- intros u Hu. injection Hu as <-.
           destruct (is_online (_api s)) eqn:Hon.
           ++ rewrite (_login_online s Hon) in El. injection El as <-.
              unfold inverters. auto.
           ++ destruct (L9 eq_refl Hon) as (l & Hl). congruence.
        -- intros before k after Hd. destruct before; discriminate.
    + unfold ret. intros H; injection H as <- <-.
      split; [exact L1|]. exists []. rewrite app_nil_r.
      split; [exact L6|]. split; [|split].
      * intros u Hu. injection Hu as <-. auto.
      * intros u Hu. discriminate.
      * intros before k after Hd. destruct before; discriminate.
  - destruct (_login_frame _ _ _ El)
      as (L1 & L2 & L3 & L4 & L5 & L6 & L7 & L8 & L9).
    intros H; injection H as <- <-.
    split; [exact L1|]. exists []. rewrite app_nil_r.
    split; [exact L6|]. split; [|split].
    + intros u Hu. discriminate.
    + intros u Hu. discriminate.
    + intros before k after Hd. destruct before; discriminate.
Qed.

(** The lines of [async_update] from [schedule_update] on. *)
Definition reschedule (update : Z) : M InverterService Z :=
  schedule_update update ;;
  logintime <- gets _logintime ;;
  match logintime with
  | Some t =>
      t' <- now ;;
      if t + HRS_BETWEEN_LOGIN <? t' then _logout else ret tt
  | None => ret tt
  end ;;
  ret update.

Lemma reschedule_spec update s :
  exists s',
    reschedule update s = (Ok update, s') /\
    scheduled s' = scheduled s ++ [update] /\
    fetched (_api s') = fetched (_api s) /\
    (_online (_api s) = false -> _online (_api s') = false).
Proof.
  unfold reschedule, schedule_update, bind, modify, gets, now, ret.
  cbn -[HRS_BETWEEN_LOGIN Z.ltb].
  destruct (_logintime s) as [t|]; cbn -[HRS_BETWEEN_LOGIN Z.ltb].
  - destruct (t + HRS_BETWEEN_LOGIN <? _); cbn; eexists; repeat split; auto.
  - eexists; repeat split; auto.
Qed.

Lemma async_update_unfold s :
  async_update py s =
    match fetch_all py s with
    | (Ok (Returns update), s1) => (Ok update, s1)
    | (Ok (Continues update), s1) => reschedule update s1
    | (Raise e, s1) => (Raise e, s1)
    end.
Proof.
  unfold async_update. unfold bind at 1.
  destruct (fetch_all py s) as [[[u|u]|e] s1]; reflexivity.
Qed.

(** Every cycle that returns yields [SCHEDULE_OK] or [SCHEDULE_NOK]. *)
Lemma async_update_outcome s u s' :
  async_update py s = (Ok u, s') -> u = SCHEDULE_OK \/ u = SCHEDULE_NOK.
Proof.
  rewrite async_update_unfold.
  destruct (fetch_all py s) as [[[u0|u0]|e] s1] eqn:Ef; [| |discriminate];
    destruct (fetch_all_spec _ _ _ Ef) as (_ & log & _ & Hc & Hr & _).
  - intros H; injection H as <- <-. destruct (Hr u0 eq_refl) as (-> & _). auto.
  - destruct (reschedule_spec u0 s1) as (s2 & -> & _).
    intros H; injection H as <- <-. auto.
Qed.


(** The early return: online, no inverter list, nothing scheduled. *)
Lemma async_update_unscheduled s :
  is_online (_api s) = true -> inverters (_api s) = None ->
  async_update py s = (Ok SCHEDULE_NOK, s).
Proof.
  intros Hon Hl. unfold async_update, fetch_all.
  unfold bind at 1. unfold bind at 1. rewrite (_login_online s Hon).
  unfold bind, gets, ret. now rewrite Hl.
Qed.

End UpdateCycle.

(** C10.  Within one update cycle, once the fetch for an inverter has
    returned no data, every later fetch of the cycle returns no data as
    well: no later success replaces the failure, and the cycle returns
    failure ([SCHEDULE_NOK]), with the session left offline. *)
Theorem failed_fetch_fails_cycle
  (py : Builtins) (s : InverterService) (r : result Z) (s' : InverterService) :
  async_update py s = (r, s') ->
  forall before k after,
    fetched (_api s') = fetched (_api s) ++ before ++ (k, false) :: after ->
    Forall no_data after /\ r = Ok SCHEDULE_NOK /\
    is_online (_api s') = false.
Proof.
  rewrite async_update_unfold.
  destruct (fetch_all py s) as [[[u|u]|e] s1] eqn:Ef;
    destruct (fetch_all_spec _ _ _ _ Ef) as (_ & log & Hl & _ & Hr & Hf).
  - intros H; injection H as <- <-. intros before k after Hd.
    rewrite Hl in Hd. apply app_inv_head in Hd.
    destruct (Hf _ _ _ Hd) as (_ & C & _). discriminate.
  - destruct (reschedule_spec u s1) as (s2 & -> & _ & Hf2 & Hoff2).
    intros H; injection H as <- <-. intros before k after Hd.
    rewrite Hf2, Hl in Hd. apply app_inv_head in Hd.
    destruct (Hf _ _ _ Hd) as (A & B & C). injection B as ->.
    unfold is_online. auto.
  - intros H; injection H as <- <-. intros before k after Hd.
    rewrite Hl in Hd. apply app_inv_head in Hd.
    destruct (Hf _ _ _ Hd) as (_ & C & _). discriminate.
Qed.

(** A plant with three inverters; the portal fails to answer for the
    second one. *)
Definition second_fails : InverterService :=
  InverterService__init__
    (GinlongAPI__init__
       (plant_portal [device "A" 1; device "B" 2; device "C" 3]
          (fun device_id =>
             if json_eq_int device_id 1
             then Response 200 (details [("sn", JStr "A"); ("state", JInt 1)])
             else if json_eq_int device_id 3
             then Response 200 (details [("sn", JStr "C"); ("state", JInt 1)])
             else Failed)))
    midnight.

Lemma failed_fetch_fails_cycle_witness :
  fetched (_api (snd (async_update CPython.builtins second_fails)))
  = [(JStr "A", true); (JStr "B", false); (JStr "C", false)] /\
  fst (async_update CPython.builtins second_fails) = Ok SCHEDULE_NOK /\
  is_online (_api (snd (async_update CPython.builtins second_fails))) = false.
Proof.
  assert (Hlog : fetched (_api (snd (async_update CPython.builtins second_fails)))
                 = [(JStr "A", true); (JStr "B", false); (JStr "C", false)])
    by (vm_compute; reflexivity).
  split; [exact Hlog|].
  apply (failed_fetch_fails_cycle CPython.builtins second_fails
           (fst (async_update CPython.builtins second_fails))
           (snd (async_update CPython.builtins second_fails))
           (surjective_pairing _)
           [(JStr "A", true)] (JStr "B") [(JStr "C", false)]).
  exact Hlog.
Defined.

(** The number of directory discoveries that the client has asked the
    portal for. *)
Definition discoveries (a : GinlongAPI) : nat :=
  List.length
    (filter (fun rq => match rq with inverterListAjax _ => true | _ => false end)
       (sent a)).

(** C9.  Calling the login operation of the service while the session is
    online is a no-op that returns the online state: the state of the
    service and of the client, the list of calls made to the portal
    included, is what it was.  So when the state is the one that an earlier
    login call has left, the two calls together have asked for the inverter
    list at most once. *)
Theorem login_while_online (s : InverterService) :
  is_online (_api s) = true ->
  _login s = (Ok true, s) /\
  (forall s0 r, _login s0 = (r, s) ->
     forall r' s', _login s = (r', s') ->
       r' = Ok true /\ s' = s /\
       (discoveries (_api s') <= discoveries (_api s0) + 1)%nat).
Proof.
  intros Hon. split; [now apply _login_online|].
  intros s0 r H0 r' s' H. rewrite (_login_online s Hon) in H.
  injection H as <- <-. split; [reflexivity|]. split; [reflexivity|].
  destruct (_login_frame _ _ _ H0) as (_ & _ & _ & _ & _ & _ & _ & Hs & _).
  unfold discoveries.
  destruct Hs as [-> | [-> | ->]]; rewrite ?filter_app, ?length_app; simpl; lia.
Qed.

(** A service after its first login at a plant with one inverter. *)
Definition new_service : InverterService :=
  InverterService__init__
    (GinlongAPI__init__ (plant_portal [device "S1" 1] (fun _ => Failed)))
    midnight.

Definition logged_in : InverterService := snd (_login new_service).

Lemma login_while_online_witness :
  _login logged_in = (Ok true, logged_in) /\
  sent (_api logged_in) = [validateLogin; inverterListAjax 1] /\
  (discoveries (_api (snd (_login logged_in))) <= 1)%nat.
Proof.
  destruct (login_while_online logged_in) as [Hnoop Htwice];
    [vm_compute; reflexivity|].
  split; [exact Hnoop|]. split; [vm_compute; reflexivity|].
  destruct (Htwice new_service (fst (_login new_service))
              (surjective_pairing _)
              (fst (_login logged_in)) (snd (_login logged_in))
              (surjective_pairing _)) as (_ & _ & Hle).
  exact Hle.
Defined.

(** ** Dispatch *)

(** The clock shows a time before noon. *)
Definition morning (s : InverterService) : bool :=
  hour (clock s (clock_reads s)) <? 12.

(** [getattr(data, INVERTER_STATE) == z] *)
Definition state_is (data : GinlongData) (z : Z) : bool :=
  match dict_get (get_inverter_data data) INVERTER_STATE with
  | Some st => py_eq st (VInt z)
  | None => false
  end.

(** The dispatch of a set reaches the line that reads the subscriber of
    "state": daily energy is in the set and subscribed, it is morning, and
    the state is 1 and not 2. *)
Definition reads_state_subscriber
  (data : GinlongData) (mine : dict nat) (s : InverterService) : bool :=
  dict_contains mine INVERTER_ENERGY_TODAY
  && dict_contains (get_inverter_data data) INVERTER_ENERGY_TODAY
  && morning s && negb (state_is data 2) && state_is data 1.

Section Dispatch.
Context (data : GinlongData) (serial : value) (mine : dict nat).

(** An attribute other than daily energy: its subscriber, if there is one,
    is notified; the clock is not read. *)
Lemma update_attribute_plain attribute s :
  attribute <> INVERTER_ENERGY_TODAY ->
  subscriptions_of (_subscriptions s) serial = Some mine ->
  In attribute (dict_keys (get_inverter_data data)) ->
  exists s',
    update_attribute data serial attribute s = (Ok tt, s') /\
    quiet s s' /\ clock_reads s' = clock_reads s.
Proof.
  intros Hne Hs Hin. unfold update_attribute. unfold bind at 1, gets at 1.
  rewrite Hs. unfold dict_contains.
  destruct (dict_get mine attribute) as [ref|] eqn:Em.
  2: { eexists. split; [reflexivity|]. split; [apply quiet_refl | reflexivity]. }
  unfold bind at 1, lift at 1, __getattr__.
  destruct (dict_get (get_inverter_data data) attribute) as [v|] eqn:Ed.
  2: { apply dict_get_none_iff in Ed. contradiction. }
  destruct (String.eqb_spec attribute INVERTER_ENERGY_TODAY); [contradiction|].
  unfold bind at 1, ret at 1. unfold bind at 1. rewrite subscriber_of_spec.
  rewrite Hs, Em. unfold bind, gets, notify, modify.
  eexists. split; [reflexivity|]. split; [|reflexivity].
  unfold quiet; cbn; tauto.
Qed.

(** Daily energy: the dispatch raises [KeyError] when it reaches the line
    that reads the subscriber of "state" and there is none. *)
Lemma update_attribute_energy s :
  subscriptions_of (_subscriptions s) serial = Some mine ->
  In INVERTER_STATE (dict_keys (get_inverter_data data)) ->
  In INVERTER_ENERGY_TODAY (dict_keys (get_inverter_data data)) ->
  exists s',
    update_attribute data serial INVERTER_ENERGY_TODAY s
    = (if reads_state_subscriber data mine s
          && negb (dict_contains mine INVERTER_STATE)
       then Raise KeyError else Ok tt, s') /\
    quiet s s'.
Proof.
  intros Hs Hst Hen. unfold update_attribute. unfold bind at 1, gets at 1.
  rewrite Hs. unfold reads_state_subscriber, state_is, morning, dict_contains.
  destruct (dict_get mine INVERTER_ENERGY_TODAY) as [ref|] eqn:Em.
  2: { eexists. split; [reflexivity | apply quiet_refl]. }
  unfold bind at 1, lift at 1, __getattr__.
  destruct (dict_get (get_inverter_data data) INVERTER_ENERGY_TODAY)
    as [v|] eqn:Ed.
  2: { apply dict_get_none_iff in Ed. contradiction. }
  destruct (dict_get (get_inverter_data data) INVERTER_STATE) as [st|] eqn:Est.
  2: { apply dict_get_none_iff in Est. contradiction. }
  rewrite String.eqb_refl.
  unfold energy_today_value, __getattr__. rewrite Est.
  unfold bind, now, lift, gets, ret, notify, modify.
  cbn -[py_eq hour minutes subscriber_of Z.ltb].
  destruct (hour (clock s (clock_reads s)) <? 12);
    destruct (py_eq st (VInt 2)); destruct (py_eq st (VInt 1));
    cbn -[hour minutes subscriber_of Z.ltb];
    rewrite ?subscriber_of_spec; cbn -[hour minutes Z.ltb];
    rewrite ?Hs, ?Em; cbn -[hour minutes Z.ltb];
    try (eexists; split; [reflexivity | unfold quiet; cbn; tauto]).
  destruct (dict_get mine INVERTER_STATE) as [ref'|];
    cbn -[hour minutes Z.ltb].
  - destruct (measured (objects s ref')); cbn -[hour minutes Z.ltb].
    + destruct (_ <? _); cbn; rewrite ?subscriber_of_spec; cbn; rewrite Hs, Em;
        cbn; eexists; (split; [reflexivity | unfold quiet; cbn; tauto]).
    + rewrite ?subscriber_of_spec; cbn; rewrite Hs, Em; cbn.
      eexists; (split; [reflexivity | unfold quiet; cbn; tauto]).
  - eexists; (split; [reflexivity | unfold quiet; cbn; tauto]).
Qed.

(** The loop of [update_devices] over attributes of the set. *)
Lemma dispatch_loop attributes : forall s,
  NoDup attributes ->
  (forall a, In a attributes -> In a (dict_keys (get_inverter_data data))) ->
  In INVERTER_STATE (dict_keys (get_inverter_data data)) ->
  subscriptions_of (_subscriptions s) serial = Some mine ->
  exists s',
    for_each attributes (update_attribute data serial) s
    = (if existsb (String.eqb INVERTER_ENERGY_TODAY) attributes
          && reads_state_subscriber data mine s
          && negb (dict_contains mine INVERTER_STATE)
       then Raise KeyError else Ok tt, s').
Proof.
  induction attributes as [|a l IH]; intros s Hnd Hin Hst Hs.
  - eexists. reflexivity.
  - inversion Hnd as [|? ? Hnotin Hnd']; subst.
    cbn [for_each existsb]. unfold bind.
    destruct (String.eqb_spec INVERTER_ENERGY_TODAY a) as [<-|Hne].
    + destruct (update_attribute_energy s Hs Hst (Hin _ (or_introl eq_refl)))
        as (s1 & -> & Q).
      cbn [orb andb].
      destruct (reads_state_subscriber data mine s
                && negb (dict_contains mine INVERTER_STATE)) eqn:Ec.
      * eauto.
      * destruct Q as (_ & _ & _ & _ & Q5 & _).
        destruct (IH s1 Hnd') as (s2 & ->).
        -- intros x Hx. apply Hin. now right.
        -- exact Hst.
        -- now rewrite Q5.
        -- replace (existsb (String.eqb INVERTER_ENERGY_TODAY) l) with false.
           ++ eauto.
           ++ symmetry. apply not_true_is_false. intros Hex.
              apply existsb_exists in Hex. destruct Hex as (x & Hx & Heq).
              apply String.eqb_eq in Heq. subst x. contradiction.
    + destruct (update_attribute_plain a s) as (s1 & -> & Q & Hc);
        [congruence | exact Hs | apply Hin; now left |].
      destruct Q as (_ & _ & _ & _ & Q5 & Q6).
      destruct (IH s1 Hnd') as (s2 & ->).
      * intros x Hx. apply Hin. now right.
      * exact Hst.
      * now rewrite Q5.
      * cbn [orb]. unfold reads_state_subscriber, morning.
        rewrite Q6, Hc. eauto.
Qed.

End Dispatch.

Lemma update_devices_no_serial data s :
  dict_get (get_inverter_data data) INVERTER_SERIAL = None ->
  update_devices data s = (Raise AttributeError, s).
Proof.
  intros H. unfold update_devices, bind, lift, __getattr__. now rewrite H.
Qed.

Lemma update_devices_unsubscribed data s serial :
  dict_get (get_inverter_data data) INVERTER_SERIAL = Some serial ->
  subscriptions_of (_subscriptions s) serial = None ->
  update_devices data s = (Ok tt, s).
Proof.
  intros H Hs. unfold update_devices, bind, lift, gets, __getattr__.
  now rewrite H, Hs.
Qed.

Lemma update_devices_no_state data s serial mine :
  dict_get (get_inverter_data data) INVERTER_SERIAL = Some serial ->
  subscriptions_of (_subscriptions s) serial = Some mine ->
  ~ In INVERTER_STATE (dict_keys (get_inverter_data data)) ->
  update_devices data s = (Raise ValueError, s).
Proof.
  intros H Hs Hst. unfold update_devices, bind, lift, gets, __getattr__.
  rewrite H, Hs. now rewrite (keys_without_state data Hst).
Qed.

(** [keys()] of a set with "state": "state", then the other keys. *)
Lemma keys_with_state (data : GinlongData) :
  well_formed (get_inverter_data data) ->
  In INVERTER_STATE (dict_keys (get_inverter_data data)) ->
  exists rest,
    keys data = Ok (INVERTER_STATE :: rest) /\
    NoDup rest /\ ~ In INVERTER_STATE rest /\
    (forall k, k <> INVERTER_STATE ->
       (In k rest <-> In k (dict_keys (get_inverter_data data)))).
Proof.
  intros Hwf Hin. unfold keys.
  rewrite (list_remove_spec _ _ Hin Hwf). cbn [rbind].
  eexists. split; [reflexivity|].
  split; [now apply NoDup_filter|]. split.
  - rewrite filter_In. intros [_ H]. now rewrite String.eqb_refl in H.
  - intros k Hk. rewrite filter_In. split; [tauto|].
    intros H. split; [exact H|].
    destruct (String.eqb_spec k INVERTER_STATE); [contradiction | reflexivity].
Qed.

Lemma update_devices_dispatch data s serial mine :
  well_formed (get_inverter_data data) ->
  dict_get (get_inverter_data data) INVERTER_SERIAL = Some serial ->
  subscriptions_of (_subscriptions s) serial = Some mine ->
  In INVERTER_STATE (dict_keys (get_inverter_data data)) ->
  exists s',
    update_devices data s
    = (if reads_state_subscriber data mine s
          && negb (dict_contains mine INVERTER_STATE)
       then Raise KeyError else Ok tt, s').
Proof.
  intros Hwf H Hs Hst. unfold update_devices. unfold bind at 1, lift at 1.
  unfold __getattr__ at 1. rewrite H. unfold bind at 1, gets at 1. rewrite Hs.
  destruct (keys_with_state data Hwf Hst) as (rest & Hk & Hnd & Hni & Hrest).
  unfold bind at 1, lift at 1. rewrite Hk.
  destruct (dispatch_loop data serial mine (INVERTER_STATE :: rest) s)
    as (s' & ->); try assumption.
  - now constructor.
  - intros a [<-|Ha]; [exact Hst|].
    destruct (String.eqb_spec a INVERTER_STATE) as [->|Hne]; [contradiction|].
    now apply Hrest.
  - exists s'. f_equal.
    assert (He : existsb (String.eqb INVERTER_ENERGY_TODAY) (INVERTER_STATE :: rest)
                 = dict_contains (get_inverter_data data) INVERTER_ENERGY_TODAY).
    { unfold dict_contains.
      destruct (dict_get (get_inverter_data data) INVERTER_ENERGY_TODAY) eqn:Ed.
      - apply existsb_exists. exists INVERTER_ENERGY_TODAY.
        split; [|apply String.eqb_refl].
        right. apply Hrest; [discriminate|]. eapply dict_get_some_in; exact Ed.
      - apply not_true_is_false. intros Hex. apply existsb_exists in Hex.
        destruct Hex as (x & [<-|Hx] & Heq); apply String.eqb_eq in Heq;
          [discriminate|]. subst x.
        apply dict_get_none_iff in Ed. apply Ed. now apply Hrest. }
    rewrite He. unfold reads_state_subscriber.
    destruct (dict_contains (get_inverter_data data) INVERTER_ENERGY_TODAY);
      [reflexivity|]. now rewrite andb_false_r.
Qed.

(** A loop with a local variable stops at the first body that raises. *)
Lemma for_fold_stops {S A B : Type} (before after : list A) (x : A)
      (body : B -> A -> M S B) : forall b s b1 s1 e s2,
  for_fold before b body s = (Ok b1, s1) ->
  body b1 x s1 = (Raise e, s2) ->
  for_fold (before ++ x :: after) b body s = (Raise e, s2).
Proof.
  induction before as [|y before IH]; intros b s b1 s1 e s2 Hb Hx.
  - injection Hb as <- <-. cbn [app for_fold]. unfold bind. now rewrite Hx.
  - cbn [app for_fold] in Hb |- *. unfold bind in Hb |- *.
    destruct (body b y s) as [[b'|e'] s'] eqn:Ey; [|discriminate Hb].
    eapply IH; eassumption.
Qed.

(** Nothing in [async_update] catches what the dispatch raises, at
    whichever inverter of the list it does. *)
Lemma async_update_propagates py s s0 inverter_list before k after u1 s1
      data a2 e s3 :
  _login s = (Ok true, s0) ->
  inverters (_api s0) = Some inverter_list ->
  map fst inverter_list = before ++ k :: after ->
  for_fold before SCHEDULE_NOK (update_inverter py) s0 = (Ok u1, s1) ->
  fetch_inverter_data py k (_api s1) = (Ok (Some data), a2) ->
  update_devices data
    (set_last_updated (Some (clock s1 (clock_reads s1))) (tick (set_api a2 s1)))
    = (Raise e, s3) ->
  async_update py s = (Raise e, s3).
Proof.
  intros Hlog Hl Hk Hb Hf Hu. rewrite async_update_unfold. unfold fetch_all.
  unfold bind at 1. rewrite Hlog.
  unfold bind at 1, gets at 1. rewrite Hl, Hk.
  unfold bind at 1.
  rewrite (for_fold_stops before after k (update_inverter py)
             SCHEDULE_NOK s0 u1 s1 e s3 Hb); [reflexivity|].
  unfold update_inverter. unfold bind at 1. unfold zoom. rewrite Hf.
  unfold bind at 1, now at 1. unfold bind at 1, modify at 1.
  unfold bind at 1. cbn [tick set_last_updated set_api] in Hu |- *.
  cbn in Hu |- *. rewrite Hu. reflexivity.
Qed.

(** C4, as the code has it.  Errors are not held at the cycle boundary:
    [async_update] has no handler, so an error that the dispatch
    ([update_devices]) raises for a fetched measurement set, at whichever
    inverter of the list and whether the cycle logged in or was online
    already, leaves [async_update]; and the dispatch raises [ValueError]
    when the set has no "state" while its serial has a subscriber (of
    daily energy, say).  A cycle that returns yields one outcome, success
    ([SCHEDULE_OK]) or failure ([SCHEDULE_NOK]). *)
Theorem errors_leave_the_cycle (py : Builtins) :
  (forall s s0 inverter_list before k after u1 s1 data a2 e s3,
     _login s = (Ok true, s0) ->
     inverters (_api s0) = Some inverter_list ->
     map fst inverter_list = before ++ k :: after ->
     for_fold before SCHEDULE_NOK (update_inverter py) s0 = (Ok u1, s1) ->
     fetch_inverter_data py k (_api s1) = (Ok (Some data), a2) ->
     update_devices data
       (set_last_updated (Some (clock s1 (clock_reads s1)))
          (tick (set_api a2 s1)))
       = (Raise e, s3) ->
     async_update py s = (Raise e, s3)) /\
  (forall data s serial mine,
     dict_get (get_inverter_data data) INVERTER_SERIAL = Some serial ->
     subscriptions_of (_subscriptions s) serial = Some mine ->
     ~ In INVERTER_STATE (dict_keys (get_inverter_data data)) ->
     update_devices data s = (Raise ValueError, s)) /\
  (forall s u s',
     async_update py s = (Ok u, s') -> u = SCHEDULE_OK \/ u = SCHEDULE_NOK).
Proof.
  split; [exact (async_update_propagates py)|].
  split; [exact update_devices_no_state|].
  exact (async_update_outcome py).
Qed.

(** The details of inverter S1 without its state. *)
Definition stateless : json := details [ ("sn", JStr "S1") ].

(** A new service with a subscriber of the daily energy of S1. *)
Definition energy_watch (payload : json) : InverterService :=
  snd (subscribe 1%nat "S1" INVERTER_ENERGY_TODAY
         (InverterService__init__
            (GinlongAPI__init__
               (plant_portal [device "S1" 1] (fun _ => Response 200 payload)))
            midnight)).

(** Two inverters and a subscriber of the daily energy of the second; the
    portal answers for the first with its state and for the second without
    it. *)
Definition second_stateless : InverterService :=
  snd (subscribe 1%nat "B" INVERTER_ENERGY_TODAY
         (InverterService__init__
            (GinlongAPI__init__
               (plant_portal [device "A" 1; device "B" 2]
                  (fun device_id =>
                     if json_eq_int device_id 1
                     then Response 200
                            (details [("sn", JStr "A"); ("state", JInt 1)])
                     else Response 200 (details [("sn", JStr "B")]))))
            midnight)).

Lemma errors_leave_the_cycle_witness :
  fst (async_update CPython.builtins second_stateless) = Raise ValueError /\
  fetched (_api (snd (async_update CPython.builtins second_stateless)))
  = [(JStr "A", true); (JStr "B", true)] /\
  scheduled (snd (async_update CPython.builtins second_stateless)) = [].
Proof.
  destruct (errors_leave_the_cycle CPython.builtins) as (Hraise & Hstate & _).
  assert (Hlog : _login second_stateless
                 = (Ok true, snd (_login second_stateless)))
    by (vm_compute; reflexivity).
  assert (Hfirst :
            for_fold [JStr "A"] SCHEDULE_NOK (update_inverter CPython.builtins)
              (snd (_login second_stateless))
            = (Ok SCHEDULE_OK,
               snd (for_fold [JStr "A"] SCHEDULE_NOK
                      (update_inverter CPython.builtins)
                      (snd (_login second_stateless)))))
    by (vm_compute; reflexivity).
  set (s1 := snd (for_fold [JStr "A"] SCHEDULE_NOK
                    (update_inverter CPython.builtins)
                    (snd (_login second_stateless)))) in *.
  set (data := {| get_inverter_data := [(INVERTER_SERIAL, VStr "B")] |}).
  assert (Hfetch :
            fetch_inverter_data CPython.builtins (JStr "B") (_api s1)
            = (Ok (Some data),
               snd (fetch_inverter_data CPython.builtins (JStr "B") (_api s1))))
    by (vm_compute; reflexivity).
  set (a2 := snd (fetch_inverter_data CPython.builtins (JStr "B") (_api s1)))
    in *.
  set (s2 := set_last_updated (Some (clock s1 (clock_reads s1)))
               (tick (set_api a2 s1))).
  assert (Hdispatch : update_devices data s2 = (Raise ValueError, s2)).
  { apply (Hstate data s2 (VStr "B") [(INVERTER_ENERGY_TODAY, 1%nat)]).
    - reflexivity.
    - vm_compute; reflexivity.
    - cbn. intros [H|[]]. discriminate H. }
  assert (H := Hraise second_stateless _
                 [(JStr "A", JInt 1); (JStr "B", JInt 2)]
                 [JStr "A"] (JStr "B") [] SCHEDULE_OK s1 data a2 ValueError s2
                 Hlog ltac:(vm_compute; reflexivity) eq_refl Hfirst Hfetch
                 Hdispatch).
  rewrite H. cbn [fst snd]. split; [reflexivity|].
  split; vm_compute; reflexivity.
Defined.

(** A set without "state" for a serial with a daily-energy subscriber:
    [ValueError] leaves the cycle, whatever the text built-ins do. *)
Lemma missing_state_escapes :
  (forall py, async_update py (energy_watch stateless)
              = (Raise ValueError,
                 snd (async_update py (energy_watch stateless)))) /\
  ~ (exists py u s', async_update py (energy_watch stateless) = (Ok u, s')).
Proof.
  split.
  - intros py. vm_compute. reflexivity.
  - intros (py & u & s' & H). vm_compute in H. discriminate H.
Qed.

(** ** The daily-energy rule *)

(** Every call of [data_updated] is noted. *)
Lemma data_updated_delivered v t o :
  delivered (data_updated v t o) = delivered o ++ [(v, t)].
Proof. unfold data_updated. destruct (negb _); reflexivity. Qed.

(** C1, as the code has it.  For every dispatch of the daily-energy
    attribute to its subscriber: before noon with state 2 the value
    delivered is 0; before noon with state 1 the value delivered is 0 when
    the state subscriber's last accepted timestamp is more than 10 minutes in
    the past, and the raw value when it is at most 10 minutes in the past or
    when there is none; in every other case the raw value is delivered.  The
    grace period of the source's comment is thus applied the wrong way
    round: 0 is forced after the 10 minutes, not during them. *)
Theorem energy_today_dispatch
  (data : GinlongData) (serial raw st : value) (mine : dict nat)
  (ref_energy ref_state : nat) (s : InverterService) :
  subscriptions_of (_subscriptions s) serial = Some mine ->
  dict_get mine INVERTER_ENERGY_TODAY = Some ref_energy ->
  dict_get mine INVERTER_STATE = Some ref_state ->
  dict_get (get_inverter_data data) INVERTER_ENERGY_TODAY = Some raw ->
  dict_get (get_inverter_data data) INVERTER_STATE = Some st ->
  exists v s',
    update_attribute data serial INVERTER_ENERGY_TODAY s = (Ok tt, s') /\
    delivered (objects s' ref_energy)
    = delivered (objects s ref_energy) ++ [(v, _last_updated s)] /\
    (morning s = true -> py_eq st (VInt 2) = true -> v = VInt 0) /\
    (morning s = true -> py_eq st (VInt 2) = false ->
     py_eq st (VInt 1) = true ->
     match measured (objects s ref_state) with
     | Some m =>
         (m + minutes 10 < clock s (S (clock_reads s)) -> v = VInt 0) /\
         (clock s (S (clock_reads s)) <= m + minutes 10 -> v = raw)
     | None => v = raw
     end) /\
    (morning s = false \/
     (py_eq st (VInt 2) = false /\ py_eq st (VInt 1) = false) -> v = raw).
Proof.
  intros Hs He Hst Hraw Hstate.
  unfold update_attribute. unfold bind at 1, gets at 1.
  rewrite Hs. unfold dict_contains. rewrite He.
  unfold bind at 1, lift at 1, __getattr__. rewrite Hraw.
  rewrite String.eqb_refl.
  unfold energy_today_value, __getattr__. rewrite Hstate.
  unfold morning, bind, now, lift, gets, ret, notify, modify.
  cbn -[py_eq hour minutes subscriber_of Z.ltb].
  destruct (hour (clock s (clock_reads s)) <? 12) eqn:Eam;
    destruct (py_eq st (VInt 2)) eqn:E2; destruct (py_eq st (VInt 1)) eqn:E1;
    cbn -[hour minutes subscriber_of Z.ltb];
    rewrite ?subscriber_of_spec; cbn -[hour minutes Z.ltb];
    rewrite ?Hs, ?He, ?Hst; cbn -[hour minutes Z.ltb].
  all: try (destruct (measured (objects s ref_state)) as [m|] eqn:Em;
            cbn -[hour minutes Z.ltb];
            [destruct (m + minutes 10 <? clock s (S (clock_reads s))) eqn:Elt;
             [apply Z.ltb_lt in Elt | apply Z.ltb_ge in Elt]|];
            cbn -[hour minutes Z.ltb]; rewrite ?Hs, ?He;
            cbn -[hour minutes Z.ltb]).
  all: eexists; eexists; (split; [reflexivity|]);
    (split; [cbn [objects]; rewrite Nat.eqb_refl;
            apply data_updated_delivered|]);
    (split; [|split]); intros; try congruence; try (intuition congruence);
    try (split; intros; first [reflexivity | lia]).
Qed.

(** *** The examples of the specification *)

Definition at_clock (h m : Z) : datetime := hours h + minutes m.

(** The set of inverter S1: its state and a daily energy of 12.5. *)
Definition reading (state : Z) : GinlongData :=
  {| get_inverter_data :=
       [ (INVERTER_SERIAL, VStr "S1");
         (INVERTER_STATE, VInt state);
         (INVERTER_ENERGY_TODAY, VFloat 12.5%float) ] |}.

(** A service whose clock shows [t], with a subscriber of "state"
    (reference 0) that last accepted an update at [last] and that sees no
    change now, and a subscriber of daily energy (reference 1). *)
Definition watching (a : GinlongAPI) (t : datetime) (last : option datetime)
  : InverterService :=
  {| _last_updated := Some t; _logintime := None;
     _subscriptions :=
       [ ("S1", [ (INVERTER_STATE, 0%nat); (INVERTER_ENERGY_TODAY, 1%nat) ]) ];
     _api := a;
     objects := fun ref => match ref with
                           | O => sensor false last
                           | _ => sensor true None
                           end;
     clock := fun _ => t; clock_reads := 0; scheduled := [] |}.

(** What the daily-energy subscriber is told when the set is dispatched. *)
Definition told (state : Z) (t : datetime) (last : option datetime)
  : result unit * list (value * option datetime) :=
  let (r, s') := update_devices (reading state)
                   (watching (GinlongAPI__init__ unreachable) t last) in
  (r, delivered (objects s' 1%nat)).

Lemma energy_today_dispatch_witness :
  exists s',
    update_attribute (reading 1) (VStr "S1") INVERTER_ENERGY_TODAY
      (watching (GinlongAPI__init__ unreachable) (at_clock 8 0)
         (Some (at_clock 7 55)))
    = (Ok tt, s') /\
    delivered (objects s' 1%nat)
    = [(VFloat 12.5%float, Some (at_clock 8 0))].
Proof.
  destruct (energy_today_dispatch (reading 1) (VStr "S1")
              (VFloat 12.5%float) (VInt 1)
              [ (INVERTER_STATE, 0%nat); (INVERTER_ENERGY_TODAY, 1%nat) ]
              1%nat 0%nat
              (watching (GinlongAPI__init__ unreachable) (at_clock 8 0)
                 (Some (at_clock 7 55)))
              eq_refl eq_refl eq_refl eq_refl eq_refl)
    as (v & s' & Hrun & Htold & _ & Hgrace & _).
  exists s'. split; [exact Hrun|]. rewrite Htold.
  destruct (Hgrace eq_refl eq_refl eq_refl) as [_ Hraw].
  rewrite Hraw; [reflexivity | vm_compute; discriminate].
Defined.

(** At 08:00 with state 1, accepted 5 minutes ago: the raw value is
    delivered, where the grace period asks for 0. *)
Lemma energy_today_within_grace :
  told 1 (at_clock 8 0) (Some (at_clock 7 55))
  = (Ok tt, [(VFloat 12.5%float, Some (at_clock 8 0))]).
Proof. vm_compute. reflexivity. Qed.

(** The same with the state accepted 15 minutes ago: 0 is delivered, where
    the raw value is due. *)
Lemma energy_today_after_grace :
  told 1 (at_clock 8 0) (Some (at_clock 7 45))
  = (Ok tt, [(VInt 0, Some (at_clock 8 0))]).
Proof. vm_compute. reflexivity. Qed.

(** At 08:00 with state 2, 0 is delivered; at 14:00 the raw value. *)
Lemma energy_today_standby :
  told 2 (at_clock 8 0) (Some (at_clock 7 55))
  = (Ok tt, [(VInt 0, Some (at_clock 8 0))]) /\
  told 2 (at_clock 14 0) (Some (at_clock 7 55))
  = (Ok tt, [(VFloat 12.5%float, Some (at_clock 14 0))]).
Proof. split; vm_compute; reflexivity. Qed.

(** * The rest of the service *)

(** ** [service.py]: discovery *)

(** [MAX_RETRIES] and [RETRY_DELAY]: the retries of the discovery and the
    seconds between them. *)
Definition MAX_RETRIES : Z := 3.
Definition RETRY_DELAY : Z := 10.

(** The dictionary [capabilities]: for an inverter serial, which is a key
    of the inverter list, the attribute names of its measurement set. *)
Definition capability_table : Type := list (json * list string).

(** [capabilities[inverter_serial] = names] *)
Fixpoint capability_set
  (capabilities : capability_table) (inverter_serial : json)
  (names : list string) : capability_table :=
  match capabilities with
  | [] => [(inverter_serial, names)]
  | (k, v) :: rest =>
      if key_eq k inverter_serial then (k, names) :: rest
      else (k, v) :: capability_set rest inverter_serial names
  end.

(** [not capabilities] *)
Definition no_capabilities (capabilities : capability_table) : bool :=
  match capabilities with
  | [] => true
  | _ => false
  end.

Section Discovery.
Context (py : Builtins).

(** The body of the loop of [_do_discover]. *)
Definition discover_inverter
  (capabilities : capability_table) (inverter_serial : json)
  : M InverterService capability_table :=
  data <- zoom _api set_api (fetch_inverter_data py inverter_serial) ;;
  match data with
  | Some data =>
      names <- lift (keys data) ;;
      ret (capability_set capabilities inverter_serial names)
  | None => ret capabilities
  end.

(** [InverterService._do_discover]: discover for all inverters the
    attributes it supports. *)
Definition _do_discover : M InverterService capability_table :=
  let capabilities := [] in
  logged_in <- _login ;;
  if logged_in then
    t <- now ;;
    modify (set_logintime (Some t)) ;;
    inverters <- gets (fun s => inverters (_api s)) ;;
    match inverters with
    | None => ret capabilities
    | Some inverters =>
        for_fold (map fst inverters) capabilities discover_inverter
    end
  else ret capabilities.

(** The service while [discover] runs, with the pauses it has taken. *)
Record Discovery : Type := {
  service : InverterService;
  (** ghost: the seconds of each [asyncio.sleep], oldest first *)
  slept : list Z
}.

Definition set_service (s : InverterService) (d : Discovery) : Discovery :=
  {| service := s; slept := slept d |}.

(** [await asyncio.sleep(delay)] *)
Definition sleep (delay : Z) : M Discovery unit :=
  modify (fun d => {| service := service d; slept := slept d ++ [delay] |}).

(** The [while] loop of [discover], from its test on.  The recursion is on
    [fuel], a bound on the turns of the loop that are left. *)
Fixpoint discover_loop
  (fuel : nat) (capabilities : capability_table) (retries : Z)
  : M Discovery (option capability_table) :=
  if no_capabilities capabilities && (retries <=? MAX_RETRIES) then
    match fuel with
    | O => ret None
    | S fuel =>
        capabilities <- zoom service set_service _do_discover ;;
        if no_capabilities capabilities then
          sleep RETRY_DELAY ;;
          discover_loop fuel capabilities (retries + 1)
        else discover_loop fuel capabilities retries
    end
  else ret (Some capabilities).

(** [InverterService.discover]: try to discover and retry if needed.  The
    loop takes at most [MAX_RETRIES + 1] turns; [None] would say that the
    turns allowed here were not enough. *)
Definition discover : M Discovery (option capability_table) :=
  discover_loop (Z.to_nat (MAX_RETRIES + 1)) [] 0.

End Discovery.

(** ** Discovery: properties *)

(** A loop with a local variable keeps what each of its turns keeps. *)
Lemma for_fold_invariant {S A B : Type} (R : S -> S -> Prop) (P : B -> Prop)
      (l : list A) (body : B -> A -> M S B) :
  (forall s, R s s) ->
  (forall s1 s2 s3, R s1 s2 -> R s2 s3 -> R s1 s3) ->
  (forall acc x s r s', body acc x s = (r, s') -> R s s') ->
  (forall acc x s acc' s', P acc -> body acc x s = (Ok acc', s') -> P acc') ->
  forall acc s r s',
    for_fold l acc body s = (r, s') ->
    R s s' /\ (P acc -> forall acc', r = Ok acc' -> P acc').
Proof.
  intros Hrefl Htrans Hstep Hacc.
  induction l as [|x l IH]; intros acc s r s' H.
  - injection H as <- <-. split; [apply Hrefl|].
    intros HP acc' E. now injection E as <-.
  - cbn [for_fold] in H. unfold bind in H.
    destruct (body acc x s) as [[acc1|e] s1] eqn:E1.
    + destruct (IH _ _ _ _ H) as [HR HP]. split.
      * eapply Htrans; [eapply Hstep; exact E1 | exact HR].
      * intros Pacc. apply HP. eapply Hacc; eassumption.
    + injection H as <- <-. split; [eapply Hstep; exact E1|].
      intros _ acc' E. discriminate E.
Qed.

(** What discovery leaves alone: the schedule, the update time, the
    subscription table, the subscribers and the clock itself. *)
Definition undisturbed (s s' : InverterService) : Prop :=
  scheduled s' = scheduled s /\ _last_updated s' = _last_updated s /\
  _subscriptions s' = _subscriptions s /\ objects s' = objects s /\
  clock s' = clock s.

Lemma undisturbed_refl s : undisturbed s s.
Proof. unfold undisturbed; tauto. Qed.

Lemma undisturbed_trans s1 s2 s3 :
  undisturbed s1 s2 -> undisturbed s2 s3 -> undisturbed s1 s3.
Proof. unfold undisturbed; intuition congruence. Qed.

(** The attribute names of a capability start with "state". *)
Definition state_first (capabilities : capability_table) : Prop :=
  forall k names, In (k, names) capabilities ->
  exists rest, names = INVERTER_STATE :: rest.

Lemma capability_set_in capabilities k names k' names' :
  In (k', names') (capability_set capabilities k names) ->
  names' = names \/ In (k', names') capabilities.
Proof.
  induction capabilities as [|[k0 v0] rest IH]; simpl.
  - intros [H|[]]. injection H as _ <-. now left.
  - destruct (key_eq k0 k); simpl.
    + intros [H|H]; [injection H as _ <-; now left | right; now right].
    + intros [H|H]; [right; now left|].
      destruct (IH H); [now left | right; now right].
Qed.

Section DiscoveryFacts.
Context (py : Builtins).

(** One turn of the loop of [_do_discover]: it changes the client only, by
    one fetch, and it neither logs in nor out. *)
Lemma discover_inverter_step capabilities k s r s' :
  discover_inverter py capabilities k s = (r, s') ->
  undisturbed s s' /\ _logintime s' = _logintime s /\
  clock_reads s' = clock_reads s /\
  _online (_api s') = _online (_api s) /\
  (state_first capabilities -> forall c, r = Ok c -> state_first c).
Proof.
  unfold discover_inverter, bind, zoom, lift, ret.
  destruct (fetch_inverter_data py k (_api s)) as [[[data|]|e] a1] eqn:E;
    destruct (fetch_inverter_data_frame py _ _ _ _ E) as (Ho & _);
    cbn.
  - destruct (keys data) as [names|e] eqn:Ek; intros H; injection H as <- <-;
      (split; [unfold undisturbed; cbn; tauto|]); cbn;
      (repeat split; try assumption).
    + intros Hc c Ec. injection Ec as <-. intros k' names' Hin.
      destruct (capability_set_in _ _ _ _ _ Hin) as [->|Hold];
        [|eapply Hc; exact Hold].
      unfold keys in Ek.
      destruct (list_remove INVERTER_STATE (dict_keys (get_inverter_data data)));
        [|discriminate Ek].
      injection Ek as <-. eauto.
    + intros _ c Ec. discriminate Ec.
  - intros H; injection H as <- <-.
    split; [unfold undisturbed; cbn; tauto|]. cbn.
    repeat split; try assumption. intros Hc c Ec. now injection Ec as <-.
  - intros H; injection H as <- <-.
    split; [unfold undisturbed; cbn; tauto|]. cbn.
    repeat split; try assumption. intros _ c Ec. discriminate Ec.
Qed.

(** The loop of [_do_discover]. *)
Lemma discover_inverters ks : forall capabilities s r s',
  for_fold ks capabilities (discover_inverter py) s = (r, s') ->
  (undisturbed s s' /\ _logintime s' = _logintime s /\
   clock_reads s' = clock_reads s /\
   _online (_api s') = _online (_api s)) /\
  (state_first capabilities -> forall c, r = Ok c -> state_first c).
Proof.
  apply (for_fold_invariant
           (fun s s' => undisturbed s s' /\ _logintime s' = _logintime s /\
                        clock_reads s' = clock_reads s /\
                        _online (_api s') = _online (_api s))
           state_first).
  - intros s. split; [apply undisturbed_refl | tauto].
  - intros s1 s2 s3 (U1 & L1 & C1 & O1) (U2 & L2 & C2 & O2).
    split; [eapply undisturbed_trans; eassumption|].
    repeat split; congruence.
  - intros acc x s r s' H.
    destruct (discover_inverter_step _ _ _ _ _ H) as (U & L & C & O & _).
    tauto.
  - intros acc x s acc' s' Hc H.
    destruct (discover_inverter_step _ _ _ _ _ H) as (_ & _ & _ & _ & Hs).
    now apply Hs.
Qed.

(** [_do_discover], after its login. *)
Lemma _do_discover_unfold s :
  _do_discover py s =
    match _login s with
    | (Ok true, s1) =>
        match inverters (_api s1) with
        | None =>
            (Ok [], set_logintime (Some (clock s1 (clock_reads s1))) (tick s1))
        | Some l =>
            for_fold (map fst l) [] (discover_inverter py)
              (set_logintime (Some (clock s1 (clock_reads s1))) (tick s1))
        end
    | (Ok false, s1) => (Ok [], s1)
    | (Raise e, s1) => (Raise e, s1)
    end.
Proof.
  unfold _do_discover, bind at 1.
  destruct (_login s) as [[[|]|e] s1]; try reflexivity.
  unfold bind, now, modify, gets, inverters. cbn.
  destruct (_inverter_list (_api s1)); reflexivity.
Qed.

End DiscoveryFacts.

(** X1.  A discovery pass never asks for a next update, never sets the
    update time, never changes the subscription table and never notifies a
    subscriber; and, unlike an update cycle, it does not log out when a
    fetch returns no data: the session is as its login left it. *)
Theorem _do_discover_undisturbed (py : Builtins) (s : InverterService) :
  undisturbed s (snd (_do_discover py s)) /\
  _online (_api (snd (_do_discover py s))) = _online (_api (snd (_login s))).
Proof.
  rewrite _do_discover_unfold.
  destruct (_login s) as [[[|]|e] s1] eqn:El;
    destruct (_login_frame _ _ _ El) as (F1 & F2 & F3 & F4 & F5 & _);
    assert (U1 : undisturbed s s1) by (unfold undisturbed; tauto).
  - destruct (inverters (_api s1)) as [l|].
    + destruct (for_fold (map fst l) [] (discover_inverter py) _)
        as [r s2] eqn:Ef.
      destruct (discover_inverters py _ _ _ _ _ Ef) as ((U & _ & _ & O) & _).
      cbn [snd]. split; [|exact O].
      eapply undisturbed_trans; [exact U1|].
      eapply undisturbed_trans; [|exact U]. unfold undisturbed; cbn; tauto.
    + cbn. split; [|reflexivity]. unfold undisturbed in *; cbn; tauto.
  - cbn [snd]. split; [exact U1 | reflexivity].
  - cbn [snd]. split; [exact U1 | reflexivity].
Qed.

(** X2.  In the capabilities that a discovery pass returns, the attribute
    names of every inverter start with "state". *)
Theorem _do_discover_state_first
  (py : Builtins) (s : InverterService) (capabilities : capability_table) :
  fst (_do_discover py s) = Ok capabilities -> state_first capabilities.
Proof.
  rewrite _do_discover_unfold.
  assert (Hnone : state_first []) by (intros k names []).
  destruct (_login s) as [[[|]|e] s1].
  - destruct (inverters (_api s1)) as [l|].
    + destruct (for_fold (map fst l) [] (discover_inverter py) _)
        as [r s2] eqn:Ef.
      destruct (discover_inverters py _ _ _ _ _ Ef) as (_ & Hs).
      cbn [fst]. intros ->. now apply Hs.
    + cbn [fst]. intros H. now injection H as <-.
  - cbn [fst]. intros H. now injection H as <-.
  - discriminate.
Qed.

(** A new service at a plant with one inverter that reports its state. *)
Definition surveyed : InverterService :=
  InverterService__init__
    (GinlongAPI__init__
       (plant_portal [device "S1" 1]
          (fun _ => Response 200
                      (details [("sn", JStr "S1"); ("state", JInt 1)]))))
    midnight.

Lemma _do_discover_state_first_witness :
  fst (_do_discover CPython.builtins surveyed)
  = Ok [(JStr "S1", [INVERTER_STATE; INVERTER_SERIAL])] /\
  state_first [(JStr "S1", [INVERTER_STATE; INVERTER_SERIAL])].
Proof.
  assert (H : fst (_do_discover CPython.builtins surveyed)
              = Ok [(JStr "S1", [INVERTER_STATE; INVERTER_SERIAL])])
    by (vm_compute; reflexivity).
  split; [exact H|].
  exact (_do_discover_state_first CPython.builtins surveyed _ H).
Defined.

(** X3.  A discovery pass that finds the session online restarts the
    login timer: the login time becomes the time of the pass, although no
    login took place. *)
Theorem _do_discover_restarts_login_timer
  (py : Builtins) (s : InverterService) :
  is_online (_api s) = true ->
  _logintime (snd (_do_discover py s)) = Some (clock s (clock_reads s)) /\
  clock_reads (snd (_do_discover py s)) = S (clock_reads s).
Proof.
  intros Hon. rewrite _do_discover_unfold, (_login_online s Hon).
  destruct (inverters (_api s)) as [l|]; [|cbn; tauto].
  destruct (for_fold (map fst l) [] (discover_inverter py) _) as [r s2] eqn:Ef.
  destruct (discover_inverters py _ _ _ _ _ Ef) as ((_ & L & C & _) & _).
  cbn [snd]. rewrite L, C. cbn. tauto.
Qed.

(** A service that has logged in at 09:00 and is asked at 10:30. *)
Definition at_half_past_ten : InverterService :=
  {| _last_updated := None; _logintime := Some (at_clock 9 0);
     _subscriptions := [];
     _api := {| plantid := 1; _session := true; _data := []; _online := true;
                _inverter_list := Some [(JStr "S1", JInt 1)];
                portal := unreachable; sent := []; fetched := [] |};
     objects := fun _ => sensor true None;
     clock := fun _ => at_clock 10 30; clock_reads := 0; scheduled := [] |}.

Lemma _do_discover_restarts_login_timer_witness :
  _logintime (snd (_do_discover CPython.builtins at_half_past_ten))
  = Some (at_clock 10 30).
Proof.
  apply (_do_discover_restarts_login_timer CPython.builtins at_half_past_ten).
  reflexivity.
Defined.

Section DiscoverLoop.
Context (py : Builtins).

Lemma discover_loop_done fuel capabilities retries d :
  no_capabilities capabilities = false ->
  discover_loop py fuel capabilities retries d = (Ok (Some capabilities), d).
Proof. intros H. destruct fuel; simpl; rewrite H; reflexivity. Qed.

(** One turn of the loop of [discover]. *)
Lemma discover_loop_step fuel retries d :
  retries <= MAX_RETRIES ->
  discover_loop py (S fuel) [] retries d =
    match _do_discover py (service d) with
    | (Ok [], s1) =>
        discover_loop py fuel [] (retries + 1)
          {| service := s1; slept := slept d ++ [RETRY_DELAY] |}
    | (Ok capabilities, s1) => (Ok (Some capabilities), set_service s1 d)
    | (Raise e, s1) => (Raise e, set_service s1 d)
    end.
Proof.
  intros H. apply Z.leb_le in H.
  cbn [discover_loop no_capabilities andb]. rewrite H.
  unfold bind at 1, zoom.
  destruct (_do_discover py (service d)) as [[[|c cs]|e] s1].
  - reflexivity.
  - cbn [no_capabilities]. now rewrite discover_loop_done.
  - reflexivity.
Qed.

(** The loop of [discover] from [retries] on: it pauses after each pass
    that discovered nothing, and the turns allowed are enough. *)
Lemma discover_loop_spec fuel : forall retries d,
  (Z.to_nat (MAX_RETRIES + 1 - retries) <= fuel)%nat ->
  exists n : nat,
    slept (snd (discover_loop py fuel [] retries d))
    = slept d ++ repeat RETRY_DELAY n /\
    match fst (discover_loop py fuel [] retries d) with
    | Ok None => False
    | Ok (Some []) => Z.of_nat n = Z.max 0 (MAX_RETRIES + 1 - retries)
    | Ok (Some (_ :: _)) | Raise _ => Z.of_nat n < MAX_RETRIES + 1 - retries
    end.
Proof.
  induction fuel as [|fuel IH]; intros retries d Hfuel;
    (destruct (retries <=? MAX_RETRIES) eqn:E;
     [apply Z.leb_le in E
     |cbn [discover_loop no_capabilities andb]; rewrite E;
      apply Z.leb_gt in E; exists 0%nat; unfold ret; cbn [fst snd repeat];
      rewrite app_nil_r; split; [reflexivity | unfold MAX_RETRIES in *; lia]]).
  - exfalso. unfold MAX_RETRIES in *. lia.
  - rewrite (discover_loop_step fuel retries d E).
    destruct (_do_discover py (service d)) as [[[|c cs]|e] s1].
    + destruct (IH (retries + 1)
                  {| service := s1; slept := slept d ++ [RETRY_DELAY] |})
        as (n & Hs & Hr); [unfold MAX_RETRIES in *; lia|].
      exists (S n). rewrite Hs. cbn [slept repeat].
      rewrite <- app_assoc. split; [reflexivity|].
      destruct (fst (discover_loop py fuel [] (retries + 1) _))
        as [[[|]|]|]; unfold MAX_RETRIES in *; lia.
    + exists 0%nat. cbn [fst snd repeat slept set_service].
      rewrite app_nil_r. split; [reflexivity|].
      unfold MAX_RETRIES in *. lia.
    + exists 0%nat. cbn [fst snd repeat slept set_service].
      rewrite app_nil_r. split; [reflexivity|].
      unfold MAX_RETRIES in *. lia.
Qed.

End DiscoverLoop.

(** X4.  [discover] ends within its [MAX_RETRIES + 1 = 4] passes.  It
    pauses [RETRY_DELAY] seconds after every pass that discovered nothing,
    also after the last one: four pauses when it returns no capabilities, at
    most three when it returns capabilities or when an error leaves it. *)
Theorem discover_retries (py : Builtins) (d : Discovery) :
  exists n : nat,
    slept (snd (discover py d)) = slept d ++ repeat RETRY_DELAY n /\
    match fst (discover py d) with
    | Ok None => False
    | Ok (Some []) => n = 4%nat
    | Ok (Some (_ :: _)) | Raise _ => (n <= 3)%nat
    end.
Proof.
  destruct (discover_loop_spec py (Z.to_nat (MAX_RETRIES + 1)) 0 d)
    as (n & Hs & Hr); [cbn; lia|].
  exists n. split; [exact Hs|]. unfold discover.
  destruct (fst (discover_loop py (Z.to_nat (MAX_RETRIES + 1)) [] 0 d))
    as [[[|]|]|]; unfold MAX_RETRIES in *; lia.
Qed.

(** ** One schedule per cycle *)





Section Listed.
Context (py : Builtins).









End Listed.








(** ** Subscribers and the subscription table *)

(** [self._subscriptions[serial][attribute]], when both keys are there. *)
Definition subscribed (s : InverterService) (serial attribute : string)
  : option nat :=
  match dict_get (_subscriptions s) serial with
  | Some mine => dict_get mine attribute
  | None => None
  end.

(** X5.  [subscribe] never raises; afterwards the subscriber is the one
    registered for the attribute of the serial, in place of an earlier one,
    every other registration is what it was, and nothing but the
    subscription table has changed. *)
Theorem subscribe_registers
  (subscriber : nat) (serial attribute : string) (s : InverterService) :
  exists s',
    subscribe subscriber serial attribute s = (Ok tt, s') /\
    subscribed s' serial attribute = Some subscriber /\
    (forall serial' attribute',
       serial' <> serial \/ attribute' <> attribute ->
       subscribed s' serial' attribute' = subscribed s serial' attribute') /\
    s' = set_subscriptions (_subscriptions s') s.
Proof.
  unfold subscribe, subscribed, bind, gets, modify, ret, dict_contains.
  destruct (dict_get (_subscriptions s) serial) as [mine|] eqn:E; cbn.
  - rewrite E. eexists. split; [reflexivity|]. cbn.
    rewrite dict_get_set_same. split; [apply dict_get_set_same|].
    split; [|reflexivity].
    intros serial' attribute' H.
    destruct (String.eqb_spec serial' serial) as [->|Hne].
    + rewrite dict_get_set_same, E.
      destruct H as [H|H]; [contradiction|]. now apply dict_get_set_other.
    + now rewrite dict_get_set_other.
  - rewrite dict_get_set_same. eexists. split; [reflexivity|]. cbn.
    rewrite dict_get_set_same. split; [first [apply dict_get_set_same | cbn; now rewrite String.eqb_refl]|].
    split; [|reflexivity].
    intros serial' attribute' H.
    destruct (String.eqb_spec serial' serial) as [->|Hne].
    + rewrite dict_get_set_same, E.
      destruct H as [H|H]; [contradiction|]. cbn.
      destruct (String.eqb_spec attribute attribute'); [congruence | reflexivity].
    + now rewrite !dict_get_set_other.
Qed.

Lemma datetime_eqb_refl t : datetime_eqb t t = true.
Proof. destruct t; [apply Z.eqb_refl | reflexivity]. Qed.

Lemma datetime_eqb_eq a b : datetime_eqb a b = true <-> a = b.
Proof.
  destruct a as [x|], b as [y|]; cbn; split; intros H;
    try discriminate; try reflexivity.
  - apply Z.eqb_eq in H. now subst.
  - injection H as ->. apply Z.eqb_refl.
Qed.

(** X6.  Every call of [data_updated] is one delivery.  When the timestamp
    delivered differs from the one measured, [do_update] is called, once,
    with the value and the timestamp, and the measured timestamp becomes the
    one delivered when [do_update] accepts and stays when it declines.
    When the timestamp is the one measured, [do_update] is not called and
    nothing changes; so once a timestamp is measured, further deliveries
    with it reach [do_update] no more. *)
Theorem data_updated_once
  (value : Py.value) (t : option datetime) (self : ServiceSubscriber) :
  delivered (data_updated value t self) = delivered self ++ [(value, t)] /\
  do_update (data_updated value t self) = do_update self /\
  (measured self <> t ->
   updates (data_updated value t self) = updates self ++ [(value, t)] /\
   measured (data_updated value t self)
   = if do_update self (updates self) value t then t else measured self) /\
  (measured self = t ->
   updates (data_updated value t self) = updates self /\
   measured (data_updated value t self) = t) /\
  (forall value',
     measured (data_updated value t self) = t ->
     updates (data_updated value' t (data_updated value t self))
     = updates (data_updated value t self) /\
     measured (data_updated value' t (data_updated value t self)) = t).
Proof.
  assert (Hsame : forall o v, measured o = t ->
            updates (data_updated v t o) = updates o /\
            measured (data_updated v t o) = t).
  { intros o v Ho. unfold data_updated, measured in *.
    rewrite Ho, datetime_eqb_refl. cbn. auto. }
  split; [unfold data_updated; destruct (negb _); reflexivity|].
  split; [unfold data_updated; destruct (negb _); reflexivity|].
  split; [|split].
  - intros Hne. unfold data_updated, measured in *.
    destruct (datetime_eqb (_measured self) t) eqn:E.
    + apply datetime_eqb_eq in E. contradiction.
    + cbn. split; reflexivity.
  - intros H. now apply Hsame.
  - intros value' H. now apply Hsame.
Qed.

(** ** The measurement set *)

Lemma list_remove_permutation x l l' :
  list_remove x l = Ok l' -> Permutation l (x :: l').
Proof.
  revert l'. induction l as [|y l IH]; intros l'; simpl; [discriminate|].
  destruct (String.eqb_spec y x) as [->|Hne].
  - intros H. injection H as <-. reflexivity.
  - destruct (list_remove x l) as [rest|]; [|discriminate].
    intros H. injection H as <-.
    rewrite (IH rest eq_refl). apply perm_swap.
Qed.

(** X7.  [keys()] either raises [ValueError], exactly when the set has no
    "state", or returns the attribute names of the set in another order,
    none lost and none added; [getattr] reads every name it returns. *)
Theorem keys_readable (data : GinlongData) :
  match keys data with
  | Ok names =>
      Permutation names (dict_keys (get_inverter_data data)) /\
      forall name, In name names -> exists v, __getattr__ data name = Ok v
  | Raise e =>
      e = ValueError /\
      ~ In INVERTER_STATE (dict_keys (get_inverter_data data))
  end.
Proof.
  unfold keys.
  destruct (list_remove INVERTER_STATE (dict_keys (get_inverter_data data)))
    as [rest|e] eqn:E; cbn.
  - assert (P := list_remove_permutation _ _ _ E). split; [now symmetry|].
    intros name Hin. unfold __getattr__.
    destruct (dict_get (get_inverter_data data) name) as [v|] eqn:Eg; [eauto|].
    apply dict_get_none_iff in Eg. exfalso. apply Eg.
    eapply Permutation_in; [symmetry; exact P | exact Hin].
  - destruct (in_dec string_dec INVERTER_STATE
                (dict_keys (get_inverter_data data))) as [Hin|Hout].
    + exfalso. clear -E Hin.
      induction (dict_keys (get_inverter_data data)) as [|y l IH];
        [contradiction|].
      simpl in E. destruct (String.eqb_spec y INVERTER_STATE); [discriminate|].
      destruct Hin as [->|Hin]; [congruence|].
      destruct (list_remove INVERTER_STATE l); [discriminate|].
      now apply IH.
    + rewrite (list_remove_absent _ _ Hout) in E. injection E as <-. auto.
Qed.

(** ** Post-processing *)

(** The attributes an element list names are all there with the value. *)
Definition unused (d : dict value) (value : Py.value) (elements : list string)
  : Prop :=
  Forall (fun element => exists v, dict_get d element = Some v /\
                                   py_eq v value = true) elements.

Lemma all_unused_iff d value elements :
  all_unused d value elements = true <-> unused d value elements.
Proof.
  unfold unused. induction elements as [|e l IH]; simpl.
  - split; [constructor | reflexivity].
  - destruct (dict_get d e) as [v|] eqn:E.
    + destruct (py_eq v value) eqn:Ev; simpl.
      * rewrite IH. split; [intros H; constructor; eauto|].
        intros H. now inversion H.
      * split; [discriminate|]. intros H. inversion H as [|? ? (w & Hw & Hv)].
        congruence.
    + split; [discriminate|]. intros H. inversion H as [|? ? (w & Hw & Hv)].
      congruence.
Qed.

(** The second loop of [_purge_if_unused], over distinct elements that are
    all there. *)
Lemma pop_all elements : forall d,
  NoDup elements -> well_formed d ->
  (forall e, In e elements -> dict_get d e <> None) ->
  exists d',
    for_each elements pop d = (Ok tt, d') /\ well_formed d' /\
    forall k, dict_get d' k
              = if in_dec string_dec k elements then None else dict_get d k.
Proof.
  induction elements as [|e l IH]; intros d Hnd Hwf Hin.
  - exists d. split; [reflexivity|]. split; [exact Hwf|]. reflexivity.
  - inversion Hnd as [|? ? Hnot Hnd']; subst.
    cbn [for_each]. unfold bind, pop at 1.
    destruct (dict_get d e) eqn:Ee; [|exfalso; eapply Hin; [now left|exact Ee]].
    destruct (IH (dict_pop d e) Hnd' (well_formed_pop d e Hwf))
      as (d' & Hrun & Hwf' & Hget).
    { intros x Hx. rewrite dict_get_pop_other by (intros ->; contradiction).
      apply Hin. now right. }
    exists d'. split; [exact Hrun|]. split; [exact Hwf'|].
    intros k. rewrite Hget.
    destruct (in_dec string_dec k l) as [Hl|Hl];
      destruct (in_dec string_dec k (e :: l)) as [Hel|Hel];
      try reflexivity.
    + exfalso. apply Hel. now right.
    + destruct Hel as [<-|Hel]; [|contradiction].
      now apply dict_get_pop_same.
    + apply dict_get_pop_other. intros ->. apply Hel. now left.
Qed.

(** X8.  [_purge_if_unused] with distinct elements never raises: when all
    of them are there with the value it removes them all and leaves every
    other attribute, and otherwise it leaves the set as it is. *)
Theorem _purge_if_unused_distinct
  (value : Py.value) (elements : list string) (d : dict Py.value) :
  well_formed d -> NoDup elements ->
  exists d',
    _purge_if_unused value elements d = (Ok tt, d') /\
    (unused d value elements ->
     forall k, dict_get d' k
               = if in_dec string_dec k elements then None else dict_get d k) /\
    (~ unused d value elements -> d' = d).
Proof.
  intros Hwf Hnd. unfold _purge_if_unused, bind, gets.
  destruct (all_unused d value elements) eqn:E.
  - apply all_unused_iff in E.
    destruct (pop_all elements d Hnd Hwf) as (d' & Hrun & _ & Hget).
    { intros e He. unfold unused in E. rewrite Forall_forall in E.
      destruct (E e He) as (v & -> & _). discriminate. }
    exists d'. split; [exact Hrun|]. split; [auto | contradiction].
  - exists d. split; [reflexivity|]. split; [|reflexivity].
    intros H. apply all_unused_iff in H. congruence.
Qed.

Definition three_phases : dict value :=
  [ (PHASE1_CURRENT, VFloat 0%float); (INVERTER_STATE, VInt 1);
    (PHASE2_CURRENT, VInt 0); (PHASE3_CURRENT, VFloat 0%float) ].

Lemma _purge_if_unused_distinct_witness :
  _purge_if_unused (VFloat 0%float)
    [PHASE1_CURRENT; PHASE2_CURRENT; PHASE3_CURRENT] three_phases
  = (Ok tt, [(INVERTER_STATE, VInt 1)]) /\
  exists d',
    _purge_if_unused (VFloat 0%float)
      [PHASE1_CURRENT; PHASE2_CURRENT; PHASE3_CURRENT] three_phases
    = (Ok tt, d') /\
    dict_get d' PHASE2_CURRENT = None /\
    dict_get d' INVERTER_STATE = Some (VInt 1).
Proof.
  split; [vm_compute; reflexivity|].
  destruct (_purge_if_unused_distinct (VFloat 0%float)
              [PHASE1_CURRENT; PHASE2_CURRENT; PHASE3_CURRENT] three_phases)
    as (d' & Hrun & Hgone & _).
  - unfold well_formed. simpl. repeat constructor; simpl; intuition discriminate.
  - repeat constructor; simpl; intuition discriminate.
  - exists d'. split; [exact Hrun|].
    assert (Hu : unused three_phases (VFloat 0%float)
                   [PHASE1_CURRENT; PHASE2_CURRENT; PHASE3_CURRENT])
      by (repeat constructor; eexists; split; reflexivity).
    split; [exact (Hgone Hu PHASE2_CURRENT) | exact (Hgone Hu INVERTER_STATE)].
Defined.

(** The attributes that post-processing may touch. *)
Definition post_processed : list string :=
  timestamps ++ [ PHASE1_CURRENT; PHASE1_VOLTAGE; PHASE2_CURRENT;
                  PHASE2_VOLTAGE; PHASE3_CURRENT; PHASE3_VOLTAGE ].

(** What a step of post-processing keeps, however it ends. *)
Definition cleaned (touched : list string) (d d' : dict value) : Prop :=
  (forall k, ~ In k touched -> dict_get d' k = dict_get d k) /\
  (forall k, In k (dict_keys d') -> In k (dict_keys d)) /\
  (well_formed d -> well_formed d').

Lemma cleaned_refl touched d : cleaned touched d d.
Proof. unfold cleaned; tauto. Qed.

Lemma cleaned_trans touched d1 d2 d3 :
  cleaned touched d1 d2 -> cleaned touched d2 d3 -> cleaned touched d1 d3.
Proof.
  intros (G1 & K1 & W1) (G2 & K2 & W2). split; [|split]; auto.
  intros k Hk. now rewrite G2, G1.
Qed.

Lemma bind_invariant {S A B : Type} (R : S -> S -> Prop)
      (m : M S A) (k : A -> M S B) :
  (forall s1 s2 s3, R s1 s2 -> R s2 s3 -> R s1 s3) ->
  (forall s r s', m s = (r, s') -> R s s') ->
  (forall a s r s', k a s = (r, s') -> R s s') ->
  forall s r s', bind m k s = (r, s') -> R s s'.
Proof.
  intros Htrans Hm Hk s r s' H. unfold bind in H.
  destruct (m s) as [[a|e] s1] eqn:E.
  - eapply Htrans; [eapply Hm; exact E | eapply Hk; exact H].
  - injection H as <- <-. eapply Hm; exact E.
Qed.

Section PostProcessFrame.
Context (py : Builtins).

Lemma fix_timestamp_cleaned touched k d r d' :
  In k touched -> fix_timestamp py k d = (r, d') -> cleaned touched d d'.
Proof.
  intros Hk. unfold fix_timestamp, bind, gets, lift, modify.
  destruct (dict_get d k) as [x|] eqn:E.
  - destruct (value_to_float py x) as [f|e]; intros H; injection H as <- <-;
      [|apply cleaned_refl].
    split; [|split].
    + intros k' Hk'. apply dict_get_set_other. intros ->. contradiction.
    + intros k'. rewrite dict_keys_set_present; [auto|].
      eapply dict_get_some_in; exact E.
    + apply well_formed_set.
  - intros H; injection H as <- <-. apply cleaned_refl.
Qed.

Lemma _purge_if_unused_cleaned touched value c v d r d' :
  In c touched -> In v touched -> c <> v ->
  _purge_if_unused value [c; v] d = (r, d') -> cleaned touched d d'.
Proof.
  intros Hc Hv Hne. rewrite _purge_if_unused_pair by exact Hne.
  destruct (all_unused d value [c; v]); intros H; injection H as <- <-;
    [|apply cleaned_refl].
  split; [|split].
  + intros k Hk. rewrite !dict_get_pop_other; [reflexivity| |];
      intros ->; contradiction.
  + intros k Hk. eapply dict_keys_pop_incl, dict_keys_pop_incl; exact Hk.
  + intros Hwf. now apply well_formed_pop, well_formed_pop.
Qed.

End PostProcessFrame.

(** Post-processing as a whole keeps what its steps keep. *)
Lemma _post_process_cleaned (py : Builtins) (d : dict value) r d' :
  _post_process py d = (r, d') -> cleaned post_processed d d'.
Proof.
  rewrite _post_process_unguarded. revert d r d'.
  repeat (apply bind_invariant;
          [apply cleaned_trans
          |intros d r d' E;
           first [eapply fix_timestamp_cleaned; [|exact E]
                 |eapply _purge_if_unused_cleaned; [| | |exact E]];
           try discriminate; unfold post_processed, timestamps; simpl; tauto
          |intros _]).
  intros d r d' E.
  eapply _purge_if_unused_cleaned; [| | |exact E];
    try discriminate; unfold post_processed, timestamps; simpl; tauto.
Qed.

(** X9.  However post-processing ends, it leaves every attribute other
    than the two timestamps and the six phase attributes as it was, it adds
    no attribute, and it keeps the keys of the set distinct. *)
Theorem _post_process_frame (py : Builtins) (d : dict value) :
  (forall k, ~ In k post_processed ->
     dict_get (snd (_post_process py d)) k = dict_get d k) /\
  (forall k, In k (dict_keys (snd (_post_process py d))) ->
     In k (dict_keys d)) /\
  (well_formed d -> well_formed (snd (_post_process py d))).
Proof.
  destruct (_post_process py d) as [r d'] eqn:E. cbn [snd].
  destruct (_post_process_cleaned py d r d' E) as (Hget & Hkeys & Hwf).
  split; [exact Hget|]. split; [exact Hkeys | exact Hwf].
Qed.

(** ** The portal client: login and fetch *)

(** X10.  A login that starts offline and returns leaves the session set
    and the client online exactly when it returns [True], and then with an
    inverter list; when it returns [False] there is no inverter list.  It
    has sent the login request first and, after it, at most the request for
    the inverter list. *)
Theorem login_online_iff_listed (a : GinlongAPI) (b : bool) (a' : GinlongAPI) :
  _online a = false ->
  login a = (Ok b, a') ->
  _session a' = true /\ _online a' = b /\
  (if b then exists l, _inverter_list a' = Some l
   else _inverter_list a' = None) /\
  (sent a' = sent a ++ [validateLogin] \/
   sent a' = sent a ++ [validateLogin; inverterListAjax (plantid a)]).
Proof.
  intros Hoff.
  unfold login, _post_data, content, try_except.
  unfold bind at 1. unfold modify at 1. unfold bind at 1. unfold modify at 1.
  unfold bind at 1. rewrite exchange_spec.
  cbn -[subscript get json_eq_int fetch_inverter_list].
  unfold bind, lift, gets, modify, ret, raise.
  destruct (portal a _ validateLogin) as [status body| |e];
    cbn -[subscript get json_eq_int fetch_inverter_list];
    [destruct (status =? 200);
     cbn -[subscript get json_eq_int fetch_inverter_list];
     [destruct (subscript body "result") as [r0|e0];
      cbn -[subscript get json_eq_int fetch_inverter_list];
      [destruct (get r0 "isAccept") as [acc|e1];
       cbn -[subscript get json_eq_int fetch_inverter_list];
       [destruct (json_eq_int acc 1);
        cbn -[subscript get json_eq_int fetch_inverter_list];
        [rewrite fetch_inverter_list_spec; cbn -[device_ids_of];
         destruct (portal a _ (inverterListAjax _)) as [st2 b2| |e2];
         cbn -[device_ids_of];
         [destruct (st2 =? 200); cbn -[device_ids_of];
          [destruct (device_ids_of b2) as [o|e3] eqn:Ed; cbn;
           [destruct (device_ids_of_some _ _ Ed) as (l & ->)
           |destruct e3; cbn] | ] | | destruct e2; cbn ]
        | ]
       | destruct e1; cbn ]
      | destruct e0; cbn ]
     | ]
    | | ].
  all: try rewrite Hoff.
  all: intros H; try discriminate H; injection H as <- <-; cbn;
    rewrite <- ?app_assoc; cbn; repeat split; eauto.
Qed.

Lemma login_online_iff_listed_witness :
  login (_api new_service)
  = (Ok true, _api logged_in) /\
  _inverter_list (_api logged_in) = Some [(JStr "S1", JInt 1)].
Proof.
  assert (H : login (_api new_service) = (Ok true, _api logged_in))
    by (vm_compute; reflexivity).
  split; [exact H|].
  destruct (login_online_iff_listed (_api new_service) true (_api logged_in)
              eq_refl H) as (_ & _ & (l & Hl) & _).
  rewrite Hl. vm_compute in Hl. symmetry. exact Hl.
Defined.

(** The portal does not answer the request, or answers it with a status
    other than 200. *)
Definition refused (answer : http_outcome) : bool :=
  match answer with
  | Response status _ => negb (status =? 200)
  | Failed => true
  | Uncaught _ => false
  end.

(** X11.  When the login request is refused, [login] returns [False]
    after that one request, whatever the state before: the session is set,
    the client offline and without inverter list. *)
Theorem login_refused (a : GinlongAPI) :
  refused (portal a (List.length (sent a)) validateLogin) = true ->
  login a =
    (Ok false,
     set_online false
       (record_sent validateLogin
          (set_inverter_list None (set_session true a)))).
Proof.
  intros H.
  unfold login, _post_data, content, try_except.
  unfold bind at 1. unfold modify at 1. unfold bind at 1. unfold modify at 1.
  unfold bind at 1. rewrite exchange_spec.
  cbn -[subscript get json_eq_int fetch_inverter_list].
  destruct (portal a _ validateLogin) as [status body| |e];
    cbn in H; try discriminate H.
  - apply negb_true_iff in H. rewrite H. reflexivity.
  - reflexivity.
Qed.

Lemma login_refused_witness :
  login (GinlongAPI__init__ unreachable)
  = (Ok false,
     {| plantid := 1; _session := true; _data := []; _online := false;
        _inverter_list := None; portal := unreachable;
        sent := [validateLogin]; fetched := [] |}).
Proof.
  rewrite (login_refused (GinlongAPI__init__ unreachable)); reflexivity.
Defined.

(** X12.  A fetch sends no request and returns no data when the client is
    offline, or has no inverter list, or does not know the serial: all it
    does is empty the collected data. *)
Theorem fetch_without_request
  (py : Builtins) (inverter_serial : json) (a : GinlongAPI) :
  is_online a = false \/ _inverter_list a = None \/
  (exists inverter_list,
     _inverter_list a = Some inverter_list /\
     hashable inverter_serial = true /\
     dir_get inverter_list inverter_serial = None) ->
  fetch_inverter_data py inverter_serial a
  = (Ok None, record_fetched inverter_serial false (set_data [] a)).
Proof.
  intros [Hoff|H]; [now apply fetch_inverter_data_offline|].
  unfold fetch_inverter_data, fetch_inverter_data_body, bind, modify, gets,
    ret, is_online.
  cbn -[_collect_inverter_data _post_process].
  destruct (_online a); [|reflexivity].
  destruct H as [->|(l & -> & -> & Hd)]; [reflexivity|].
  cbn -[_collect_inverter_data _post_process]. rewrite Hd. reflexivity.
Qed.

(** After a logout, a fetch is answered without a request. *)
Lemma fetch_without_request_witness :
  (logout ;; fetch_inverter_data CPython.builtins (JStr "S1"))
    (_api logged_in)
  = (Ok None,
     {| plantid := 1; _session := false; _data := []; _online := false;
        _inverter_list := None; portal := portal (_api logged_in);
        sent := [validateLogin; inverterListAjax 1];
        fetched := [(JStr "S1", false)] |}).
Proof.
  unfold bind. rewrite logout_spec.
  rewrite (fetch_without_request CPython.builtins (JStr "S1")
             (set_inverter_list None
                (set_online false (set_session false (_api logged_in)))));
    [reflexivity | left; reflexivity].
Defined.

(** X13.  A fetch for a serial of the inverter list, with the client online
    and its session set, sends exactly one request, for the details of the
    device that the list gives for the serial, however the fetch ends; and it
    leaves the session, the online state and the inverter list as they
    are. *)
Theorem fetch_one_request
  (py : Builtins) (inverter_serial device_id : json)
  (inverter_list : directory) (a : GinlongAPI) :
  is_online a = true -> _session a = true ->
  _inverter_list a = Some inverter_list ->
  hashable inverter_serial = true ->
  dir_get inverter_list inverter_serial = Some device_id ->
  sent (snd (fetch_inverter_data py inverter_serial a))
  = sent a ++ [goDetailAjax device_id] /\
  _online (snd (fetch_inverter_data py inverter_serial a)) = true /\
  _session (snd (fetch_inverter_data py inverter_serial a)) = true /\
  _inverter_list (snd (fetch_inverter_data py inverter_serial a))
  = Some inverter_list.
Proof.
  intros Hon Hs Hl Hh Hd.
  unfold fetch_inverter_data, fetch_inverter_data_body, bind, modify, gets,
    _get_inverter_details, _get_data, exchange, call, content, ret, raise,
    bind, zoom, is_online in *.
  cbn -[_collect_inverter_data _post_process].
  rewrite Hon, Hl, Hh. cbn -[_collect_inverter_data _post_process].
  rewrite Hd, Hs. cbn -[_collect_inverter_data _post_process].
  destruct (portal a _ _) as [status body| |e];
    cbn -[_collect_inverter_data _post_process]; auto.
  destruct (status =? 200); cbn -[_collect_inverter_data _post_process]; auto.
  destruct body; cbn -[_collect_inverter_data _post_process]; auto;
    (destruct (_collect_inverter_data py _ []) as [[[]|e1] d1];
     cbn -[_post_process]; auto;
     destruct (_post_process py d1) as [[[]|e2] d2]; cbn; auto).
Qed.

Lemma fetch_one_request_witness :
  sent (snd (fetch_inverter_data CPython.builtins (JStr "S1")
               (online_client bad_latitude)))
  = [goDetailAjax (JInt 1)].
Proof.
  apply (fetch_one_request CPython.builtins (JStr "S1") (JInt 1)
           [(JStr "S1", JInt 1)] (online_client bad_latitude));
    reflexivity.
Defined.

(** ** What a fetch returns *)

(** The rows of the schema table, and the attribute names it gives. *)
Definition schema_rows : list (string * field_spec) :=
  flat_map (fun entry => snd (snd entry)) INVERTER_DATA.

Definition schema_names : list string := map fst schema_rows.

(** Extraction keeps the keys of the collected data distinct and adds
    attribute names of the schema only. *)
Definition collected (d d' : dict value) : Prop :=
  (well_formed d -> well_formed d') /\
  (forall k, In k (dict_keys d') -> In k (dict_keys d) \/ In k schema_names).

Lemma collected_refl d : collected d d.
Proof. unfold collected; tauto. Qed.

Lemma collected_trans d1 d2 d3 :
  collected d1 d2 -> collected d2 d3 -> collected d1 d3.
Proof.
  intros (W1 & K1) (W2 & K2). split; [auto|].
  intros k Hk. destruct (K2 k Hk) as [H|H]; [auto | now right].
Qed.

Section Collected.
Context (py : Builtins).

Lemma collect_attribute_collected jsondata kind row d r d' :
  In row schema_rows ->
  collect_attribute py jsondata kind row d = (r, d') -> collected d d'.
Proof.
  intros Hrow. destruct row as [dictkey [[key type_] precision]].
  unfold collect_attribute, bind, lift, modify, ret.
  destruct (getter py kind jsondata key type_ precision) as [[v|]|e];
    intros H; injection H as <- <-; try apply collected_refl.
  split; [apply well_formed_set|].
  intros k Hk. destruct (dict_keys_set_in _ _ _ _ Hk) as [H| ->];
    [now left | right].
  unfold schema_names. apply in_map_iff. now exists (dictkey, (key, type_, precision)).
Qed.

Lemma _collect_inverter_data_collected payload d r d' :
  _collect_inverter_data py payload d = (r, d') -> collected d d'.
Proof.
  unfold _collect_inverter_data.
  apply for_each_invariant_in;
    [apply collected_refl | apply collected_trans|].
  intros [subkey [kind attributes]] Hin s r0 s'.
  unfold collect_subset, bind, lift.
  destruct (subset payload subkey) as [jsondata|e];
    [|intros H; injection H as <- <-; apply collected_refl].
  apply for_each_invariant_in;
    [apply collected_refl | apply collected_trans|].
  intros row Hrow s0 r1 s1. apply collect_attribute_collected.
  unfold schema_rows. apply in_flat_map.
  exists (subkey, (kind, attributes)). split; [exact Hin | exact Hrow].
Qed.

(** A fetch that returns data has run extraction and post-processing to
    their ends, from no data, on the payload the portal sent. *)
Lemma fetch_inverter_data_returns k a data a' :
  fetch_inverter_data py k a = (Ok (Some data), a') ->
  exists payload d1,
    _collect_inverter_data py payload [] = (Ok tt, d1) /\
    _post_process py d1 = (Ok tt, get_inverter_data data) /\
    _data a' = get_inverter_data data.
Proof.
  unfold fetch_inverter_data, fetch_inverter_data_body, bind, modify, gets,
    _get_inverter_details, _get_data, exchange, call, content, ret, raise,
    bind, zoom, is_online.
  cbn -[_collect_inverter_data _post_process].
  destruct (_online a); cbn -[_collect_inverter_data _post_process];
    [|discriminate].
  destruct (_inverter_list a) as [l|];
    cbn -[_collect_inverter_data _post_process]; [|discriminate].
  destruct (hashable k); cbn -[_collect_inverter_data _post_process];
    [|discriminate].
  destruct (dir_get l k) as [device_id|];
    cbn -[_collect_inverter_data _post_process]; [|discriminate].
  destruct (_session a); cbn -[_collect_inverter_data _post_process];
    [|discriminate].
  destruct (portal a _ _) as [status body| |e];
    cbn -[_collect_inverter_data _post_process]; try discriminate.
  destruct (status =? 200); cbn -[_collect_inverter_data _post_process];
    [|discriminate].
  destruct body; cbn -[_collect_inverter_data _post_process];
    try discriminate;
    (destruct (_collect_inverter_data py _ []) as [[[]|e1] d1] eqn:Ec;
     cbn -[_collect_inverter_data _post_process]; [|discriminate];
     destruct (_post_process py d1) as [[[]|e2] d2] eqn:Ep;
     cbn -[_collect_inverter_data _post_process]; [|discriminate];
     intros H; injection H as <- <-;
     eexists; exists d1; split; [exact Ec|]; split; [exact Ep | reflexivity]).
Qed.

End Collected.

(** X14.  The measurement set that a fetch returns holds attribute names
    of the schema table only, each once; it is the data the client keeps
    as collected. *)
Theorem fetch_within_schema
  (py : Builtins) (inverter_serial : json) (a : GinlongAPI)
  (data : GinlongData) :
  fst (fetch_inverter_data py inverter_serial a) = Ok (Some data) ->
  well_formed (get_inverter_data data) /\
  (forall name, In name (dict_keys (get_inverter_data data)) ->
     In name schema_names) /\
  _data (snd (fetch_inverter_data py inverter_serial a))
  = get_inverter_data data.
Proof.
  destruct (fetch_inverter_data py inverter_serial a) as [r a'] eqn:E.
  cbn [fst snd]. intros ->.
  destruct (fetch_inverter_data_returns py _ _ _ _ E)
    as (payload & d1 & Hc & Hp & Hd).
  destruct (_collect_inverter_data_collected py _ _ _ _ Hc) as (W1 & K1).
  destruct (_post_process_cleaned py d1 _ _ Hp) as (_ & K2 & W2).
  split; [apply W2, W1; constructor|]. split; [|exact Hd].
  intros name Hn. destruct (K1 name (K2 name Hn)) as [[]|H]. exact H.
Qed.

(** The details of inverter S1: its state, and an energy record. *)
Definition good_details : json :=
  JDict [("result", JDict [("deviceWapper", JDict
    [ ("sn", JStr "S1"); ("state", JStr "1"); ("updateDate", JInt 1700000000000);
      ("realTimeDataImp", JList []); ("realTimeDataOther", JList []);
      ("realTimeDataState", JList []);
      ("realTimeDataPower",
         JList [JDict [("key", JStr "1bd"); ("value", JStr "12.5")]]);
      ("dataJSON", JDict []) ])])].

Definition good_reading : GinlongData :=
  {| get_inverter_data :=
       [ (INVERTER_SERIAL, VStr "S1");
         (INVERTER_TIMESTAMP_UPDATE, VFloat 1700000000%float);
         (INVERTER_STATE, VInt 1);
         (INVERTER_ENERGY_TODAY, VFloat 12.5%float) ] |}.

Lemma fetch_within_schema_witness :
  fst (fetch_inverter_data CPython.builtins (JStr "S1")
         (online_client good_details)) = Ok (Some good_reading) /\
  well_formed (get_inverter_data good_reading).
Proof.
  assert (H : fst (fetch_inverter_data CPython.builtins (JStr "S1")
                     (online_client good_details)) = Ok (Some good_reading))
    by (vm_compute; reflexivity).
  split; [exact H|].
  exact (proj1 (fetch_within_schema CPython.builtins (JStr "S1")
                  (online_client good_details) good_reading H)).
Defined.

(** ** The update cycle: outcome and side effects *)

(** Every fetch of the log has returned data. *)
Definition all_data (log : list (json * bool)) : Prop :=
  Forall (fun entry => snd entry = true) log.

(** No fetch of the log has returned data. *)
Definition without_data (log : list (json * bool)) : Prop :=
  forall k, ~ In (k, true) log.

(** What a stretch of a cycle with the fetches [log] has done: it leaves
    the subscription table and the clock alone, and the subscribers and the
    update time as well unless a fetch returned data. *)
Definition progress
  (log : list (json * bool)) (s s' : InverterService) : Prop :=
  fetched (_api s') = fetched (_api s) ++ log /\
  _subscriptions s' = _subscriptions s /\ clock s' = clock s /\
  (without_data log ->
   objects s' = objects s /\ _last_updated s' = _last_updated s).

Lemma progress_refl s : progress [] s s.
Proof.
  unfold progress. rewrite app_nil_r. repeat split; reflexivity.
Qed.

Lemma progress_trans log1 log2 s1 s2 s3 :
  progress log1 s1 s2 -> progress log2 s2 s3 -> progress (log1 ++ log2) s1 s3.
Proof.
  intros (F1 & S1 & C1 & Q1) (F2 & S2 & C2 & Q2).
  split; [rewrite F2, F1; symmetry; apply app_assoc|].
  split; [congruence|]. split; [congruence|].
  intros H.
  destruct Q1 as [O1 U1]; [intros k Hk; apply (H k), in_or_app; now left|].
  destruct Q2 as [O2 U2]; [intros k Hk; apply (H k), in_or_app; now right|].
  split; congruence.
Qed.

Section CycleOutcome.
Context (py : Builtins).

(** One turn of the loop of [async_update]. *)
Lemma update_inverter_progress u k s r s' :
  update_inverter py u k s = (r, s') ->
  exists log,
    progress log s s' /\
    (forall u', r = Ok u' ->
       (log = [(k, true)] /\ u' = SCHEDULE_OK) \/
       (log = [(k, false)] /\ u' = SCHEDULE_NOK /\
        _online (_api s') = false)).
Proof.
  unfold update_inverter. unfold bind at 1. unfold zoom.
  destruct (fetch_inverter_data py k (_api s)) as [[[data|]|e] a'] eqn:Ef;
    destruct (fetch_inverter_data_frame py _ _ _ _ Ef)
      as (F1 & F2 & F3 & F4 & F5 & F6 & F7).
  - unfold bind at 1, now at 1. unfold bind at 1, modify at 1. unfold bind.
    match goal with
    | |- context [update_devices data ?s0] =>
        destruct (update_devices data s0) as [[[]|e] s1] eqn:Eu;
        destruct (update_devices_quiet _ _ _ _ Eu)
          as (Q1 & _ & _ & _ & Q5 & Q6)
    end;
      unfold ret; intros H; injection H as <- <-; cbn in Q1, Q5, Q6;
      exists [(k, true)];
      (split;
       [split; [rewrite Q1; exact F6|]; split; [exact Q5|];
        split; [exact Q6|];
        intros Hw; exfalso; apply (Hw k); now left|]);
      intros u' Hu; [injection Hu as <-; left; auto | discriminate].
  - unfold bind. rewrite _logout_spec. unfold ret.
    intros H; injection H as <- <-. exists [(k, false)].
    split; [split; [exact F6|]; cbn; auto|].
    intros u' Hu. injection Hu as <-. right. auto.
  - intros H; injection H as <- <-. exists [].
    split; [split; [exact F6|]; cbn; auto|].
    intros u' Hu. discriminate.
Qed.

(** The loop of [async_update]: it ends with success exactly when every
    fetch, and at least one, has returned data. *)
Lemma cycle_progress ks : forall u s r s',
  for_fold ks u (update_inverter py) s = (r, s') ->
  exists log,
    progress log s s' /\
    (forall u', r = Ok u' ->
       (log = [] -> u' = u) /\
       (log <> [] -> (u' = SCHEDULE_OK <-> all_data log))).
Proof.
  induction ks as [|k ks IH]; intros u s r s' H.
  - injection H as <- <-. exists []. split; [apply progress_refl|].
    intros u' Hu. injection Hu as <-. split; [reflexivity | congruence].
  - cbn [for_fold] in H. unfold bind in H.
    destruct (update_inverter py u k s) as [[u1|e] s1] eqn:E1.
    + destruct (update_inverter_progress _ _ _ _ _ E1) as (log1 & P1 & O1).
      destruct (IH _ _ _ _ H) as (log2 & P2 & O2).
      exists (log1 ++ log2). split; [eapply progress_trans; eassumption|].
      intros u' ->.
      destruct (O1 u1 eq_refl) as [(-> & ->)|(-> & -> & Hoff)].
      * split; [discriminate|]. intros _.
        destruct (O2 u' eq_refl) as (Oe & One).
        destruct log2 as [|entry log2].
        -- rewrite (Oe eq_refl). split; [|reflexivity].
           intros _. repeat constructor.
        -- rewrite One by discriminate. unfold all_data. cbn [app].
           split; [intros Ha; constructor; [reflexivity | exact Ha]|].
           intros Ha. now inversion Ha.
      * split; [discriminate|]. intros _.
        destruct (cycle_loop py _ _ _ _ _ H) as (_ & log & _ & _ & C4 & _).
        destruct (C4 Hoff) as (_ & Hr & _).
        assert (u' = SCHEDULE_NOK) as ->
            by (destruct ks; injection Hr as ->; reflexivity).
        split; [discriminate|]. intros Ha. inversion Ha as [|? ? Hk].
        discriminate Hk.
    + injection H as <- <-.
      destruct (update_inverter_progress _ _ _ _ _ E1) as (log1 & P1 & _).
      exists log1. split; [exact P1|]. intros u' Hu. discriminate.
Qed.

(** [_login] changes neither the log of the fetches nor what [progress]
    speaks of. *)
Lemma _login_progress s r s' : _login s = (r, s') -> progress [] s s'.
Proof.
  intros H.
  destruct (_login_frame _ _ _ H) as (_ & L2 & L3 & L4 & L5 & L6 & _).
  unfold progress. rewrite app_nil_r. auto.
Qed.

(** The lines of [async_update] from [schedule_update] on. *)
Lemma reschedule_progress u s :
  progress [] s (snd (reschedule u s)) /\
  fst (reschedule u s) = Ok u /\
  forall t, _logintime (snd (reschedule u s)) = Some t ->
    _logintime s = Some t /\
    clock_reads (snd (reschedule u s)) = S (clock_reads s) /\
    clock s (clock_reads s) <= t + HRS_BETWEEN_LOGIN.
Proof.
  unfold reschedule, schedule_update, bind, modify, gets, now, ret, progress.
  cbn -[HRS_BETWEEN_LOGIN Z.ltb].
  destruct (_logintime s) as [t0|]; cbn -[HRS_BETWEEN_LOGIN Z.ltb].
  - destruct (t0 + HRS_BETWEEN_LOGIN <? clock s (clock_reads s)) eqn:E;
      cbn -[HRS_BETWEEN_LOGIN]; rewrite app_nil_r.
    + repeat split; auto; discriminate.
    + apply Z.ltb_ge in E. repeat split; auto; congruence.
  - rewrite app_nil_r. repeat split; auto; discriminate.
Qed.

(** [async_update] down to the line before [schedule_update]. *)
Lemma fetch_all_progress s r s' :
  fetch_all py s = (r, s') ->
  exists log,
    progress log s s' /\
    (forall u, r = Ok (Returns u) -> log = [] /\ u = SCHEDULE_NOK) /\
    (forall u, r = Ok (Continues u) ->
       (log = [] -> u = SCHEDULE_NOK) /\
       (log <> [] -> (u = SCHEDULE_OK <-> all_data log))).
Proof.
  unfold fetch_all. unfold bind at 1.
  destruct (_login s) as [[logged_in|e] s1] eqn:El;
    assert (P0 := _login_progress _ _ _ El).
  - destruct logged_in.
    + unfold bind at 1, gets at 1. unfold inverters at 1.
      destruct (_inverter_list (_api s1)) as [l|].
      * unfold bind.
        destruct (for_fold (map fst l) SCHEDULE_NOK (update_inverter py) s1)
          as [[u|e] s2] eqn:Eloop;
          destruct (cycle_progress _ _ _ _ _ Eloop) as (log & P & O);
          unfold ret; intros H; injection H as <- <-;
          exists log;
          (split; [exact (progress_trans _ _ _ _ _ P0 P)|]);
          (split; [intros u0 Hu; discriminate|]);
          intros u0 Hu; [|discriminate].
        injection Hu as <-. exact (O u eq_refl).
      * unfold ret. intros H; injection H as <- <-. exists [].
        split; [exact P0|]. split.
        -- intros u Hu. injection Hu as <-. auto.
        -- intros u Hu. discriminate.
    + unfold ret. intros H; injection H as <- <-. exists [].
      split; [exact P0|]. split.
      * intros u Hu. discriminate.
      * intros u Hu. injection Hu as <-. split; [reflexivity | congruence].
  - intros H; injection H as <- <-. exists [].
    split; [exact P0|]. split; intros u Hu; discriminate.
Qed.

End CycleOutcome.

(** X15.  An update cycle that returns reports success ([SCHEDULE_OK])
    exactly when it has fetched at least one inverter and every fetch has
    returned data; the outcome is failure ([SCHEDULE_NOK]) otherwise. *)
Theorem cycle_succeeds_iff_all_fetched
  (py : Builtins) (s : InverterService) (u : Z) (s' : InverterService) :
  async_update py s = (Ok u, s') ->
  exists log,
    fetched (_api s') = fetched (_api s) ++ log /\
    (u = SCHEDULE_OK <-> log <> [] /\ all_data log) /\
    (u = SCHEDULE_OK \/ u = SCHEDULE_NOK).
Proof.
  intros H. assert (Hu := async_update_outcome py s u s' H).
  rewrite async_update_unfold in H.
  destruct (fetch_all py s) as [[[u0|u0]|e] s1] eqn:Ef;
    destruct (fetch_all_progress py _ _ _ Ef) as (log & P & Or & Oc);
    [injection H as <- <-|
     |discriminate H].
  - destruct (Or u0 eq_refl) as (-> & ->). exists []. destruct P as (F & _).
    split; [exact F|]. split; [|exact Hu].
    split; [discriminate | intros [Hn _]; congruence].
  - destruct (reschedule_progress u0 s1) as ((F & _) & Hr & _).
    rewrite H in F, Hr. cbn [fst snd] in F, Hr. injection Hr as <-.
    rewrite app_nil_r in F. destruct P as (F1 & _).
    exists log. split; [congruence|]. split; [|exact Hu].
    destruct (Oc u eq_refl) as (Oe & One).
    destruct log as [|entry log].
    + rewrite (Oe eq_refl). split; [discriminate | intros [Hn _]; congruence].
    + rewrite One by discriminate. split; [split; [discriminate | assumption]|].
      tauto.
Qed.

(** Two inverters that both answer. *)
Definition both_answer : InverterService :=
  InverterService__init__
    (GinlongAPI__init__
       (plant_portal [device "A" 1; device "B" 2]
          (fun _ => Response 200
                      (details [("sn", JStr "A"); ("state", JInt 1)]))))
    midnight.

Lemma cycle_succeeds_iff_all_fetched_witness :
  fst (async_update CPython.builtins both_answer) = Ok SCHEDULE_OK /\
  exists log,
    fetched (_api (snd (async_update CPython.builtins both_answer)))
    = [] ++ log /\
    log <> [] /\ all_data log.
Proof.
  assert (H : fst (async_update CPython.builtins both_answer) = Ok SCHEDULE_OK)
    by (vm_compute; reflexivity).
  split; [exact H|].
  destruct (cycle_succeeds_iff_all_fetched CPython.builtins both_answer
              SCHEDULE_OK (snd (async_update CPython.builtins both_answer)))
    as (log & Hlog & Hiff & _).
  - rewrite <- H. apply surjective_pairing.
  - exists log. split; [exact Hlog|]. now apply Hiff.
Defined.

(** X16.  An update cycle, however it ends, leaves the subscription table
    as it is; and unless one of its fetches has returned data it notifies
    no subscriber and leaves the time of the last update as it is. *)
Theorem cycle_without_data_is_silent (py : Builtins) (s : InverterService) :
  _subscriptions (snd (async_update py s)) = _subscriptions s /\
  exists log,
    fetched (_api (snd (async_update py s))) = fetched (_api s) ++ log /\
    (without_data log ->
     objects (snd (async_update py s)) = objects s /\
     _last_updated (snd (async_update py s)) = _last_updated s).
Proof.
  rewrite async_update_unfold.
  destruct (fetch_all py s) as [[[u0|u0]|e] s1] eqn:Ef;
    destruct (fetch_all_progress py _ _ _ Ef) as (log & P & _).
  - cbn [snd]. destruct P as (F & S & _ & Q). split; [exact S|].
    exists log. auto.
  - destruct (reschedule_progress u0 s1) as (P2 & _).
    assert (P3 := progress_trans _ _ _ _ _ P P2). rewrite app_nil_r in P3.
    destruct P3 as (F & S & _ & Q). split; [exact S|]. exists log. auto.
  - cbn [snd]. destruct P as (F & S & _ & Q). split; [exact S|].
    exists log. auto.
Qed.

(** X17.  A cycle that has reached its end keeps no login older than
    [HRS_BETWEEN_LOGIN]: when the login time is still set afterwards, the
    clock of the cycle's last reading was no more than two hours past it. *)
Theorem session_age_is_bounded
  (py : Builtins) (s : InverterService) (u : Z) (s' : InverterService)
  (t : datetime) :
  async_update py s = (Ok u, s') ->
  scheduled s' <> scheduled s ->
  _logintime s' = Some t ->
  exists n,
    clock_reads s' = S n /\ clock s' n <= t + HRS_BETWEEN_LOGIN.
Proof.
  intros H Hs Ht. rewrite async_update_unfold in H.
  destruct (fetch_all py s) as [[[u0|u0]|e] s1] eqn:Ef;
    [| |discriminate H].
  - injection H as <- <-.
    destruct (fetch_all_spec py _ _ _ Ef) as (S1 & _). contradiction.
  - destruct (reschedule_progress u0 s1) as ((_ & _ & C & _) & _ & Hage).
    rewrite H in C, Hage. cbn [snd] in C, Hage.
    destruct (Hage t Ht) as (_ & Hn & Hle).
    exists (clock_reads s1). rewrite C. auto.
Qed.

(** A service that has logged in at 09:00 and runs a cycle at 10:30, its
    one inverter answering. *)
Definition mid_morning : InverterService :=
  {| _last_updated := None; _logintime := Some (at_clock 9 0);
     _subscriptions := [];
     _api := {| plantid := 1; _session := true; _data := []; _online := true;
                _inverter_list := Some [(JStr "S1", JInt 1)];
                portal := plant_portal [device "S1" 1]
                            (fun _ => Response 200
                               (details [("sn", JStr "S1"); ("state", JInt 1)]));
                sent := []; fetched := [] |};
     objects := fun _ => sensor true None;
     clock := fun _ => at_clock 10 30; clock_reads := 0; scheduled := [] |}.

Lemma session_age_is_bounded_witness :
  _logintime (snd (async_update CPython.builtins mid_morning))
  = Some (at_clock 9 0) /\
  exists n,
    clock_reads (snd (async_update CPython.builtins mid_morning)) = S n /\
    clock (snd (async_update CPython.builtins mid_morning)) n
    <= at_clock 9 0 + HRS_BETWEEN_LOGIN.
Proof.
  assert (Ht : _logintime (snd (async_update CPython.builtins mid_morning))
               = Some (at_clock 9 0)) by (vm_compute; reflexivity).
  split; [exact Ht|].
  destruct (session_age_is_bounded CPython.builtins mid_morning
              SCHEDULE_OK
              (snd (async_update CPython.builtins mid_morning))
              (at_clock 9 0)) as (n & Hn & Hle).
  - assert (Hr : fst (async_update CPython.builtins mid_morning)
                 = Ok SCHEDULE_OK) by (vm_compute; reflexivity).
    rewrite <- Hr. apply surjective_pairing.
  - vm_compute. discriminate.
  - exact Ht.
  - exists n. split; [exact Hn|]. exact Hle.
Defined.

(** ** The inverter list *)

(** The serial of a record of the list, when it is a string, and the
    device id the record gives ([None] when it gives none). *)
Definition serial_of (record : json) : option string :=
  match get record "sn" with
  | Ok (JStr serial) => Some serial
  | _ => None
  end.

Definition device_id_of (record : json) : json :=
  match get record "deviceId" with
  | Ok device_id => device_id
  | Raise _ => JNull
  end.

Definition has_serial (serial : string) (record : json) : bool :=
  match serial_of record with
  | Some s => String.eqb s serial
  | None => false
  end.

(** The device id of the last record with the serial. *)
Definition listed_last (serial : string) (records : list json) : option json :=
  match rev (filter (has_serial serial) records) with
  | [] => None
  | record :: _ => Some (device_id_of record)
  end.

Lemma listed_last_cons serial record records :
  listed_last serial (record :: records) =
    match listed_last serial records with
    | Some device_id => Some device_id
    | None => if has_serial serial record then Some (device_id_of record)
              else None
    end.
Proof.
  unfold listed_last. cbn [filter].
  destruct (has_serial serial record);
    cbn [rev]; destruct (rev (filter (has_serial serial) records)); reflexivity.
Qed.

Lemma key_eq_str k serial : key_eq k (JStr serial) = true -> k = JStr serial.
Proof.
  destruct k as [|b|z|f|s|l|d]; simpl; try discriminate;
    try (destruct b; discriminate).
  intros H. apply String.eqb_eq in H. now subst.
Qed.

Lemma dir_get_set_str d serial v serial' :
  dir_get (dir_set d (JStr serial) v) (JStr serial') =
    if String.eqb serial serial' then Some v else dir_get d (JStr serial').
Proof.
  induction d as [|[k0 v0] d IH]; cbn [dir_set dir_get].
  - cbn. reflexivity.
  - destruct (key_eq k0 (JStr serial)) eqn:E; cbn [dir_get].
    + apply key_eq_str in E. subst k0. cbn [key_eq].
      destruct (String.eqb serial serial'); reflexivity.
    + rewrite IH. destruct (key_eq k0 (JStr serial')) eqn:E'; [|reflexivity].
      apply key_eq_str in E'. subst k0. cbn [key_eq] in E.
      now rewrite String.eqb_sym, E.
Qed.

(** The loop of [fetch_inverter_list], on records with string serials. *)
Lemma add_devices_last records : forall device_ids,
  Forall (fun record => serial_of record <> None) records ->
  exists directory,
    add_devices device_ids records = Ok directory /\
    forall serial,
      dir_get directory (JStr serial) =
        match listed_last serial records with
        | Some device_id => Some device_id
        | None => dir_get device_ids (JStr serial)
        end.
Proof.
  induction records as [|record records IH]; intros device_ids H.
  - exists device_ids. split; reflexivity.
  - inversion H as [|? ? Hs Hrest]; subst.
    cbn [add_devices]. unfold add_device.
    assert (Hrec : exists d s, record = JDict d /\
                               dict_get d "sn" = Some (JStr s)).
    { unfold serial_of, get in Hs. destruct record; try contradiction.
      destruct (dict_get d "sn") as [[| | | |s| |]|] eqn:E; try contradiction.
      eauto. }
    destruct Hrec as (d & s & -> & Hsn).
    cbn [get]. rewrite Hsn. cbn [rbind hashable].
    destruct (IH (dir_set device_ids (JStr s)
                    (device_id_of (JDict d))) Hrest) as (dir & Hrun & Hget).
    exists dir. split.
    + unfold device_id_of, get in Hrun.
      destruct (dict_get d "deviceId"); exact Hrun.
    + intros serial. rewrite Hget, listed_last_cons, dir_get_set_str.
      unfold has_serial, serial_of, get. rewrite Hsn.
      destruct (listed_last serial records); [reflexivity|].
      destruct (String.eqb s serial); reflexivity.
Qed.

(** X18.  When the portal answers the request for the inverter list with
    records whose serials are strings, [fetch_inverter_list] returns a
    directory that gives, for every serial, the device id of the last record
    with that serial, and nothing for a serial that no record has. *)
Theorem fetch_inverter_list_last_wins
  (plant_id : Z) (a : GinlongAPI) (records : list json) :
  _session a = true ->
  portal a (List.length (sent a)) (inverterListAjax plant_id)
  = Response 200 (listing records) ->
  Forall (fun record => serial_of record <> None) records ->
  exists directory,
    fetch_inverter_list plant_id a
    = (Ok (Some directory), record_sent (inverterListAjax plant_id) a) /\
    forall serial,
      dir_get directory (JStr serial) = listed_last serial records.
Proof.
  intros Hs Hp Hr. rewrite fetch_inverter_list_spec, Hs, Hp.
  destruct (add_devices_last records [] Hr) as (dir & Hrun & Hget).
  exists dir. split.
  - cbn -[add_devices]. unfold device_ids_of, listing.
    cbn -[add_devices]. now rewrite Hrun.
  - intros serial. rewrite Hget. destruct (listed_last serial records);
      reflexivity.
Qed.

(** A list that names inverter S1 twice. *)
Definition relisted : list json :=
  [ device "S1" 1; device "S2" 2; device "S1" 3 ].

Lemma fetch_inverter_list_last_wins_witness :
  exists directory,
    fetch_inverter_list 1
      (set_session true (GinlongAPI__init__ (plant_portal relisted (fun _ => Failed))))
    = (Ok (Some directory),
       record_sent (inverterListAjax 1)
         (set_session true
            (GinlongAPI__init__ (plant_portal relisted (fun _ => Failed))))) /\
    dir_get directory (JStr "S1") = Some (JInt 3) /\
    dir_get directory (JStr "S2") = Some (JInt 2) /\
    dir_get directory (JStr "S3") = None.
Proof.
  destruct (fetch_inverter_list_last_wins 1
              (set_session true
                 (GinlongAPI__init__ (plant_portal relisted (fun _ => Failed))))
              relisted) as (dir & Hrun & Hget).
  - reflexivity.
  - reflexivity.
  - repeat constructor; discriminate.
  - exists dir. split; [exact Hrun|].
    rewrite !Hget. repeat split; reflexivity.
Defined.

(** ** The types of the values *)

(** [type(v)] *)
Definition type_of (v : value) : pytype :=
  match v with
  | VStr _ => TStr
  | VInt _ => TInt
  | VFloat _ => TFloat
  end.

(** The schema table declares the attribute with the type. *)
Definition declared (name : string) (type_ : pytype) : Prop :=
  exists key precision, In (name, (key, type_, precision)) schema_rows.

(** Every value of the collected data has a type that the schema declares
    for its attribute. *)
Definition typed (d : dict value) : Prop :=
  forall name v, dict_get d name = Some v -> declared name (type_of v).

(** A row whose values are rounded to a number of decimals, so that a
    [float] stays a [float]. *)
Definition keeps_float (row : string * field_spec) : bool :=
  match row with
  | (_, (_, TFloat, None)) => false
  | _ => true
  end.

Lemma schema_keeps_float row : In row schema_rows -> keeps_float row = true.
Proof.
  assert (H : forallb keeps_float schema_rows = true) by (vm_compute; reflexivity).
  rewrite forallb_forall in H. apply H.
Qed.

Section Typed.
Context (py : Builtins).

(** [type_(data_raw)], rounded: a value of the declared type. *)
Lemma rounded_typed type_ precision data_raw r1 r2 :
  (type_ = TFloat -> precision <> None) ->
  construct py type_ data_raw = Ok r1 ->
  (if is_float type_ then py_round py r1 precision else Ok r1) = Ok r2 ->
  type_of r2 = type_.
Proof.
  intros Hp. unfold construct, rbind.
  destruct type_; cbn [is_float].
  - destruct (py_str py data_raw); [|discriminate].
    intros H1 H2. injection H1 as <-. now injection H2 as <-.
  - destruct (py_int py data_raw); [|discriminate].
    intros H1 H2. injection H1 as <-. now injection H2 as <-.
  - destruct (py_float py data_raw) as [f|]; [|discriminate].
    intros H1. injection H1 as <-.
    destruct precision as [n|]; [|now destruct Hp].
    cbn [py_round]. unfold rbind.
    destruct (round_float py f n); [|discriminate].
    intros H; now injection H as <-.
Qed.

Lemma _get_value_typed data key type_ precision v :
  (type_ = TFloat -> precision <> None) ->
  _get_value py data key type_ precision = Ok (Some v) -> type_of v = type_.
Proof.
  intros Hp. unfold _get_value, rbind.
  destruct (get data key) as [data_raw|]; [|discriminate].
  destruct data_raw; try discriminate;
    (destruct (construct py type_ _) as [r1|] eqn:E1; [|discriminate];
     destruct (if is_float type_ then _ else _) as [r2|] eqn:E2;
     [|discriminate];
     intros H; injection H as <-; eapply rounded_typed; eassumption).
Qed.

Lemma scan_records_typed key type_ precision records : forall acc r,
  (type_ = TFloat -> precision <> None) ->
  (forall v, acc = Some v -> type_of v = type_) ->
  scan_records py records key type_ precision acc = Ok (Some r) ->
  type_of r = type_.
Proof.
  induction records as [|record records IH]; intros acc r Hp Hacc.
  - cbn. intros H. injection H as ->. now apply Hacc.
  - cbn [scan_records]. unfold rbind.
    destruct (get record "key") as [key_value|]; [|discriminate].
    destruct (json_eq_str key_value key); [|now apply IH].
    destruct (get record "value") as [data_raw|]; [|discriminate].
    destruct data_raw; try (now apply IH);
      (destruct (construct py type_ _) as [r1|] eqn:E1; [|discriminate];
       destruct (if is_float type_ then _ else _) as [r2|] eqn:E2;
       [|discriminate];
       apply IH; [exact Hp|];
       intros v Hv; injection Hv as <-; eapply rounded_typed; eassumption).
Qed.

Lemma getter_typed kind jsondata key type_ precision v :
  (type_ = TFloat -> precision <> None) ->
  getter py kind jsondata key type_ precision = Ok (Some v) ->
  type_of v = type_.
Proof.
  intros Hp. destruct kind; cbn [getter].
  - unfold _get_value_from_record, rbind.
    destruct (iterate jsondata); [|discriminate].
    apply scan_records_typed; [exact Hp | discriminate].
  - now apply _get_value_typed.
Qed.

Lemma collect_attribute_typed jsondata kind row d r d' :
  In row schema_rows ->
  collect_attribute py jsondata kind row d = (r, d') -> typed d -> typed d'.
Proof.
  intros Hrow. assert (Hk := schema_keeps_float row Hrow).
  destruct row as [dictkey [[key type_] precision]].
  unfold collect_attribute, bind, lift, modify, ret.
  destruct (getter py kind jsondata key type_ precision) as [[v|]|e] eqn:Eg;
    intros H; injection H as <- <-; auto.
  assert (Hp : type_ = TFloat -> precision <> None).
  { intros -> ->. discriminate Hk. }
  intros Ht name x.
  destruct (String.eqb_spec name dictkey) as [->|Hne].
  - rewrite dict_get_set_same. intros Hx. injection Hx as <-.
    rewrite (getter_typed _ _ _ _ _ _ Hp Eg).
    now exists key, precision.
  - rewrite dict_get_set_other by exact Hne. apply Ht.
Qed.

Lemma _collect_inverter_data_typed payload d r d' :
  _collect_inverter_data py payload d = (r, d') -> typed d -> typed d'.
Proof.
  unfold _collect_inverter_data.
  apply (for_each_invariant_in (fun d d' => typed d -> typed d')); [auto..|].
  intros [subkey [kind attributes]] Hin s r0 s'.
  unfold collect_subset, bind, lift.
  destruct (subset payload subkey) as [jsondata|e];
    [|intros H; injection H as <- <-; auto].
  apply (for_each_invariant_in (fun d d' => typed d -> typed d')); [auto..|].
  intros row Hrow s0 r1 s1. apply collect_attribute_typed.
  unfold schema_rows. apply in_flat_map.
  exists (subkey, (kind, attributes)). split; [exact Hin | exact Hrow].
Qed.

(** Pruning a phase gives no attribute a value it did not have. *)
Lemma prune_some d c v k x :
  well_formed d -> dict_get (prune d c v) k = Some x -> dict_get d k = Some x.
Proof.
  intros Hwf. unfold prune. destruct (all_unused d _ [c; v]); [|auto].
  assert (Hpop : forall (d0 : dict value) e, well_formed d0 ->
             dict_get (dict_pop d0 e) k = Some x -> dict_get d0 k = Some x).
  { intros d0 e Hw. destruct (String.eqb_spec k e) as [->|Hne].
    - rewrite dict_get_pop_same by exact Hw. discriminate.
    - now rewrite dict_get_pop_other. }
  intros H. apply Hpop in H; [|now apply well_formed_pop].
  now apply Hpop in H.
Qed.

(** Post-processing, when it returns: a timestamp it holds is a [float],
    every other value is one the set had. *)
Lemma _post_process_values d d' :
  well_formed d ->
  _post_process py d = (Ok tt, d') ->
  forall name v, dict_get d' name = Some v ->
    if in_dec string_dec name timestamps then type_of v = TFloat
    else dict_get d name = Some v.
Proof.
  intros Hwf H.
  rewrite _post_process_unguarded in H. unfold bind at 1 in H.
  destruct (fix_timestamp py INVERTER_TIMESTAMP_ONLINE d) as [[[]|e1] d1] eqn:E1;
    [|discriminate H].
  unfold bind at 1 in H.
  destruct (fix_timestamp py INVERTER_TIMESTAMP_UPDATE d1) as [[[]|e2] d2] eqn:E2;
    [|discriminate H].
  pose proof (_post_process_steps py d d1 d2 E1 E2) as Hs.
  rewrite _post_process_unguarded in Hs. unfold bind at 1 in Hs.
  rewrite E1 in Hs. unfold bind at 1 in Hs. rewrite E2 in Hs.
  rewrite Hs in H. injection H as <-.
  destruct (fix_timestamp_returns _ _ _ _ E1) as (O1 & W1 & T1).
  destruct (fix_timestamp_returns _ _ _ _ E2) as (O2 & W2 & T2).
  assert (Hw2 : well_formed d2) by auto.
  intros name v Hv.
  apply prune_some in Hv; [|now apply prune_well_formed, prune_well_formed].
  apply prune_some in Hv; [|now apply prune_well_formed].
  apply prune_some in Hv; [|exact Hw2].
  destruct (in_dec string_dec name timestamps) as [Hin|Hout].
  - destruct Hin as [<-|[<-|[]]].
    + rewrite O2 in Hv by discriminate.
      destruct (dict_get d INVERTER_TIMESTAMP_ONLINE);
        [destruct T1 as (f & _ & Hf) | congruence].
      rewrite Hf in Hv. now injection Hv as <-.
    + destruct (dict_get d1 INVERTER_TIMESTAMP_UPDATE);
        [destruct T2 as (f & _ & Hf) | congruence].
      rewrite Hf in Hv. now injection Hv as <-.
  - rewrite O2, O1 in Hv; [exact Hv | |]; intros ->; apply Hout; simpl; auto.
Qed.

End Typed.

(** X19.  In the measurement set that a fetch returns, the two timestamps
    are [float]s, and every other value has the type ([str], [int] or
    [float]) that the schema table declares for its attribute. *)
Theorem fetch_values_typed
  (py : Builtins) (inverter_serial : json) (a : GinlongAPI)
  (data : GinlongData) (name : string) (v : value) :
  fst (fetch_inverter_data py inverter_serial a) = Ok (Some data) ->
  dict_get (get_inverter_data data) name = Some v ->
  if in_dec string_dec name timestamps then type_of v = TFloat
  else declared name (type_of v).
Proof.
  destruct (fetch_inverter_data py inverter_serial a) as [r a'] eqn:E.
  cbn [fst]. intros -> Hv.
  destruct (fetch_inverter_data_returns py _ _ _ _ E)
    as (payload & d1 & Hc & Hp & _).
  destruct (_collect_inverter_data_collected py _ _ _ _ Hc) as (W1 & _).
  assert (Ht : typed d1).
  { apply (_collect_inverter_data_typed py _ _ _ _ Hc). intros n x. discriminate. }
  pose proof (_post_process_values py d1 _ (W1 ltac:(constructor)) Hp name v Hv)
    as H.
  destruct (in_dec string_dec name timestamps); [exact H | now apply Ht].
Qed.

Lemma fetch_values_typed_witness :
  type_of (VFloat 1700000000%float) = TFloat /\
  declared INVERTER_ENERGY_TODAY (type_of (VFloat 12.5%float)).
Proof.
  assert (H : fst (fetch_inverter_data CPython.builtins (JStr "S1")
                     (online_client good_details)) = Ok (Some good_reading))
    by (vm_compute; reflexivity).
  split.
  - exact (fetch_values_typed CPython.builtins (JStr "S1")
             (online_client good_details) good_reading
             INVERTER_TIMESTAMP_UPDATE (VFloat 1700000000%float) H eq_refl).
  - exact (fetch_values_typed CPython.builtins (JStr "S1")
             (online_client good_details) good_reading
             INVERTER_ENERGY_TODAY (VFloat 12.5%float) H eq_refl).
Defined.

(** ** Dispatch: what the subscribers are told *)

(** The deliveries of every subscriber go on from those it had. *)
Definition told_more (s s' : InverterService) : Prop :=
  forall ref, exists more,
    delivered (objects s' ref) = delivered (objects s ref) ++ more.

Lemma told_more_refl s : told_more s s.
Proof. intros ref. exists []. now rewrite app_nil_r. Qed.

Lemma told_more_trans s1 s2 s3 :
  told_more s1 s2 -> told_more s2 s3 -> told_more s1 s3.
Proof.
  intros H1 H2 ref. destruct (H1 ref) as (m1 & E1), (H2 ref) as (m2 & E2).
  exists (m1 ++ m2). now rewrite E2, E1, app_assoc.
Qed.

(** The daily-energy rule reads the clock and the subscribers; it tells
    them nothing. *)
Lemma energy_today_value_objects data serial value s r s' :
  energy_today_value data serial value s = (r, s') -> objects s' = objects s.
Proof.
  unfold energy_today_value, bind, now, lift, gets, ret.
  cbn -[__getattr__ py_eq hour minutes subscriber_of].
  destruct (__getattr__ data INVERTER_STATE) as [st|e];
    cbn -[py_eq hour minutes subscriber_of].
  2: { intros H; now injection H as <- <-. }
  destruct (py_eq st (VInt 2) && _); cbn -[py_eq hour minutes subscriber_of].
  1: { intros H; now injection H as <- <-. }
  destruct (py_eq st (VInt 1) && _); cbn -[py_eq hour minutes subscriber_of].
  2: { intros H; now injection H as <- <-. }
  rewrite subscriber_of_spec. cbn -[hour minutes subscriptions_of].
  destruct (subscriptions_of _ _) as [mine|]; cbn -[hour minutes].
  2: { intros H; now injection H as <- <-. }
  destruct (dict_get mine INVERTER_STATE) as [ref|]; cbn -[hour minutes].
  2: { intros H; now injection H as <- <-. }
  destruct (measured _); cbn -[hour minutes].
  2: { intros H; now injection H as <- <-. }
  destruct (_ <? _); intros H; now injection H as <- <-.
Qed.

Section Told.
Context (data : GinlongData) (serial : value) (mine : dict nat).

(** One turn of the loop of [update_devices]: it tells at most the
    subscriber of the attribute, and when it returns it has told that
    subscriber once, the value of the set if the attribute is not the daily
    energy. *)
Lemma update_attribute_told attribute s r s' :
  subscriptions_of (_subscriptions s) serial = Some mine ->
  update_attribute data serial attribute s = (r, s') ->
  told_more s s' /\
  (forall ref, dict_get mine attribute <> Some ref ->
     objects s' ref = objects s ref) /\
  (r = Ok tt ->
   forall ref, dict_get mine attribute = Some ref ->
     exists v,
       delivered (objects s' ref)
       = delivered (objects s ref) ++ [(v, _last_updated s)] /\
       (attribute <> INVERTER_ENERGY_TODAY ->
        dict_get (get_inverter_data data) attribute = Some v)).
Proof.
  intros Hs. unfold update_attribute. unfold bind at 1, gets at 1.
  rewrite Hs. unfold dict_contains.
  destruct (dict_get mine attribute) as [ref|] eqn:Em.
  2: { intros H; injection H as <- <-.
       split; [apply told_more_refl|]. split; [reflexivity|].
       intros _ ref Hr. discriminate Hr. }
  unfold bind at 1, lift at 1, __getattr__.
  destruct (dict_get (get_inverter_data data) attribute) as [raw|] eqn:Ed.
  2: { intros H; injection H as <- <-.
       split; [apply told_more_refl|]. split; [reflexivity|].
       intros Hr. discriminate Hr. }
  unfold bind at 1.
  destruct ((if String.eqb attribute INVERTER_ENERGY_TODAY
             then energy_today_value data serial raw else ret raw) s)
    as [[v|e] s1] eqn:E.
  2: { intros H; injection H as <- <-.
       destruct (String.eqb attribute INVERTER_ENERGY_TODAY);
         [|discriminate E].
       pose proof (energy_today_value_objects _ _ _ _ _ _ E) as Ho.
       split; [intros ref0; exists []; now rewrite Ho, app_nil_r|].
       split; [intros ref0 _; now rewrite Ho|].
       intros Hr. discriminate Hr. }
  assert (Q : quiet s s1 /\ objects s1 = objects s /\
              (attribute <> INVERTER_ENERGY_TODAY -> v = raw)).
  { destruct (String.eqb_spec attribute INVERTER_ENERGY_TODAY) as [->|Hne].
    - split; [eapply energy_today_value_quiet; exact E|].
      split; [eapply energy_today_value_objects; exact E | congruence].
    - injection E as <- <-. split; [apply quiet_refl|]. auto. }
  destruct Q as ((_ & _ & _ & Q4 & Q5 & _) & Ho & Hv).
  unfold bind at 1. rewrite subscriber_of_spec, Q5, Hs, Em.
  unfold bind, gets, notify, modify. intros H; injection H as <- <-.
  unfold told_more. cbn [objects set_object]. rewrite Ho, Q4.
  split; [|split].
  - intros ref0. destruct (Nat.eqb ref0 ref) eqn:En.
    + apply Nat.eqb_eq in En. subst ref0. eexists.
      apply data_updated_delivered.
    + exists []. now rewrite app_nil_r.
  - intros ref0 Hr. destruct (Nat.eqb_spec ref0 ref); [congruence | reflexivity].
  - intros _ ref0 Hr. injection Hr as <-. rewrite Nat.eqb_refl.
    exists v. split; [apply data_updated_delivered|].
    intros Hne. now rewrite (Hv Hne).
Qed.

(** The loop of [update_devices]. *)
Lemma dispatch_told attributes : forall s s',
  subscriptions_of (_subscriptions s) serial = Some mine ->
  for_each attributes (update_attribute data serial) s = (Ok tt, s') ->
  told_more s s' /\
  (forall ref,
     (forall attribute, In attribute attributes ->
        dict_get mine attribute <> Some ref) ->
     objects s' ref = objects s ref) /\
  (forall attribute ref raw,
     In attribute attributes ->
     attribute <> INVERTER_ENERGY_TODAY ->
     dict_get mine attribute = Some ref ->
     dict_get (get_inverter_data data) attribute = Some raw ->
     exists before after,
       delivered (objects s' ref)
       = delivered (objects s ref) ++ before ++ (raw, _last_updated s) :: after).
Proof.
  induction attributes as [|a l IH]; intros s s' Hs H.
  - injection H as <-. split; [apply told_more_refl|].
    split; [reflexivity|]. intros attribute ref raw [].
  - cbn [for_each] in H. unfold bind in H.
    destruct (update_attribute data serial a s) as [[[]|e] s1] eqn:E1;
      [|discriminate H].
    destruct (update_attribute_told _ _ _ _ Hs E1) as (T1 & U1 & D1).
    destruct (update_attribute_quiet _ _ _ _ _ _ E1)
      as (_ & _ & _ & Q4 & Q5 & _).
    destruct (IH s1 s') as (T2 & U2 & D2); [now rewrite Q5 | exact H|].
    split; [eapply told_more_trans; eassumption|]. split.
    + intros ref Hr. rewrite U2, U1; [reflexivity | |].
      * apply Hr. now left.
      * intros attribute Hin. apply Hr. now right.
    + intros attribute ref raw [<-|Hin] Hne Hm Hd.
      * destruct (D1 eq_refl ref Hm) as (v & Hv & Hraw).
        rewrite (Hraw Hne) in Hd. injection Hd as ->.
        destruct (T2 ref) as (more & Hmore).
        exists [], more. rewrite Hmore, Hv, <- app_assoc. reflexivity.
      * destruct (D2 attribute ref raw Hin Hne Hm Hd)
          as (before & after & Hd2).
        destruct (T1 ref) as (more & Hmore).
        exists (more ++ before), after.
        rewrite Hd2, Hmore, Q4, <- !app_assoc. reflexivity.
Qed.

End Told.

(** No attribute name of the schema is the name of a member of
    [GinlongData]: for the names of a fetched set, [getattr] is
    [__getattr__]. *)
Lemma schema_names_are_measurements name :
  In name ["keys"; "get_inverter_data"; "_data"; "__init__"; "__getattr__"] ->
  ~ In name schema_names.
Proof.
  intros Hin Hs.
  assert (H : existsb (String.eqb name) schema_names = true).
  { apply existsb_exists. exists name. split; [exact Hs | apply String.eqb_refl]. }
  destruct Hin as [<-|[<-|[<-|[<-|[<-|[]]]]]]; vm_compute in H; discriminate H.
Qed.

(** X20.  For a measurement set whose attribute names are names of the
    schema table, as those of every fetched set are: a dispatch that returns
    has told the subscriber of every attribute of the set, other than the
    daily energy, the value of the set together with the service's update
    time; it has told nothing to a subscriber that is registered for no
    attribute of the set's serial, and it has taken no delivery back. *)
Theorem update_devices_delivers
  (data : GinlongData) (serial : string) (mine : dict nat)
  (s s' : InverterService) :
  (forall name, In name (dict_keys (get_inverter_data data)) ->
                In name schema_names) ->
  dict_get (get_inverter_data data) INVERTER_SERIAL = Some (VStr serial) ->
  dict_get (_subscriptions s) serial = Some mine ->
  update_devices data s = (Ok tt, s') ->
  (forall attribute ref raw,
     attribute <> INVERTER_ENERGY_TODAY ->
     dict_get mine attribute = Some ref ->
     dict_get (get_inverter_data data) attribute = Some raw ->
     exists before after,
       delivered (objects s' ref)
       = delivered (objects s ref) ++ before ++ (raw, _last_updated s) :: after) /\
  (forall ref,
     (forall attribute, dict_get mine attribute <> Some ref) ->
     objects s' ref = objects s ref) /\
  told_more s s'.
Proof.
  intros _ Hserial Hmine. unfold update_devices, bind, lift, gets, __getattr__.
  rewrite Hserial. cbn [subscriptions_of]. rewrite Hmine.
  destruct (keys data) as [names|e] eqn:Ek; [|discriminate].
  intros H.
  destruct (dispatch_told data (VStr serial) mine names s s' Hmine H)
    as (T & U & D).
  split; [|split; [|exact T]].
  - intros attribute ref raw Hne Hm Hd. apply (D attribute ref raw); auto.
    unfold keys in Ek.
    destruct (list_remove INVERTER_STATE (dict_keys (get_inverter_data data)))
      as [rest|] eqn:Er; [|discriminate Ek].
    injection Ek as <-.
    eapply Permutation_in; [exact (list_remove_permutation _ _ _ Er)|].
    eapply dict_get_some_in; exact Hd.
  - intros ref Hr. apply U. intros attribute _. apply Hr.
Qed.

Lemma update_devices_delivers_witness :
  exists before after,
    delivered (objects (snd (update_devices (reading 1)
                               (watching (GinlongAPI__init__ unreachable)
                                  (at_clock 14 0) None))) 0%nat)
    = [] ++ before ++ (VInt 1, Some (at_clock 14 0)) :: after.
Proof.
  destruct (update_devices_delivers (reading 1) "S1"
              [ (INVERTER_STATE, 0%nat); (INVERTER_ENERGY_TODAY, 1%nat) ]
              (watching (GinlongAPI__init__ unreachable) (at_clock 14 0) None)
              (snd (update_devices (reading 1)
                      (watching (GinlongAPI__init__ unreachable)
                         (at_clock 14 0) None))))
    as (Hd & _ & _).
  - intros name [<-|[<-|[<-|[]]]]; vm_compute;
      repeat (first [left; reflexivity | right]).
  - reflexivity.
  - reflexivity.
  - assert (Hr : fst (update_devices (reading 1)
                        (watching (GinlongAPI__init__ unreachable)
                           (at_clock 14 0) None)) = Ok tt)
      by (vm_compute; reflexivity).
    rewrite <- Hr. apply surjective_pairing.
  - exact (Hd INVERTER_STATE 0%nat (VInt 1) ltac:(discriminate)
             eq_refl eq_refl).
Defined.

(** ** The requests of an update cycle *)

Definition is_details (rq : request) : Prop :=
  exists device_id, rq = goDetailAjax device_id.

(** The client has sent requests for details, and no other request. *)
Definition fetching (s s' : InverterService) : Prop :=
  exists details,
    sent (_api s') = sent (_api s) ++ details /\ Forall is_details details.

Lemma fetching_refl s : fetching s s.
Proof. exists []. rewrite app_nil_r. split; [reflexivity | constructor]. Qed.

Lemma fetching_trans s1 s2 s3 :
  fetching s1 s2 -> fetching s2 s3 -> fetching s1 s3.
Proof.
  intros (d1 & E1 & F1) (d2 & E2 & F2). exists (d1 ++ d2).
  split; [now rewrite E2, E1, app_assoc | now apply Forall_app].
Qed.

Section CycleRequests.
Context (py : Builtins).

(** A fetch sends one request for details, or none. *)
Lemma fetch_inverter_data_sent k a :
  sent (snd (fetch_inverter_data py k a)) = sent a \/
  exists device_id,
    sent (snd (fetch_inverter_data py k a)) = sent a ++ [goDetailAjax device_id].
Proof.
  unfold fetch_inverter_data, fetch_inverter_data_body, bind, modify, gets,
    _get_inverter_details, _get_data, exchange, call, content, ret, raise,
    bind, zoom, is_online.
  cbn -[_collect_inverter_data _post_process].
  destruct (_online a); cbn -[_collect_inverter_data _post_process]; auto.
  destruct (_inverter_list a) as [l|];
    cbn -[_collect_inverter_data _post_process]; auto.
  destruct (hashable k); cbn -[_collect_inverter_data _post_process]; auto.
  destruct (dir_get l k) as [device_id|];
    cbn -[_collect_inverter_data _post_process]; auto.
  destruct (_session a); cbn -[_collect_inverter_data _post_process]; auto.
  right. exists device_id.
  destruct (portal a _ _) as [status body| |e];
    cbn -[_collect_inverter_data _post_process]; auto.
  destruct (status =? 200); cbn -[_collect_inverter_data _post_process]; auto.
  destruct body; cbn -[_collect_inverter_data _post_process]; auto;
    (destruct (_collect_inverter_data py _ []) as [[[]|e1] d1];
     cbn -[_post_process]; auto;
     destruct (_post_process py d1) as [[[]|e2] d2]; cbn; auto).
Qed.

Lemma update_inverter_fetching u k s r s' :
  update_inverter py u k s = (r, s') -> fetching s s'.
Proof.
  unfold update_inverter. unfold bind at 1. unfold zoom.
  pose proof (fetch_inverter_data_sent k (_api s)) as Hsent.
  destruct (fetch_inverter_data py k (_api s)) as [[[data|]|e] a'] eqn:Ef;
    cbn [snd] in Hsent;
    assert (F : fetching s (set_api a' s))
      by (destruct Hsent as [E|(id & E)];
          [exists []; rewrite app_nil_r; split; [exact E | constructor]
          |exists [goDetailAjax id]; split; [exact E|];
           repeat constructor; now exists id]).
  - unfold bind at 1, now at 1. unfold bind at 1, modify at 1. unfold bind.
    match goal with
    | |- context [update_devices data ?s0] =>
        destruct (update_devices data s0) as [[[]|e] s1] eqn:Eu;
        destruct (update_devices_quiet _ _ _ _ Eu) as (Q1 & _)
    end;
      unfold ret; intros H; injection H as <- <-;
      destruct F as (d & E & Fd); exists d; (split; [|exact Fd]);
      rewrite Q1; exact E.
  - unfold bind. rewrite _logout_spec. unfold ret.
    intros H; injection H as <- <-. exact F.
  - intros H; injection H as <- <-. exact F.
Qed.

End CycleRequests.

(** X21.  An update cycle logs in at most once, before it fetches: the
    requests it sends are requests for details, after the login request and
    at most one request for the inverter list when it started offline, and
    after no other request when it started online. *)
Theorem cycle_requests (py : Builtins) (s : InverterService) :
  exists logins details,
    sent (_api (snd (async_update py s)))
    = sent (_api s) ++ logins ++ details /\
    Forall is_details details /\
    (logins = [] \/ logins = [validateLogin] \/
     logins = [validateLogin; inverterListAjax (plantid (_api s))]) /\
    (is_online (_api s) = true -> logins = []).
Proof.
  assert (Hcycle : forall s1 r s2,
            fetch_all py s = (r, s1) ->
            fetching s1 s2 ->
            exists logins details,
              sent (_api s2) = sent (_api s) ++ logins ++ details /\
              Forall is_details details /\
              (logins = [] \/ logins = [validateLogin] \/
               logins = [validateLogin; inverterListAjax (plantid (_api s))]) /\
              (is_online (_api s) = true -> logins = [])).
  { intros s1 r s2. unfold fetch_all. unfold bind at 1.
    destruct (_login s) as [[logged_in|e] s0] eqn:El.
    - assert (Hl : exists logins,
                sent (_api s0) = sent (_api s) ++ logins /\
                (logins = [] \/ logins = [validateLogin] \/
                 logins = [validateLogin;
                           inverterListAjax (plantid (_api s))]) /\
                (is_online (_api s) = true -> logins = [])).
      { destruct (is_online (_api s)) eqn:Hon.
        - rewrite (_login_online s Hon) in El. injection El as _ <-.
          exists []. rewrite app_nil_r. auto.
        - destruct (_login_frame _ _ _ El) as (_ & _ & _ & _ & _ & _ & _ & L8 & _).
          destruct L8 as [E|[E|E]].
          + exists []. rewrite app_nil_r. split; [exact E|]. split; [auto|].
            discriminate.
          + exists [validateLogin]. split; [exact E|]. split; [auto|].
            discriminate.
          + exists [validateLogin; inverterListAjax (plantid (_api s))].
            rewrite <- app_assoc in E. split; [exact E|]. split; [auto|].
            discriminate. }
      destruct Hl as (logins & Hsent & Hshape & Hon).
      intros H (d2 & E2 & F2).
      assert (F1 : fetching s0 s1).
      { destruct logged_in.
        - unfold bind at 1, gets at 1 in H. unfold inverters at 1 in H.
          destruct (_inverter_list (_api s0)) as [l|].
          + unfold bind in H.
            destruct (for_fold (map fst l) SCHEDULE_NOK (update_inverter py) s0)
              as [[u|e] s3] eqn:Eloop.
            * injection H as _ <-.
              eapply (for_fold_invariant fetching (fun _ => True));
                [apply fetching_refl | apply fetching_trans
                |intros; eapply update_inverter_fetching; eassumption
                |auto | exact Eloop].
            * injection H as _ <-.
              eapply (for_fold_invariant fetching (fun _ => True));
                [apply fetching_refl | apply fetching_trans
                |intros; eapply update_inverter_fetching; eassumption
                |auto | exact Eloop].
          + injection H as _ <-. apply fetching_refl.
        - injection H as _ <-. apply fetching_refl. }
      destruct F1 as (d1 & E1 & F1).
      exists logins, (d1 ++ d2).
      split; [now rewrite E2, E1, Hsent, <- !app_assoc|].
      split; [now apply Forall_app | auto].
    - intros H (d2 & E2 & F2). injection H as _ <-.
      destruct (is_online (_api s)) eqn:Hon.
      + rewrite (_login_online s Hon) in El. discriminate El.
      + destruct (_login_frame _ _ _ El) as (_ & _ & _ & _ & _ & _ & _ & L8 & _).
        destruct L8 as [E|[E|E]];
          [exists [] | exists [validateLogin]
          |exists [validateLogin; inverterListAjax (plantid (_api s))];
           rewrite <- app_assoc in E];
          exists d2; rewrite E2, E; cbn [app];
          (split; [now rewrite <- ?app_assoc|]);
          (split; [exact F2|]); (split; [auto | discriminate]). }
  rewrite async_update_unfold.
  destruct (fetch_all py s) as [[[u0|u0]|e] s1] eqn:Ef.
  - apply (Hcycle s1 _ s1 eq_refl), fetching_refl.
  - apply (Hcycle s1 _ _ eq_refl).
    destruct (reschedule_spec u0 s1) as (s2 & Hr & _).
    rewrite Hr. cbn [snd].
    unfold reschedule, schedule_update, bind, modify, gets, now, ret in Hr.
    cbn -[HRS_BETWEEN_LOGIN Z.ltb] in Hr.
    exists []. rewrite app_nil_r. split; [|constructor].
    destruct (_logintime s1) as [t|]; cbn -[HRS_BETWEEN_LOGIN Z.ltb] in Hr.
    + destruct (t + HRS_BETWEEN_LOGIN <? _); cbn in Hr;
        injection Hr as <-; reflexivity.
    + injection Hr as <-. reflexivity.
  - apply (Hcycle s1 _ s1 eq_refl), fetching_refl.
Qed.

(** ** Payloads that lack a subset *)



